(** * github-server: the OAuth proxy of [index.js], in two variants

    The repository holds two versions of [index.js]: a stateless one that
    keeps the provider token in a [gh_token] cookie (module [Cookie]) and
    one that keeps it in a server-side session (module [Session]).
    Both are embedded here, route by route, over a small model of the
    JavaScript values they handle (module [JS]) and of the upstream calls
    they make (module [Upstream]). *)

From Stdlib Require Import ZArith Ascii String List Lia Bool.
From stdpp Require Import base option strings list gmap pretty.

Local Open Scope string_scope.
Local Open Scope Z_scope.

(** ** JavaScript values and strings *)

Module JS.

(** A JavaScript string is held as the bytes of its UTF-8 encoding, the
    form in which request bodies, cookies and upstream replies travel. A
    string can hold an unpaired surrogate (the JSON escape [\ud800] makes
    one); it is held in the three bytes the same scheme gives it: 237, a
    byte from 160 on, and a continuation byte. A surrogate pair is the four
    bytes of its character. *)

(** The values a parsed JSON document or a missing property can give.
    Numbers are the integral ones (status codes, page numbers, ids). *)
#[warnings="-register-all"]
Inductive Value : Type :=
  | Undefined
  | Null
  | Bool (b : bool)
  | Num (n : Z)
  | Str (s : string)
  | Arr (items : list Value)
  | Obj (members : gmap string Value).

(** [Boolean(v)], the test behind [if (v)], [!v] and [v || w]. *)
Definition truthy (v : Value) : bool :=
  match v with
  | Undefined | Null => false
  | Bool b => b
  | Num n => negb (n =? 0)
  | Str s => negb (String.eqb s "")
  | Arr _ | Obj _ => true
  end.

(** [a || b] on values. *)
Definition or_else (a b : Value) : Value := if truthy a then a else b.

(** A destructuring default [{ k = d }]: used only for [undefined]. *)
Definition with_default (d v : Value) : Value :=
  match v with Undefined => d | _ => v end.

(** Property read [o.k] on an object literal or parsed body. *)
Definition get (k : string) (o : gmap string Value) : Value :=
  default Undefined (o !! k).

(** *** Strings *)

Definition nonempty (s : string) : bool := negb (String.eqb s "").

Definition code (c : ascii) : Z := Z.of_N (N_of_ascii c).
Definition char (n : Z) : ascii := ascii_of_N (Z.to_N n).

(** [s.split(",")]: the pieces between commas; never the empty list. *)
Fixpoint split_comma (s : string) : list string :=
  match s with
  | EmptyString => [EmptyString]
  | String c rest =>
      if Ascii.eqb c ","%char then EmptyString :: split_comma rest
      else match split_comma rest with
           | piece :: pieces => String c piece :: pieces
           | [] => [String c EmptyString]
           end
  end.

(** The white space and line terminators of ECMAScript, as UTF-8 byte
    sequences of one, two and three bytes: TAB LF VT FF CR SP; U+00A0;
    U+1680, U+2000..U+200A, U+2028, U+2029, U+202F, U+205F, U+3000 and
    U+FEFF. *)
Definition ws1 (a : Z) : bool := (9 <=? a) && (a <=? 13) || (a =? 32).

Definition ws2 (a b : Z) : bool := (a =? 194) && (b =? 160).

Definition ws3 (a b c : Z) : bool :=
  (a =? 225) && (b =? 154) && (c =? 128)
  || (a =? 226) && (b =? 128)
     && ((128 <=? c) && (c <=? 138) || (c =? 168) || (c =? 169) || (c =? 175))
  || (a =? 226) && (b =? 129) && (c =? 159)
  || (a =? 227) && (b =? 128) && (c =? 128)
  || (a =? 239) && (b =? 187) && (c =? 191).

(** The number of bytes of the white-space character [l] starts with, or 0. *)
Definition ws_prefix (l : list Z) : nat :=
  match l with
  | a :: rest =>
      if ws1 a then 1%nat
      else match rest with
           | b :: rest' =>
               if ws2 a b then 2%nat
               else match rest' with
                    | c :: _ => if ws3 a b c then 3%nat else 0%nat
                    | [] => 0%nat
                    end
           | [] => 0%nat
           end
  | [] => 0%nat
  end.

(** The same for the character [l] ends with; [l] comes reversed. *)
Definition ws_suffix (l : list Z) : nat :=
  match l with
  | c :: rest =>
      if ws1 c then 1%nat
      else match rest with
           | b :: rest' =>
               if ws2 b c then 2%nat
               else match rest' with
                    | a :: _ => if ws3 a b c then 3%nat else 0%nat
                    | [] => 0%nat
                    end
           | [] => 0%nat
           end
  | [] => 0%nat
  end.

Fixpoint strip (measure : list Z -> nat) (fuel : nat) (l : list Z) : list Z :=
  match fuel with
  | O => l
  | S fuel' =>
      match measure l with
      | O => l
      | n => strip measure fuel' (drop n l)
      end
  end.

Definition bytes (s : string) : list Z := map code (list_ascii_of_string s).
Definition of_bytes (l : list Z) : string := string_of_list_ascii (map char l).

(** [s.trim()]. Each round of [strip] removes one white-space character,
    so the length of the input is fuel enough. *)
Definition trim (s : string) : string :=
  let l := bytes s in
  let l1 := strip ws_prefix (length l) l in
  let l2 := strip ws_suffix (length l1) (rev l1) in
  of_bytes (rev l2).

(** [s.toLowerCase()] on ASCII text: the engine does the full Unicode case
    mapping, so the gate below takes the mapping as a parameter and this
    function is the instance used on ASCII user names. *)
Definition lower_char (c : ascii) : ascii :=
  let n := code c in
  if (65 <=? n) && (n <=? 90) then char (n + 32) else c.

Fixpoint ascii_toLowerCase (s : string) : string :=
  match s with
  | EmptyString => EmptyString
  | String c rest => String (lower_char c) (ascii_toLowerCase rest)
  end.

(** [s.length]: UTF-16 code units. A byte that starts a character counts
    one, a byte that starts a four-byte character (a surrogate pair) two,
    a continuation byte none. *)
Definition units (b : Z) : nat :=
  if (128 <=? b) && (b <? 192) then 0%nat
  else if 240 <=? b then 2%nat else 1%nat.

Definition length16 (s : string) : nat :=
  fold_right (fun b n => (units b + n)%nat) 0%nat (bytes s).

(** *** Base64 *)

Definition base64_alphabet : string :=
  "ABCDEFGHIJKLMNOPQRSTUVWXYZabcdefghijklmnopqrstuvwxyz0123456789+/".

Definition sextet (n : Z) : ascii :=
  match String.get (Z.to_nat n) base64_alphabet with
  | Some c => c
  | None => "="%char
  end.

(** [buf.toString("base64")]: three bytes give four characters, a last
    group of one or two bytes is padded with [=]. *)
Fixpoint base64 (l : list Z) : string :=
  match l with
  | [] => ""
  | [a] =>
      String (sextet (Z.shiftr a 2))
        (String (sextet (Z.shiftl (Z.land a 3) 4)) "==")
  | [a; b] =>
      String (sextet (Z.shiftr a 2))
        (String (sextet (Z.lor (Z.shiftl (Z.land a 3) 4) (Z.shiftr b 4)))
           (String (sextet (Z.shiftl (Z.land b 15) 2)) "="))
  | a :: b :: c :: rest =>
      String (sextet (Z.shiftr a 2))
        (String (sextet (Z.lor (Z.shiftl (Z.land a 3) 4) (Z.shiftr b 4)))
           (String (sextet (Z.lor (Z.shiftl (Z.land b 15) 2) (Z.shiftr c 6)))
              (String (sextet (Z.land c 63)) (base64 rest))))
  end.

(** The first two bytes of an unpaired surrogate. *)
Definition surrogate (a b : Z) : bool := (a =? 237) && (160 <=? b).

(** [Buffer.from(s, "utf8")]: the bytes of the string, with U+FFFD (239,
    191, 189) in the place of every unpaired surrogate. *)
Fixpoint utf8 (l : list Z) : list Z :=
  match l with
  | a :: tail =>
      match tail with
      | b :: _ :: rest =>
          if surrogate a b then 239 :: 191 :: 189 :: utf8 rest else a :: utf8 tail
      | _ => l
      end
  | [] => []
  end.

(** [Buffer.from(s, "utf8").toString("base64")]. *)
Definition to_base64 (s : string) : string := base64 (utf8 (bytes s)).

(** *** encodeURIComponent *)

Definition hex_digit (n : Z) : ascii :=
  if n <? 10 then char (48 + n) else char (55 + n).

(** The characters [encodeURIComponent] leaves alone:
    letters, digits and [- _ . ! ~ * ' ( )]. *)
Definition unreserved (n : Z) : bool :=
  (65 <=? n) && (n <=? 90) || (97 <=? n) && (n <=? 122)
  || (48 <=? n) && (n <=? 57)
  || (n =? 45) || (n =? 95) || (n =? 46) || (n =? 33) || (n =? 126)
  || (n =? 42) || (n =? 39) || (n =? 40) || (n =? 41).

(** Every byte outside them becomes [%XX]. *)
Fixpoint escaped (s : string) : string :=
  match s with
  | EmptyString => EmptyString
  | String c rest =>
      let n := code c in
      if unreserved n then String c (escaped rest)
      else String "%" (String (hex_digit (Z.shiftr n 4))
             (String (hex_digit (Z.land n 15)) (escaped rest)))
  end.

(** A string without unpaired surrogates. *)
Fixpoint well_formed (l : list Z) : bool :=
  match l with
  | a :: tail =>
      match tail with
      | b :: _ => negb (surrogate a b) && well_formed tail
      | [] => true
      end
  | [] => true
  end.

(** [encodeURIComponent(s)]: [None] is the [URIError] the engine throws
    when [s] holds an unpaired surrogate. *)
Definition encodeURIComponent (s : string) : option string :=
  if well_formed (bytes s) then Some (escaped s) else None.

End JS.

(** ** The upstream API and the calls made to it *)

Module Upstream.
Import JS.

(** The options object handed to [axios]: one upstream call. *)
Record Call := {
  method : string;
  url : string;
  headers : gmap string string;
  data : gmap string Value;
  params : gmap string Value;
}.

(** [err.response] of a call the provider answered outside 2xx: its
    [status] and its [data], here [body]. *)
Record Response := { status : Z; body : Value }.

(** A thrown error: an axios error has [response] when the provider
    answered, none when the call never got an answer; an engine error
    (a [TypeError]) has none either. *)
Record Error := { response : option Response; message : string }.

Definition TypeError (msg : string) : Error :=
  {| response := None; message := msg |}.

(** The [URIError] of [encodeURIComponent]. *)
Definition URIError : Error :=
  {| response := None; message := "URI malformed" |}.

Inductive Reply :=
  | Resolved (payload : Value)
  | Rejected (err : Error).

(** The provider, as seen from the proxy: what it answers to a call, given
    the calls it has received so far. *)
Definition Server := list Call -> Call -> Reply.

(** A computation that may call upstream: it extends the log of calls and
    returns, throws, or is still waiting when the fuel of a loop is spent. *)
Inductive Outcome (A : Type) :=
  | Return (a : A)
  | Throw (err : Error)
  | Pending.
Arguments Return {A} a.
Arguments Throw {A} err.
Arguments Pending {A}.

Definition M (A : Type) := list Call -> Outcome A * list Call.

Definition ret {A} (a : A) : M A := fun log => (Return a, log).
Definition throw {A} (e : Error) : M A := fun log => (Throw e, log).
Definition pending {A} : M A := fun log => (Pending, log).

(** An expression that gives a value or throws, without a call. *)
Definition attempt {A} (r : Error + A) : M A :=
  match r with
  | inl e => throw e
  | inr a => ret a
  end.

Definition bind {A B} (m : M A) (k : A -> M B) : M B :=
  fun log =>
    match m log with
    | (Return a, log') => k a log'
    | (Throw e, log') => (Throw e, log')
    | (Pending, log') => (Pending, log')
    end.

(** [try { m } catch (e) { h e }] *)
Definition try_catch {A} (m : M A) (h : Error -> M A) : M A :=
  fun log =>
    match m log with
    | (Throw e, log') => h e log'
    | r => r
    end.

(** [await axios(opts)], then [resp.data]. *)
Definition request (axios : Server) (opts : Call) : M Value :=
  fun log =>
    match axios log opts with
    | Resolved d => (Return d, (log ++ [opts])%list)
    | Rejected e => (Throw e, (log ++ [opts])%list)
    end.

(** The calls a computation adds to a log. *)
Definition calls_made {A} (m : M A) (log : list Call) : list Call :=
  drop (length log) (snd (m log)).

End Upstream.

Notation "'let*' x ':=' m 'in' k" := (Upstream.bind m (fun x => k))
  (at level 10, x name, m at level 100, k at level 200).

(** ** What the proxy sends back *)

Module Http.
Import JS.

Record CookieOptions := {
  httpOnly : bool;
  secure : bool;
  sameSite : string;
  maxAge : Z;
}.

Inductive CookieOp :=
  | SetCookie (name value : string) (opts : CookieOptions)
  | ClearCookie (name : string).

(** The three ways a handler ends: [res.status(s).json(b)],
    [res.redirect(l)], or [next(err)]; with the cookie operations queued on
    [res] before. *)
Inductive Res :=
  | Json (status : Z) (body : Value) (cookies : list CookieOp)
  | Redirect (location : string) (cookies : list CookieOp)
  | Next (err : Upstream.Error).

Definition cookies_of (r : Res) : list CookieOp :=
  match r with
  | Json _ _ cs | Redirect _ cs => cs
  | Next _ => []
  end.

Definition sets_cookie (name : string) (r : Res) : bool :=
  existsb (fun op => match op with
                     | SetCookie n _ _ => String.eqb n name
                     | ClearCookie _ => false
                     end) (cookies_of r).

(** [{ error: "Unauthorized. Please log in via /auth/github" }] with 401. *)
Definition unauthorized : Res :=
  Json 401 (Obj {[ "error" := Str "Unauthorized. Please log in via /auth/github" ]}) [].

(** The [catch (err)] block every route ends with:
    [res.status(err.response?.status || 500)
        .json({ error: err.response?.data || err.message })]. *)
Definition relay (err : Upstream.Error) : Res :=
  let status :=
    match Upstream.response err with
    | Some r => if Upstream.status r =? 0 then 500 else Upstream.status r
    | None => 500
    end in
  let error :=
    match Upstream.response err with
    | Some r => if truthy (Upstream.body r) then Upstream.body r
                else Str (Upstream.message err)
    | None => Str (Upstream.message err)
    end in
  Json status (Obj {[ "error" := error ]}) [].

(** The fields the write routes read off [req.body], as [express.json()]
    parsed them: each is any JSON value, or [undefined] when the body has
    no such member. *)
Record Body := {
  b_path : Value;
  b_content : Value;
  b_message : Value;
  b_branch : Value;
  b_sha : Value;
  b_committer : Value;
  b_push : Value;
}.

Definition empty_body : Body :=
  {| b_path := Undefined; b_content := Undefined; b_message := Undefined;
     b_branch := Undefined; b_sha := Undefined; b_committer := Undefined;
     b_push := Undefined |}.

(** The identity the provider returns during the OAuth exchange. *)
Record Profile := {
  id : Value;
  username : option string;
  login : option string;
  displayName : option string;
  photos : Value;
}.

(** The profile once the verify callback has run [profile.token = accessToken]. *)
Record User := { profile : Profile; token : string }.

(** What [passport.authenticate] finds when the callback URL is hit, before
    the verify callback runs: an error of the exchange, a refusal by the
    provider, no authorization code yet (it redirects to the provider), or
    the access token and the profile. *)
Inductive Exchange :=
  | ExchangeError (err : Upstream.Error)
  | ExchangeDenied
  | ToProvider (authorize_url : string)
  | Granted (accessToken : string) (p : Profile).

(** The protected routes, with their [req.params]. *)
Inductive Route :=
  | Me
  | Repos
  | Branches (owner repo : string)
  | ContentsRoot (owner repo : string)
  | Contents (owner repo path : string)
  | Commits (owner repo : string)
  | Tree (owner repo sha : string)
  | SpecUpdate (owner repo : string)
  | PutContents (owner repo path : string).

(** [a || b] where [a] may be missing and [b] is a string. *)
Definition or_string (a : option string) (b : string) : string :=
  match a with
  | Some s => if nonempty s then s else b
  | None => b
  end.

(** [(profile.username || profile.login || profile.displayName || "")] *)
Definition login_name (p : Profile) : string :=
  or_string (username p) (or_string (login p) (or_string (displayName p) "")).

Definition type_name (v : Value) : string :=
  match v with Undefined => "undefined" | _ => "null" end.

(** The engine's [TypeError] for a property read on [null] or [undefined]. *)
Definition cannot_read (k : string) (v : Value) : Upstream.Error :=
  Upstream.TypeError
    ("Cannot read properties of " ++ type_name v ++ " (reading '" ++ k ++ "')").

(** [v.k] for the member names the routes read ([id], [login], [name],
    [avatar_url], [sha]): the member of an object, [undefined] on any other
    value, and a [TypeError] on [null] and [undefined]. *)
Definition member (k : string) (v : Value) : Upstream.M Value :=
  match v with
  | Obj o => Upstream.ret (get k o)
  | Null | Undefined => Upstream.throw (cannot_read k v)
  | _ => Upstream.ret Undefined
  end.

(** [const { k } = v], where [v] is the variable named [var]. *)
Definition destructured (k var : string) (v : Value) : Upstream.M Value :=
  match v with
  | Obj o => Upstream.ret (get k o)
  | Null | Undefined =>
      Upstream.throw
        (Upstream.TypeError
           ("Cannot destructure property '" ++ k ++ "' of '" ++ var
            ++ "' as it is " ++ type_name v ++ "."))
  | _ => Upstream.ret Undefined
  end.

(** [if (v) payload.k = v] *)
Definition set_if (k : string) (v : Value) (payload : gmap string Value) : gmap string Value :=
  if truthy v then <[k := v]> payload else payload.

(** [process.env], as far as the two programs read it. *)
Record Env := {
  APP_NAME : option string;
  NODE_ENV : option string;
  ALLOWED_USERS : option string;
}.

(** [process.env.NODE_ENV === "production"], the [secure] attribute of the
    cookie. *)
Definition production (env : Env) : bool :=
  match NODE_ENV env with
  | Some v => String.eqb v "production"
  | None => false
  end.

Definition token_cookie (env : Env) (value : string) : CookieOp :=
  SetCookie "gh_token" value
    {| httpOnly := true; secure := production env; sameSite := "lax";
       maxAge := 24 * 60 * 60 * 1000 |}.

End Http.

(** ** What the two variants have in common

    The allow-list, the verify callback of the GitHub strategy,
    [githubRequest], the routes that forward one [GET], and the spec-update
    route read the same in both files. *)

Module Common.
Import JS Upstream Http.

Section Program.

Variable env : Env.
Variable axios : Server.
(** [String.prototype.toLowerCase], the engine's Unicode case mapping. *)
Variable toLowerCase : string -> string.
(** The engine's [ToString] on a value that is not a string: the text of a
    number or a boolean, the joined items of an array, [[object Object]],
    or the error it throws. *)
Variable ToString : Value -> Error + string.
(** [Buffer.from(v, "utf8").toString("base64")] of the platform on a value
    [v] that is not a string: the text for the bytes of an array or of an
    array-like object, or the error thrown for a value [Buffer.from] does
    not take (a number, a boolean, [null], an object of another shape). *)
Variable Buffer_from : Value -> Error + string.

(** [ALLOWED_USERS.split(",").map((s) => s.trim()).filter(Boolean)] *)
Definition parse_allowed (ALLOWED_USERS : string) : list string :=
  List.filter nonempty (map trim (split_comma ALLOWED_USERS)).

(** [allowedUsers.some((u) => u.toLowerCase() === username)] with
    [username] the lower-cased login name of the profile. *)
Definition isAllowed (allowedUsers : list string) (p : Profile) : bool :=
  let username := toLowerCase (login_name p) in
  existsb (fun u => String.eqb (toLowerCase u) username) allowedUsers.

(** The verify callback: [None] is [done(null, false, ...)], [Some user] is
    [done(null, profile)]. *)
Definition verify (allowedUsers : list string) (accessToken : string) (p : Profile) : option User :=
  let user := {| profile := p; token := accessToken |} in
  if (0 <? length allowedUsers)%nat then
    if negb (isAllowed allowedUsers p) then None else Some user
  else Some user.

(** The [opts] of [githubRequest]: the URL under the fixed base, the token
    in the [Authorization] header, the user agent and the accepted version. *)
Definition opts (token method path : string)
    (data params : gmap string Value) : Call :=
  let url := "https://api.github.com" ++ path in
  let headers : gmap string string :=
    {[ "Authorization" := "token " ++ token;
       "User-Agent" := or_string (APP_NAME env) "github-server";
       "Accept" := "application/vnd.github.v3+json" ]} in
  {| method := method; url := url; headers := headers;
     data := data; params := params |}.

(** A value in a template literal, [`${v}`]: a string as it is. *)
Definition text_of (v : Value) : Error + string :=
  match v with
  | Str s => inr s
  | _ => ToString v
  end.

(** [encodeURIComponent(v)] *)
Definition encoded (v : Value) : Error + string :=
  match text_of v with
  | inl e => inl e
  | inr s =>
      match encodeURIComponent s with
      | Some component => inr component
      | None => inl URIError
      end
  end.

(** [Buffer.from(v, "utf8").toString("base64")] *)
Definition base64_of (v : Value) : Error + string :=
  match v with
  | Str s => inr (to_base64 s)
  | _ => Buffer_from v
  end.

(** [githubRequest]: the token goes into the header through the template
    [`token ${token}`], then the call is made. *)
Definition githubRequest (token : Value) (method path : string)
    (data params : gmap string Value) : M Value :=
  let* token := attempt (text_of token) in
  request axios (opts token method path data params).

(** The routes that forward one [GET] with the caller's query:
    [try { res.json(await githubRequest(...)) } catch (err) { ... }]. *)
Definition forward (token : Value) (path : string) (query : gmap string Value) : M Res :=
  try_catch
    (let* data := githubRequest token "GET" path ∅ query in
     ret (Json 200 data []))
    (fun err => ret (relay err)).

Definition content_required : Res :=
  Json 400 (Obj {[ "error" := Str "content is required" ]}) [].

(** [`/repos/${owner}/${repo}/contents/${encodeURIComponent(path)}`] *)
Definition contents_url (owner repo : string) (path : Value) : Error + string :=
  match encoded path with
  | inl e => inl e
  | inr component => inr ("/repos/" ++ owner ++ "/" ++ repo ++ "/contents/" ++ component)
  end.

(** The best-effort lookup of the spec-update route:
    [try { existingSha = (await githubRequest(...)).sha } catch (e) {}],
    with [existingSha] starting as [null]. *)
Definition lookup_sha (token : Value) (owner repo : string) (path branch : Value) : M Value :=
  try_catch
    (let* url := attempt (contents_url owner repo path) in
     let* existing := githubRequest token "GET" url ∅ {[ "ref" := branch ]} in
     member "sha" existing)
    (fun e => ret Null).

(** [POST /api/repos/:owner/:repo/spec/update] *)
Definition spec_update (token : Value) (owner repo : string) (b : Body) : M Res :=
  try_catch
    (let path := with_default (Str "spec.yaml") (b_path b) in
     let content := b_content b in
     let message := with_default (Str "Update spec via API") (b_message b) in
     let branch := b_branch b in
     if negb (truthy content) then ret content_required
     else
       let* existingSha := lookup_sha token owner repo path branch in
       let* text := attempt (base64_of content) in
       let payload : gmap string Value :=
         {[ "message" := message; "content" := Str text ]} in
       let payload := set_if "branch" branch payload in
       let payload := set_if "sha" existingSha payload in
       let* url := attempt (contents_url owner repo path) in
       let* data := githubRequest token "PUT" url payload ∅ in
       ret (Json 200 data []))
    (fun err => ret (relay err)).

(** The write of [PUT /api/repos/:owner/:repo/contents/:path], given the
    [content] member of the payload as the variant computes it. *)
Definition put_payload (b : Body) (content : Value) : gmap string Value :=
  let message := with_default (Str "Update via API") (b_message b) in
  let payload : gmap string Value :=
    {[ "message" := message; "content" := content ]} in
  let payload := set_if "branch" (b_branch b) payload in
  let payload := set_if "sha" (b_sha b) payload in
  set_if "committer" (b_committer b) payload.

End Program.
End Common.

(** ** The cookie variant *)

Module Cookie.
Import JS Upstream Http Common.

(** A request. [cookies] is [req.cookies] as the [cookieParser()]
    middleware leaves it: the string of a cookie, or, for a cookie of the
    form [j:<JSON>] whose JSON text parses to a truthy value, that value. *)
Record Req := {
  cookies : gmap string Value;
  query : gmap string Value;
  req_body : Body;
}.

Section Program.

Variable env : Env.
Variable axios : Server.
Variable toLowerCase : string -> string.
(** [v < k] of the engine for a [v] that is neither a number nor
    [undefined]: its ToNumber coercion of [null], booleans, strings, arrays
    and objects. *)
Variable lt_coerced : Value -> Z -> bool.
Variable ToString : Value -> Error + string.
Variable Buffer_from : Value -> Error + string.

(** [const { ALLOWED_USERS = "" } = process.env] and the list parsed from it. *)
Definition allowedUsers : list string :=
  parse_allowed (default "" (ALLOWED_USERS env)).

(** [const token = req.cookies?.gh_token; if (!token) return 401;
    req.user = { token }; return next()] *)
Definition ensureAuthenticated (req : Req) : Res + Value :=
  let token := get "gh_token" (cookies req) in
  if negb (truthy token) then inl unauthorized else inr token.

(** [GET /auth/github/callback] *)
Definition callback (x : Exchange) : Res :=
  match x with
  | ExchangeError err => Next err
  | ToProvider authorize_url => Redirect authorize_url []
  | ExchangeDenied => Redirect "/unauthorized.html" []
  | Granted accessToken p =>
      match verify toLowerCase allowedUsers accessToken p with
      | None => Redirect "/unauthorized.html" []
      | Some user => Redirect "/" [token_cookie env (token user)]
      end
  end.

(** [POST /logout] *)
Definition logout (req : Req) : Res :=
  Json 200 (Obj {[ "message" := Str "Logged out" ]}) [ClearCookie "gh_token"].

(** [GET /api/me] *)
Definition me (token : Value) : M Res :=
  try_catch
    (let* me := githubRequest env axios ToString token "GET" "/user" ∅ ∅ in
     let* id := destructured "id" "me" me in
     let* login := destructured "login" "me" me in
     let* name := destructured "name" "me" me in
     let* avatar_url := destructured "avatar_url" "me" me in
     ret (Json 200
            (Obj {[ "id" := id; "username" := login; "displayName" := name;
                    "photos" := Arr [Obj {[ "value" := avatar_url ]}] ]}) []))
    (fun err => ret (relay err)).

(** [allRepos.concat(repos)]: the items of an array, or the value itself. *)
Definition concat (allRepos : list Value) (repos : Value) : list Value :=
  match repos with
  | Arr items => (allRepos ++ items)%list
  | v => (allRepos ++ [v])%list
  end.

(** [repos.length < per_page]; [None] when reading [length] throws. *)
Definition shorter_than (repos : Value) (per_page : Z) : option bool :=
  match repos with
  | Arr items => Some (Z.of_nat (length items) <? per_page)
  | Str s => Some (Z.of_nat (length16 s) <? per_page)
  | Obj o =>
      match get "length" o with
      | Undefined => Some false
      | Num n => Some (n <? per_page)
      | v => Some (lt_coerced v per_page)
      end
  | Bool _ | Num _ => Some false
  | Null | Undefined => None
  end.

Definition per_page : Z := 100.

(** The parameters of one page: [{ ...req.query, per_page, page }]. *)
Definition page_params (q : gmap string Value) (page : Z) : gmap string Value :=
  <[ "page" := Num page ]> (<[ "per_page" := Num per_page ]> q).

(** The [while (more)] loop of [GET /api/repos]; one unit of fuel per round. *)
Fixpoint repos_loop (fuel : nat) (token : Value) (q : gmap string Value)
    (allRepos : list Value) (page : Z) : M (list Value) :=
  match fuel with
  | O => pending
  | S fuel' =>
      let* repos := githubRequest env axios ToString token "GET" "/user/repos" ∅ (page_params q
          page) in
      let allRepos := concat allRepos repos in
      match shorter_than repos per_page with
      | None => throw (cannot_read "length" repos)
      | Some true => ret allRepos
      | Some false => repos_loop fuel' token q allRepos (page + 1)
      end
  end.

(** [GET /api/repos] *)
Definition repos (fuel : nat) (token : Value) (req : Req) : M Res :=
  try_catch
    (let* allRepos := repos_loop fuel token (query req) [] 1 in
     ret (Json 200 (Arr allRepos) []))
    (fun err => ret (relay err)).

(** [data.push = {...}] in non-strict code: a member of an object, nothing
    on other values, a [TypeError] on [null] and [undefined]. *)
Definition mark_pushed (data : Value) : M Value :=
  let note : Value :=
    Obj {[ "success" := Bool true;
           "message" := Str "Commit created and available on remote" ]} in
  match data with
  | Obj o => ret (Obj (<[ "push" := note ]> o))
  | Null | Undefined =>
      throw (TypeError ("Cannot set properties of " ++ type_name data ++ " (setting 'push')"))
  | v => ret v
  end.

(** [PUT /api/repos/:owner/:repo/contents/:path]: the content goes into the
    payload as it came ([content: content, // Already base64 from frontend]). *)
Definition put_contents (token : Value) (owner repo path : string) (req : Req) : M Res :=
  let b := req_body req in
  try_catch
    (let content := with_default (Str "") (b_content b) in
     let push := with_default (Bool false) (b_push b) in
     let payload := put_payload b content in
     let* data :=
       githubRequest env axios ToString token "PUT"
         ("/repos/" ++ owner ++ "/" ++ repo ++ "/contents/" ++ path) payload ∅ in
     let* data := if truthy push then mark_pushed data else ret data in
     ret (Json 200 data []))
    (fun err => ret (relay err)).

(** The handler registered after [ensureAuthenticated] for each route. *)
Definition handler (fuel : nat) (r : Route) (token : Value) (req : Req) : M Res :=
  match r with
  | Me => me token
  | Repos => repos fuel token req
  | Branches owner repo =>
      forward env axios ToString token ("/repos/" ++ owner ++ "/" ++ repo ++ "/branches") (query
          req)
  | ContentsRoot owner repo =>
      forward env axios ToString token ("/repos/" ++ owner ++ "/" ++ repo ++ "/contents") (query
          req)
  | Contents owner repo path =>
      forward env axios ToString token ("/repos/" ++ owner ++ "/" ++ repo ++ "/contents/" ++ path)
          (query req)
  | Commits owner repo =>
      forward env axios ToString token ("/repos/" ++ owner ++ "/" ++ repo ++ "/commits") (query req)
  | Tree owner repo sha =>
      forward env axios ToString token ("/repos/" ++ owner ++ "/" ++ repo ++ "/git/trees/" ++ sha)
          (query req)
  | SpecUpdate owner repo =>
      spec_update env axios ToString Buffer_from token owner repo (req_body req)
  | PutContents owner repo path => put_contents token owner repo path req
  end.

(** A protected route: [app.METHOD(path, ensureAuthenticated, handler)]. *)
Definition serve (fuel : nat) (r : Route) (req : Req) : M Res :=
  match ensureAuthenticated req with
  | inl res => ret res
  | inr token => handler fuel r token req
  end.

End Program.
End Cookie.

(** ** The session variant *)

Module Session.
Import JS Upstream Http Common.

(** What [serializeUser] keeps of the user in the session. *)
Record SafeUser := {
  s_id : Value;
  s_username : Value;
  s_displayName : Value;
  s_photos : Value;
  s_token : string;
}.

(** A session of the store; [passport_user] is [session.passport.user]. *)
Record Sess := { passport_user : option SafeUser }.

(** A request: [session_id] is the session id of a validly signed [gh.sid]
    cookie, if the request carries one. *)
Record Req := {
  session_id : option string;
  query : gmap string Value;
  req_body : Body;
}.

Definition text (s : option string) : Value :=
  match s with Some s => Str s | None => Undefined end.

(** [passport.serializeUser]: [username] is
    [user.username || user.login || user.displayName]. *)
Definition serializeUser (user : User) : SafeUser :=
  let p := profile user in
  {| s_id := id p;
     s_username := or_else (text (username p)) (or_else (text (login p)) (text (displayName p)));
     s_displayName := text (displayName p);
     s_photos := photos p;
     s_token := token user |}.

(** [req.user], as [passport.session()] sets it from the session the
    request names; [deserializeUser] hands the stored object back. *)
Definition req_user (store : gmap string Sess) (req : Req) : option SafeUser :=
  match session_id req with
  | Some sid => match store !! sid with
                | Some sess => passport_user sess
                | None => None
                end
  | None => None
  end.

(** [const { ALLOWED_USERS = ALLOWED_USERS || [] } = process.env]: the
    default reads the constant being declared, so loading the module throws
    a [ReferenceError] when the variable is not set ([None]). *)
Definition allowedUsers (env : Env) : option (list string) :=
  match ALLOWED_USERS env with
  | Some s => Some (parse_allowed s)
  | None => None
  end.

Section Program.

Variable env : Env.
Variable axios : Server.
Variable toLowerCase : string -> string.
Variable ToString : Value -> Error + string.
Variable Buffer_from : Value -> Error + string.
(** The allow-list the module holds once it has loaded. *)
Variable allowed : list string.

(** [req.isAuthenticated() && req.user && req.user.token] *)
Definition ensureAuthenticated (store : gmap string Sess) (req : Req) : Res + SafeUser :=
  match req_user store req with
  | Some user => if nonempty (s_token user) then inr user else inl unauthorized
  | None => inl unauthorized
  end.

(** [req.logIn(user, cb)]: the serialized user goes into the session of the
    request, whose id is [sid]. The program names no store, so sessions
    live in the default memory store, which reports no error to [cb]. *)
Definition logIn (sid : string) (user : User) (store : gmap string Sess) : gmap string Sess :=
  <[ sid := {| passport_user := Some (serializeUser user) |} ]> store.

(** [GET /auth/github/callback]; [sid] is the id of the request's session. *)
Definition callback (sid : string) (x : Exchange) (store : gmap string Sess) : Res * gmap string
    Sess :=
  match x with
  | ExchangeError err => (Next err, store)
  | ToProvider authorize_url => (Redirect authorize_url [], store)
  | ExchangeDenied => (Redirect "/unauthorized.html" [], store)
  | Granted accessToken p =>
      match verify toLowerCase allowed accessToken p with
      | None => (Redirect "/unauthorized.html" [], store)
      | Some user =>
          (Redirect "/" [token_cookie env (token user)], logIn sid user store)
      end
  end.

(** [GET /api/me]: answered from the session, without an upstream call. *)
Definition me (user : SafeUser) : M Res :=
  ret (Json 200
         (Obj {[ "id" := s_id user; "username" := s_username user;
                 "displayName" := s_displayName user; "photos" := s_photos user ]}) []).

(** [PUT /api/repos/:owner/:repo/contents/:path]: the content is encoded,
    [Buffer.from(content, 'utf8').toString('base64')]. *)
Definition put_contents (token : Value) (owner repo path : string) (req : Req) : M Res :=
  let b := req_body req in
  try_catch
    (let content := with_default (Str "") (b_content b) in
     let* text := attempt (base64_of Buffer_from content) in
     let payload := put_payload b (Str text) in
     let* data :=
       githubRequest env axios ToString token "PUT"
         ("/repos/" ++ owner ++ "/" ++ repo ++ "/contents/" ++ path) payload ∅ in
     ret (Json 200 data []))
    (fun err => ret (relay err)).

(** The handler registered after [ensureAuthenticated] for each route. *)
Definition handler (r : Route) (user : SafeUser) (req : Req) : M Res :=
  let token := Str (s_token user) in
  match r with
  | Me => me user
  | Repos => forward env axios ToString token "/user/repos" (query req)
  | Branches owner repo =>
      forward env axios ToString token ("/repos/" ++ owner ++ "/" ++ repo ++ "/branches") (query
          req)
  | ContentsRoot owner repo =>
      forward env axios ToString token ("/repos/" ++ owner ++ "/" ++ repo ++ "/contents") (query
          req)
  | Contents owner repo path =>
      forward env axios ToString token ("/repos/" ++ owner ++ "/" ++ repo ++ "/contents/" ++ path)
          (query req)
  | Commits owner repo =>
      forward env axios ToString token ("/repos/" ++ owner ++ "/" ++ repo ++ "/commits") (query req)
  | Tree owner repo sha =>
      forward env axios ToString token ("/repos/" ++ owner ++ "/" ++ repo ++ "/git/trees/" ++ sha)
          (query req)
  | SpecUpdate owner repo =>
      spec_update env axios ToString Buffer_from token owner repo (req_body req)
  | PutContents owner repo path => put_contents token owner repo path req
  end.

(** A protected route: [app.METHOD(path, ensureAuthenticated, handler)]. *)
Definition serve (store : gmap string Sess) (r : Route) (req : Req) : M Res :=
  match ensureAuthenticated store req with
  | inl res => ret res
  | inr user => handler r user req
  end.

End Program.
End Session.

(** ** Runs of a route: the vocabulary of the properties below *)

Module Run.
Import JS Upstream Http Common.

(** The calls of [n] successive pages from page [first] on. *)
Definition page_calls (env : Env) (token : string) (q : gmap string Value) (first : Z) (n : nat) :
    list Call :=
  map (fun k => opts env token "GET" "/user/repos" ∅
                  (Cookie.page_params q (first + Z.of_nat k)))
      (seq 0 n).

(** A page is full when the loop goes on after it. *)
Definition full (page : list Value) : Prop := (100 <= length page)%nat.
Definition short (page : list Value) : Prop := (length page < 100)%nat.

(** The run that took the log from [log] to [log'] ended with a call that
    upstream rejected with [e]. *)
Definition last_rejected (axios : Server) (log log' : list Call)
    (e : Error) : Prop :=
  exists before c,
    log' = (before ++ [c])%list /\ (length log <= length before)%nat
    /\ axios before c = Rejected e.

(** A computation is faithful when it only adds calls to the log and throws
    the error of its last call whenever that call was rejected. *)
Definition faithful {A} (axios : Server) (m : M A) : Prop :=
  forall log,
    (exists new, snd (m log) = (log ++ new)%list)
    /\ (forall e, last_rejected axios log (snd (m log)) e -> fst (m log) = Throw e).

(** A route relays when it answers with [relay e] in that case. *)
Definition relays (axios : Server) (m : M Res) : Prop :=
  forall log,
    (exists new, snd (m log) = (log ++ new)%list)
    /\ (forall e, last_rejected axios log (snd (m log)) e ->
          fst (m log) = Return (relay e)).

(** A computation stops at a rejection when no call follows a rejected one. *)
Definition stops {A} (axios : Server) (m : M A) : Prop :=
  forall log before c after e,
    snd (m log) = (before ++ c :: after)%list ->
    (length log <= length before)%nat ->
    axios before c = Rejected e ->
    after = [].

(** The payload of the spec-update write before the sha is considered;
    [text] is the encoded content. *)
Definition spec_payload (b : Body) (text : string) : gmap string Value :=
  set_if "branch" (b_branch b)
    {[ "message" := with_default (Str "Update spec via API") (b_message b);
       "content" := Str text ]}.

(** The path both calls of the spec-update route go to, when the [path] of
    the body can be encoded. *)
Definition spec_url (ToString : Value -> Error + string) (owner repo : string)
    (b : Body) : Error + string :=
  contents_url ToString owner repo (with_default (Str "spec.yaml") (b_path b)).

(** The call that ends a request of route [r] with body [b]: on the
    spec-update route the write, or any call when the content is text,
    since the write then follows the lookup; on the other routes any call. *)
Definition ends (r : Route) (b : Body) (c : Call) : Prop :=
  match r with
  | SpecUpdate _ _ => method c = "PUT" \/ exists content, b_content b = Str content
  | _ => True
  end.

End Run.

(** ** Scenarios used below *)

Module Scenario.
Import JS Upstream Http Common.

(** The environment of the README. *)
Definition env : Env :=
  {| APP_NAME := Some "MyGithubApp"; NODE_ENV := Some "development";
     ALLOWED_USERS := Some "alice,bob,carol" |}.

(** A request of the cookie variant that presents the token [gho_abc]. *)
Definition with_cookie (b : Body) : Cookie.Req :=
  {| Cookie.cookies := {[ "gh_token" := Str "gho_abc" ]}; Cookie.query := ∅;
     Cookie.req_body := b |}.

Definition no_cookie (b : Body) : Cookie.Req :=
  {| Cookie.cookies := ∅; Cookie.query := ∅; Cookie.req_body := b |}.

(** A store of the session variant in which session [sid-1] is logged in. *)
Definition safe_user : Session.SafeUser :=
  {| Session.s_id := Num 7; Session.s_username := Str "alice";
     Session.s_displayName := Str "Alice A."; Session.s_photos := Undefined;
     Session.s_token := "gho_abc" |}.

Definition store : gmap string Session.Sess :=
  {[ "sid-1" := {| Session.passport_user := Some safe_user |} ]}.

Definition with_session (b : Body) : Session.Req :=
  {| Session.session_id := Some "sid-1"; Session.query := ∅;
     Session.req_body := b |}.

Definition no_session (b : Body) : Session.Req :=
  {| Session.session_id := None; Session.query := ∅; Session.req_body := b |}.

(** The coerced comparison is not reached on the pages served here. *)
Definition lt_coerced : Value -> Z -> bool := fun _ _ => false.

(** [ToString] on the values met here: [undefined], [null], booleans, the
    integers that print in plain decimal digits, and the arrays of those and
    of strings, whose items are joined with commas, [null] and [undefined]
    giving nothing. An object without a [toString] member of its own prints
    as [[object Object]]; one with such a member, which a parsed value
    cannot call, has no primitive value. *)
Fixpoint ToString (v : Value) : Error + string :=
  match v with
  | Undefined => inr "undefined"
  | Null => inr "null"
  | Bool b => inr (if b then "true" else "false")
  | Num n => inr (pretty n)
  | Str s => inr s
  | Arr items =>
      (fix join (l : list Value) : Error + string :=
         match l with
         | [] => inr ""
         | x :: rest =>
             let item :=
               match x with
               | Undefined | Null => inr ""
               | _ => ToString x
               end in
             match item, rest with
             | inl e, _ => inl e
             | inr s, [] => inr s
             | inr s, _ =>
                 match join rest with
                 | inl e => inl e
                 | inr t => inr (s ++ "," ++ t)
                 end
             end
         end) items
  | Obj o =>
      match o !! "toString" with
      | Some _ => inl (TypeError "Cannot convert object to primitive value")
      | None => inr "[object Object]"
      end
  end.

(** What [Buffer.from] reports about a value it does not take. *)
Definition received (v : Value) : string :=
  match v with
  | Undefined => " Received undefined"
  | Null => " Received null"
  | Bool b => " Received type boolean (" ++ (if b then "true" else "false") ++ ")"
  | Num n => " Received type number (" ++ pretty n ++ ")"
  | _ => " Received an instance of Object"
  end.

(** [Buffer.from] on the values that are not strings met here: numbers,
    booleans, [null] and [undefined], which it refuses with a [TypeError].
    Arrays and array-like objects, which the platform reads as bytes, are
    not met as content in the scenarios, and this stand-in is not to be read
    on them. *)
Definition Buffer_from (v : Value) : Error + string :=
  inl (TypeError
         ("The first argument must be of type string or an instance of Buffer, "
          ++ "ArrayBuffer, or Array or an Array-like Object." ++ received v)).

(** [n] items numbered from [from]. *)
Definition numbered (from n : nat) : list Value :=
  map (fun i => Num (Z.of_nat i)) (seq from n).

(** An upstream that serves the given pages by the [page] parameter, and
    the first of them when no page is asked for. *)
Definition paged (pages : list (list Value)) : Server :=
  fun log c =>
    match get "page" (params c) with
    | Num n => Resolved (Arr (nth (Z.to_nat (n - 1)) pages []))
    | _ => Resolved (Arr (nth 0 pages []))
    end.

(** Pages of sizes 100, 100 and 37. *)
Definition three_pages : list (list Value) :=
  [numbered 0 100; numbered 100 100; numbered 200 37].

(** An upstream that answers every call with the same reply. *)
Definition always (r : Reply) : Server := fun _ _ => r.

(** An upstream that has no file yet: [GET] is answered 404, any other
    method succeeds with [created]. *)
Definition created : Value := Obj {[ "commit" := Obj {[ "sha" := Str "c0ffee" ]} ]}.

Definition not_found : Error :=
  {| response := Some {| status := 404; body := Obj {[ "message" := Str "Not Found" ]} |};
     message := "Request failed with status code 404" |}.

Definition missing_file : Server :=
  fun _ c => if String.eqb (method c) "GET" then Rejected not_found else Resolved created.

(** An upstream that has the file, with blob sha [abc123]. *)
Definition existing_file : Server :=
  fun _ c =>
    if String.eqb (method c) "GET"
    then Resolved (Obj {[ "sha" := Str "abc123"; "name" := Str "spec.yaml" ]})
    else Resolved created.

(** The spec's example of an upstream error: 422 with
    [{message: "validation failed"}]. *)
Definition unprocessable : Error :=
  {| response := Some {| status := 422;
                         body := Obj {[ "message" := Str "validation failed" ]} |};
     message := "Request failed with status code 422" |}.

(** A 404 whose body is empty. *)
Definition bare_404 : Error :=
  {| response := Some {| status := 404; body := Str "" |};
     message := "Request failed with status code 404" |}.

(** The provider's answer to [GET /user]. *)
Definition octocat : Value :=
  Obj {[ "id" := Num 583231; "login" := Str "octocat"; "name" := Str "The Octocat";
         "avatar_url" := Str "https://avatars.example/u/583231" ]}.

(** An identity that is not on the allow-list of [env]. *)
Definition mallory : Profile :=
  {| id := Num 13; username := Some "Mallory"; login := None;
     displayName := None; photos := Undefined |}.

(** A write request with content [hello] and nothing else. *)
Definition hello : Body :=
  {| b_path := Undefined; b_content := Str "hello"; b_message := Undefined;
     b_branch := Undefined; b_sha := Undefined; b_committer := Undefined;
     b_push := Undefined |}.

(** The spec's example of the gate: the list [ALICE, bob] and the identity [alice]. *)
Definition env_alice : Env :=
  {| APP_NAME := None; NODE_ENV := None; ALLOWED_USERS := Some "ALICE, bob" |}.

Definition alice : Profile :=
  {| id := Num 7; username := Some "alice"; login := None;
     displayName := Some "Alice A."; photos := Undefined |}.

End Scenario.

(** ** More vocabulary *)

Module Calls.
Import JS Upstream Http Common.

(** A computation adds only calls that satisfy [P] to the log. *)
Definition adds {A} (P : Call -> Prop) (m : M A) : Prop :=
  forall log, exists new, snd (m log) = (log ++ new)%list /\ Forall P new.

(** The routes registered with [app.get]. *)
Definition read_route (r : Route) : bool :=
  match r with
  | SpecUpdate _ _ | PutContents _ _ _ => false
  | _ => true
  end.

(** The routes whose handler is one [githubRequest] with [req.query] in
    both files. *)
Definition forwarding (r : Route) : bool :=
  match r with
  | Branches _ _ | ContentsRoot _ _ | Contents _ _ _ | Commits _ _ | Tree _ _ _ => true
  | _ => false
  end.

(** A configured value whose pieces between commas are all white space. *)
Definition blank (ALLOWED_USERS : string) : bool :=
  forallb (fun piece => negb (nonempty (trim piece))) (split_comma ALLOWED_USERS).

Fixpoint all_chars (p : ascii -> bool) (s : string) : bool :=
  match s with
  | EmptyString => true
  | String c rest => p c && all_chars p rest
  end.

(** The characters a URI component is made of once encoded: the unreserved
    ones and the percent sign (the hexadecimal digits are unreserved). *)
Definition url_safe (c : ascii) : bool :=
  unreserved (code c) || Ascii.eqb c "%".

(** [d.k] on a reply [d] that is neither [null] nor [undefined]: the member
    of an object, [undefined] on anything else. *)
Definition field (k : string) (d : Value) : Value :=
  match d with
  | Obj o => get k o
  | _ => Undefined
  end.

(** A computation settles on [Q] when it is never left waiting and what
    it returns satisfies [Q]. *)
Definition settles {A} (Q : A -> Prop) (m : M A) : Prop :=
  forall log,
    match fst (m log) with
    | Return a => Q a
    | Throw _ => True
    | Pending => False
    end.

(** A computation adds at most [n] calls to the log. *)
Definition at_most {A} (n : nat) (m : M A) : Prop :=
  forall log, exists new, snd (m log) = (log ++ new)%list /\ (length new <= n)%nat.

(** A JSON answer that touches no cookie. *)
Definition is_json (r : Res) : Prop := exists status body, r = Json status body [].

Definition is_json_answer (o : Outcome Res) : Prop :=
  exists status body, o = Return (Json status body []).

(** The note [PUT .../contents/:path] of the cookie variant adds under
    [push] when the body asks for it. *)
Definition push_note : Value :=
  Obj {[ "success" := Bool true;
         "message" := Str "Commit created and available on remote" ]}.

End Calls.

(** ** More scenarios *)

Module Cases.
Import JS Upstream Http Common.

(** An environment whose allow-list is commas and white space. *)
Definition env_blank : Env :=
  {| APP_NAME := None; NODE_ENV := Some "production"; ALLOWED_USERS := Some " , ," |}.

(** An upstream that answers every call with the same 100 items. *)
Definition endless : Server :=
  Scenario.always (Resolved (Arr (Scenario.numbered 0 100))).

(** A write request that asks for the push note. *)
Definition pushed : Body :=
  {| b_path := Undefined; b_content := Str "hello"; b_message := Undefined;
     b_branch := Undefined; b_sha := Undefined; b_committer := Undefined;
     b_push := Bool true |}.

(** A spec-update request for a path with a slash and a space. *)
Definition nested : Body :=
  {| b_path := Str "docs/spec v1.yaml"; b_content := Str "hello";
     b_message := Undefined; b_branch := Str "main"; b_sha := Str "ignored";
     b_committer := Undefined; b_push := Undefined |}.

(** A request whose cookie header is [gh_token=j:[1]]: the parser decodes
    the JSON text after [j:], and [req.cookies.gh_token] is the array [[1]]. *)
Definition json_cookie : Cookie.Req :=
  {| Cookie.cookies := {[ "gh_token" := Arr [Num 1] ]}; Cookie.query := ∅;
     Cookie.req_body := empty_body |}.

(** A spec-update request whose content is the number 123. *)
Definition numeric : Body :=
  {| b_path := Undefined; b_content := Num 123; b_message := Undefined;
     b_branch := Undefined; b_sha := Undefined; b_committer := Undefined;
     b_push := Undefined |}.

(** A request of the cookie variant with a query of its own. *)
Definition with_query : Cookie.Req :=
  {| Cookie.cookies := {[ "gh_token" := Str "gho_abc" ]};
     Cookie.query := {[ "sort" := Str "updated"; "per_page" := Str "5" ]};
     Cookie.req_body := empty_body |}.

(** An upstream that serves one full page and answers 404 to any other. *)
Definition fails_after_first : Server :=
  fun _ c =>
    match get "page" (params c) with
    | Num 1 => Resolved (Arr (Scenario.numbered 0 100))
    | _ => Rejected Scenario.not_found
    end.

End Cases.

(** * Properties *)

(** ** Small cases *)

Example split_comma_ex : JS.split_comma "alice, Bob ,,carol" = ["alice"; " Bob "; ""; "carol"].
Proof. reflexivity. Qed.

Example trim_ex : JS.trim "  Bob	 " = "Bob".
Proof. reflexivity. Qed.

Example trim_inner_space : JS.trim " octo cat " = "octo cat".
Proof. reflexivity. Qed.

(** A no-break space (bytes 194, 160) is trimmed as well. *)
Example trim_nbsp :
  JS.trim (JS.of_bytes [194; 160; 98; 111; 98; 194; 160]) = "bob".
Proof. reflexivity. Qed.

Example to_base64_padding : JS.to_base64 "a" = "YQ==" /\ JS.to_base64 "hi" = "aGk=".
Proof. split; reflexivity. Qed.

Example length16_ex : JS.length16 "abc" = 3%nat.
Proof. reflexivity. Qed.

Example to_base64_ex : JS.to_base64 "hello" = "aGVsbG8=".
Proof. reflexivity. Qed.

Example encodeURIComponent_ex :
  JS.encodeURIComponent "docs/spec v1.yaml" = Some "docs%2Fspec%20v1.yaml".
Proof. reflexivity. Qed.

(** The string [a\ud800b], whose middle character is an unpaired
    surrogate: it cannot be encoded as a URI component, and goes into a
    buffer as [a], U+FFFD, [b]. *)
Example unpaired_surrogate :
  JS.encodeURIComponent (JS.of_bytes [97; 237; 160; 128; 98]) = None
  /\ JS.utf8 [97; 237; 160; 128; 98] = [97; 239; 191; 189; 98]
  /\ JS.to_base64 (JS.of_bytes [97; 237; 160; 128; 98]) = "Ye+/vWI=".
Proof. repeat split. Qed.

(** A character next to the surrogates, U+D7FF (237, 159, 191), is an
    ordinary one. *)
Example below_surrogates :
  JS.encodeURIComponent (JS.of_bytes [237; 159; 191]) = Some "%ED%9F%BF"
  /\ JS.utf8 [237; 159; 191] = [237; 159; 191].
Proof. repeat split. Qed.

(** [ToString] as the scenarios have it. *)
Example ToString_ex :
  Scenario.ToString (JS.Arr [JS.Num 1; JS.Null; JS.Str "a"; JS.Arr [JS.Bool true]])
  = inr "1,,a,true"
  /\ Scenario.ToString (JS.Arr []) = inr ""
  /\ Scenario.ToString (JS.Obj ∅) = inr "[object Object]".
Proof. repeat split. Qed.

Example parse_allowed_ex : Common.parse_allowed "alice, Bob ,,carol" = ["alice"; "Bob"; "carol"].
Proof. reflexivity. Qed.

(** The login name is the first of username, login and display name that
    is present and not empty, else the empty string. *)
Example login_name_fallback :
  Http.login_name {| Http.id := JS.Num 1; Http.username := None; Http.login := Some "octocat";
                     Http.displayName := Some "The Octocat"; Http.photos := JS.Undefined |}
  = "octocat"
  /\ Http.login_name {| Http.id := JS.Num 1; Http.username := None; Http.login := None;
                        Http.displayName := Some "The Octocat"; Http.photos := JS.Undefined |}
     = "The Octocat"
  /\ Http.login_name {| Http.id := JS.Num 1; Http.username := None; Http.login := None;
                        Http.displayName := None; Http.photos := JS.Undefined |}
     = "".
Proof. repeat split. Qed.

(** ** The allow-list gate *)

Section AllowList.
Import JS Upstream Http Common.

Variable toLowerCase : string -> string.

Lemma nonempty_true (s : string) : nonempty s = true <-> s <> "".
Proof.
  unfold nonempty. rewrite negb_true_iff. split.
  - intros H ->. discriminate.
  - intros H. destruct s; [contradiction | reflexivity].
Qed.

Lemma nonempty_false (s : string) : nonempty s = false <-> s = "".
Proof.
  unfold nonempty. rewrite negb_false_iff. apply String.eqb_eq.
Qed.

Lemma isAllowed_true (L : list string) (U : Profile) :
  isAllowed toLowerCase L U = true <->
  exists u, u ∈ L /\ toLowerCase u = toLowerCase (login_name U).
Proof.
  unfold isAllowed. rewrite existsb_exists. split.
  - intros (u & Hin & Heq). exists u. split.
    + by apply list_elem_of_In.
    + by apply String.eqb_eq.
  - intros (u & Hin & Heq). exists u. split.
    + by apply list_elem_of_In.
    + by apply String.eqb_eq.
Qed.

Lemma verify_cases (L : list string) (tok : string) (U : Profile) :
  verify toLowerCase L tok U =
  if bool_decide (L = []) || isAllowed toLowerCase L U
  then Some {| profile := U; token := tok |} else None.
Proof.
  unfold verify. destruct L as [|u L]; [reflexivity|].
  cbn [length]. replace (0 <? S (length L))%nat with true by reflexivity.
  rewrite bool_decide_eq_false_2 by discriminate.
  cbn [orb]. by destruct (isAllowed toLowerCase (u :: L) U).
Qed.

Lemma verify_passes (L : list string) (tok : string) (U : Profile) :
  verify toLowerCase L tok U = Some {| profile := U; token := tok |} <->
  L = [] \/ exists u, u ∈ L /\ toLowerCase u = toLowerCase (login_name U).
Proof.
  rewrite verify_cases, <- isAllowed_true.
  destruct (bool_decide_reflect (L = [])) as [-> | Hne]; cbn [orb].
  - split; [by left | done].
  - destruct (isAllowed toLowerCase L U); split; try done; try (by right).
    intros [? | ?]; done.
Qed.

Lemma verify_fails (L : list string) (tok : string) (U : Profile) :
  verify toLowerCase L tok U = None <->
  ~ (L = [] \/ exists u, u ∈ L /\ toLowerCase u = toLowerCase (login_name U)).
Proof.
  rewrite <- (verify_passes L tok U), verify_cases.
  destruct (_ || _); split; try done; intros H; by destruct H.
Qed.

Lemma parse_allowed_member (s u : string) :
  u ∈ parse_allowed s <->
  u <> "" /\ exists piece, piece ∈ split_comma s /\ u = trim piece.
Proof.
  unfold parse_allowed.
  rewrite list_elem_of_In, filter_In, <- list_elem_of_In, list_elem_of_fmap.
  rewrite nonempty_true. split.
  - intros [(piece & -> & Hin) Hne]. split; [done|]. by exists piece.
  - intros [Hne (piece & Hin & ->)]. split; [|done]. by exists piece.
Qed.

End AllowList.

Section Gate.
Import JS Upstream Http Common.

Variable env : Env.
Variable toLowerCase : string -> string.




End Gate.


(** ** The auth middleware *)

Section Guard.
Import JS Upstream Http Common.

Variable env : Env.
Variable axios : Server.
Variable lt_coerced : Value -> Z -> bool.
Variable ToString : Value -> Error + string.
Variable Buffer_from : Value -> Error + string.

Lemma truthy_text (s : string) : truthy (Str s) = true <-> s <> "".
Proof. apply nonempty_true. Qed.

Lemma cookie_guard_admits (req : Cookie.Req) (v : Value) :
  Cookie.ensureAuthenticated req = inr v <->
  Cookie.cookies req !! "gh_token" = Some v /\ truthy v = true.
Proof.
  unfold Cookie.ensureAuthenticated, get.
  destruct (Cookie.cookies req !! "gh_token") as [v'|]; cbn.
  - destruct (truthy v') eqn:Ht; cbn.
    + split; [by intros [= ->] | by intros [[= ->] _]].
    + split; [done | intros [[= ->] H]; congruence].
  - split; [done | by intros [? _]].
Qed.

Lemma cookie_guard_rejects (req : Cookie.Req) :
  truthy (get "gh_token" (Cookie.cookies req)) = false ->
  Cookie.ensureAuthenticated req = inl unauthorized.
Proof. unfold Cookie.ensureAuthenticated. by intros ->. Qed.

Lemma session_guard_rejects (store : gmap string Session.Sess) (req : Session.Req) :
  (forall user, Session.req_user store req = Some user -> Session.s_token user = "") ->
  Session.ensureAuthenticated store req = inl unauthorized.
Proof.
  unfold Session.ensureAuthenticated. intros H.
  destruct (Session.req_user store req) as [user|]; [|done].
  by rewrite (H user eq_refl).
Qed.

(** C2. On every protected route, a request without a credential (no
    [gh_token] cookie, or an empty one, or any falsy value under that name,
    in the cookie variant; no session user with a token in the session
    variant) gets status 401 with the body
    [{error: "Unauthorized. Please log in via /auth/github"}], and the log of
    upstream calls is left as it was. *)
Theorem unauthorized_without_credential :
  (forall fuel (r : Route) (req : Cookie.Req) (log : list Call),
     truthy (get "gh_token" (Cookie.cookies req)) = false ->
     Cookie.serve env axios lt_coerced ToString Buffer_from fuel r req log
     = (Return (Json 401 (Obj {[ "error" := Str "Unauthorized. Please log in via /auth/github" ]})
         []),
        log))
  /\ (forall (store : gmap string Session.Sess) (r : Route) (req : Session.Req) (log : list Call),
        (forall user, Session.req_user store req = Some user -> Session.s_token user = "") ->
        Session.serve env axios ToString Buffer_from store r req log
        = (Return (Json 401 (Obj {[ "error" := Str "Unauthorized. Please log in via /auth/github"
            ]}) []),
           log)).
Proof.
  split.
  - intros fuel r req log H. unfold Cookie.serve.
    by rewrite (cookie_guard_rejects req H).
  - intros store r req log H. unfold Session.serve.
    by rewrite (session_guard_rejects store req H).
Qed.

Lemma cookie_serve_value (req : Cookie.Req) (v : Value) (fuel : nat) (r : Route) :
  Cookie.cookies req !! "gh_token" = Some v -> truthy v = true ->
  Cookie.serve env axios lt_coerced ToString Buffer_from fuel r req
  = Cookie.handler env axios lt_coerced ToString Buffer_from fuel r v req.
Proof.
  intros Hc Hv. unfold Cookie.serve.
  by rewrite (proj2 (cookie_guard_admits req v) (conj Hc Hv)).
Qed.

Lemma cookie_serve_admitted (req : Cookie.Req) (t : string) (fuel : nat) (r : Route) :
  Cookie.cookies req !! "gh_token" = Some (Str t) -> t <> "" ->
  Cookie.serve env axios lt_coerced ToString Buffer_from fuel r req
  = Cookie.handler env axios lt_coerced ToString Buffer_from fuel r (Str t) req.
Proof.
  intros Hc Hne. apply cookie_serve_value; [done | by apply truthy_text].
Qed.

(** C10, as the code has it. In the cookie variant the middleware admits a
    request exactly when [req.cookies.gh_token] is truthy: for a cookie the
    parser left as a string, when it is not empty; for a value the parser
    decoded from [j:<JSON>], when that value is truthy (the parser keeps no
    other). The value is compared with nothing, no upstream
    call and no server-side record is consulted, and the route handler runs
    with that very value as its token: the string of the cookie when the
    parser left it one, the decoded value otherwise. Upstream the token is
    the text of that value: a string goes into the header as it is. *)
Theorem cookie_token_taken_as_is (req : Cookie.Req) (v : Value) :
  (Cookie.ensureAuthenticated req = inr v
   <-> Cookie.cookies req !! "gh_token" = Some v /\ truthy v = true)
  /\ (forall t, truthy (Str t) = true <-> t <> "")
  /\ (Cookie.cookies req !! "gh_token" = Some v -> truthy v = true ->
      forall fuel (r : Route),
        Cookie.serve env axios lt_coerced ToString Buffer_from fuel r req
        = Cookie.handler env axios lt_coerced ToString Buffer_from fuel r v req)
  /\ (forall t method path data params,
        githubRequest env axios ToString (Str t) method path data params
        = request axios (opts env t method path data params)).
Proof.
  split; [apply cookie_guard_admits|].
  split; [apply truthy_text|]. split.
  - intros Hc Hv fuel r. by apply cookie_serve_value.
  - reflexivity.
Qed.

End Guard.

(** ** The monad of upstream calls *)

Section Calls.
Import JS Upstream Http Common.

Variable env : Env.
Variable axios : Server.

Lemma request_resolved (c : Call) (log : list Call) (d : Value) :
  axios log c = Resolved d ->
  request axios c log = (Return d, (log ++ [c])%list).
Proof. unfold request. by intros ->. Qed.

Lemma request_rejected (c : Call) (log : list Call) (e : Error) :
  axios log c = Rejected e ->
  request axios c log = (Throw e, (log ++ [c])%list).
Proof. unfold request. by intros ->. Qed.

Lemma request_log (c : Call) (log : list Call) :
  snd (request axios c log) = (log ++ [c])%list.
Proof. unfold request. by destruct (axios log c). Qed.

Lemma calls_made_app {A} (m : M A) (log new : list Call) :
  snd (m log) = (log ++ new)%list -> calls_made m log = new.
Proof. unfold calls_made. intros ->. by rewrite drop_app_length. Qed.

End Calls.

(** ** Listing repositories *)

Section Pagination.
Import JS Upstream Http Common Run.

Variable env : Env.
Variable axios : Server.
Variable lt_coerced : Value -> Z -> bool.
Variable ToString : Value -> Error + string.
Variable Buffer_from : Value -> Error + string.

Lemma page_calls_S (token : string) (q : gmap string Value) (first : Z) (n : nat) :
  page_calls env token q first (S n)
  = opts env token "GET" "/user/repos" ∅ (Cookie.page_params q first)
    :: page_calls env token q (first + 1) n.
Proof.
  unfold page_calls. cbn [seq map]. rewrite Z.add_0_r. f_equal.
  rewrite <- seq_shift, map_map. apply map_ext. intros k.
  do 2 f_equal. lia.
Qed.

Lemma shorter_than_full (page : list Value) :
  full page -> Cookie.shorter_than lt_coerced (Arr page) Cookie.per_page = Some false.
Proof.
  unfold full, Cookie.shorter_than, Cookie.per_page. intros H. f_equal.
  apply Z.ltb_ge. lia.
Qed.

Lemma shorter_than_short (page : list Value) :
  short page -> Cookie.shorter_than lt_coerced (Arr page) Cookie.per_page = Some true.
Proof.
  unfold short, Cookie.shorter_than, Cookie.per_page. intros H. f_equal.
  apply Z.ltb_lt. lia.
Qed.

(** The loop on an upstream that serves the full pages [pages] and then the
    short page [last]: it asks for each of them once, in order, and returns
    what it had, followed by their items. *)
Lemma repos_loop_pages (token : string) (q : gmap string Value) (last : list Value) :
  short last ->
  forall (pages : list (list Value)) (fuel : nat) (acc : list Value) (page : Z)
         (log : list Call),
    Forall full pages ->
    (forall k p, (pages ++ [last])%list !! k = Some p ->
       axios (log ++ page_calls env token q page k)%list
             (opts env token "GET" "/user/repos" ∅
                (Cookie.page_params q (page + Z.of_nat k)))
       = Resolved (Arr p)) ->
    (length pages < fuel)%nat ->
    Cookie.repos_loop env axios lt_coerced ToString fuel (Str token) q acc page log
    = (Return (acc ++ List.concat pages ++ last)%list,
       (log ++ page_calls env token q page (S (length pages)))%list).
Proof.
  intros Hlast pages.
  induction pages as [|p pages IH]; intros fuel acc page log Hfull Hax Hfuel.
  - destruct fuel as [|fuel]; [cbn in Hfuel; lia|].
    cbn [Cookie.repos_loop]. unfold githubRequest, text_of, attempt, bind, ret.
    pose proof (Hax 0%nat last eq_refl) as H0. cbn in H0.
    rewrite app_nil_r, Z.add_0_r in H0.
    rewrite (request_resolved _ _ _ _ H0).
    rewrite (shorter_than_short _ Hlast), page_calls_S. reflexivity.
  - destruct fuel as [|fuel]; [cbn in Hfuel; lia|].
    cbn [Cookie.repos_loop]. unfold githubRequest, text_of, attempt, bind, ret.
    pose proof (Hax 0%nat p eq_refl) as H0. cbn in H0.
    rewrite app_nil_r, Z.add_0_r in H0.
    rewrite (request_resolved _ _ _ _ H0).
    inversion Hfull as [|? ? Hp Hrest]; subst.
    rewrite (shorter_than_full _ Hp).
    rewrite (IH fuel _ (page + 1) _ Hrest).
    + cbn [Cookie.concat List.concat length].
      rewrite (page_calls_S token q page (S (length pages))).
      f_equal; by rewrite <- !app_assoc.
    + intros k p' Hk. specialize (Hax (S k) p' Hk).
      rewrite page_calls_S in Hax. rewrite <- app_assoc. cbn [app].
      replace (page + 1 + Z.of_nat k) with (page + Z.of_nat (S k)) by lia.
      exact Hax.
    + cbn in Hfuel. lia.
Qed.

(** On an upstream that serves a full page whatever the page asked for, the
    loop never ends: it is still waiting after any number of rounds. *)
Lemma repos_loop_unbounded (token : string) (q : gmap string Value) (items : list Value) :
  full items ->
  (forall log c, axios log c = Resolved (Arr items)) ->
  forall (fuel : nat) (acc : list Value) (page : Z) (log : list Call),
    fst (Cookie.repos_loop env axios lt_coerced ToString fuel (Str token) q acc page log) = Pending.
Proof.
  intros Hfull Hax fuel.
  induction fuel as [|fuel IH]; intros acc page log; [reflexivity|].
  cbn [Cookie.repos_loop]. unfold githubRequest, text_of, attempt, bind, ret.
  rewrite (request_resolved _ _ _ _ (Hax log _)).
  rewrite (shorter_than_full _ Hfull). apply IH.
Qed.

End Pagination.

Section ListRepos.
Import JS Upstream Http Common Run.

(** C3, as the code has it. In the cookie variant the list-repositories
    route asks upstream for page 1, 2, ... with [per_page] 100, one call
    after the other, stops after the first page with fewer than 100 items,
    and answers 200 with the items of all pages in the order received: on
    full pages [pages] followed by a short page it makes one call per page.
    In the session variant the route makes a single call with the query of
    the request as it came and answers with that one reply. *)
Theorem repos_pages_aggregated :
  (forall env axios lt_coerced ToString Buffer_from fuel (req : Cookie.Req)
          (log : list Call) (tok : string)
          (pages : list (list Value)) (last : list Value),
     Cookie.cookies req !! "gh_token" = Some (Str tok) -> tok <> "" ->
     Forall full pages -> short last ->
     (forall k p, (pages ++ [last])%list !! k = Some p ->
        axios (log ++ page_calls env tok (Cookie.query req) 1 k)%list
              (opts env tok "GET" "/user/repos" ∅
                 (<[ "page" := Num (1 + Z.of_nat k) ]>
                    (<[ "per_page" := Num 100 ]> (Cookie.query req))))
        = Resolved (Arr p)) ->
     (length pages < fuel)%nat ->
     Cookie.serve env axios lt_coerced ToString Buffer_from fuel Repos req log
     = (Return (Json 200 (Arr (List.concat pages ++ last)) []),
        (log ++ page_calls env tok (Cookie.query req) 1 (S (length pages)))%list))
  /\ (forall env axios ToString Buffer_from (store : gmap string Session.Sess)
             (req : Session.Req) (log : list Call) (user : Session.SafeUser) (d : Value),
        Session.req_user store req = Some user -> Session.s_token user <> "" ->
        axios log (opts env (Session.s_token user) "GET" "/user/repos" ∅ (Session.query req))
        = Resolved d ->
        Session.serve env axios ToString Buffer_from store Repos req log
        = (Return (Json 200 d []),
           (log ++ [opts env (Session.s_token user) "GET" "/user/repos" ∅ (Session.query
               req)])%list)).
Proof.
  split.
  - intros env axios lt_coerced ToString Buffer_from fuel req log tok pages last
      Hc Hne Hfull Hshort Hax Hfuel.
    rewrite (cookie_serve_admitted env axios lt_coerced ToString Buffer_from
               req tok fuel Repos Hc Hne).
    cbn [Cookie.handler]. unfold Cookie.repos, try_catch, bind.
    by rewrite (repos_loop_pages env axios lt_coerced ToString tok (Cookie.query req) last
                  Hshort pages fuel [] 1 log Hfull Hax Hfuel).
  - intros env axios ToString Buffer_from store req log user d Hu Hne Hax.
    unfold Session.serve, Session.ensureAuthenticated. rewrite Hu.
    apply nonempty_true in Hne. rewrite Hne.
    cbn [Session.handler]. unfold forward, try_catch, githubRequest, text_of, attempt, bind, ret.
    by rewrite (request_resolved _ _ _ _ Hax).
Qed.

End ListRepos.

(** On pages of sizes 100, 100 and 37 the cookie variant returns the 237
    items in order, with three upstream calls. *)
Lemma repos_pages_aggregated_witness :
  exists items calls,
    Cookie.serve Scenario.env (Scenario.paged Scenario.three_pages) Scenario.lt_coerced
        Scenario.ToString Scenario.Buffer_from
      3 Http.Repos (Scenario.with_cookie Http.empty_body) []
    = (Upstream.Return (Http.Json 200 (JS.Arr items) []), calls)
    /\ items = Scenario.numbered 0 237
    /\ calls = Run.page_calls Scenario.env "gho_abc" ∅ 1 3.
Proof.
  eexists _, _. split; [|split].
  - apply (proj1 repos_pages_aggregated Scenario.env (Scenario.paged Scenario.three_pages)
             Scenario.lt_coerced Scenario.ToString Scenario.Buffer_from 3%nat
                 (Scenario.with_cookie Http.empty_body) []
             "gho_abc" [Scenario.numbered 0 100; Scenario.numbered 100 100]
             (Scenario.numbered 200 37)).
    + reflexivity.
    + discriminate.
    + repeat constructor; unfold Run.full; vm_compute; lia.
    + unfold Run.short. vm_compute. lia.
    + intros [|[|[|k]]] p [= <-]; vm_compute; reflexivity.
    + cbn. lia.
  - vm_compute. reflexivity.
  - reflexivity.
Defined.

(** On a first page with fewer than 100 items it makes one call. *)
Example repos_one_short_page :
  Cookie.serve Scenario.env (Scenario.paged [Scenario.numbered 0 5]) Scenario.lt_coerced
      Scenario.ToString Scenario.Buffer_from
    1 Http.Repos (Scenario.with_cookie Http.empty_body) []
  = (Upstream.Return (Http.Json 200 (JS.Arr (Scenario.numbered 0 5)) []),
     Run.page_calls Scenario.env "gho_abc" ∅ 1 1).
Proof. vm_compute. reflexivity. Qed.

(** The session variant, on the same three pages: the first 100 items, one
    call, no [page] or [per_page] parameter. *)
Lemma session_repos_not_aggregated :
  Session.serve Scenario.env (Scenario.paged Scenario.three_pages) Scenario.ToString
      Scenario.Buffer_from Scenario.store
    Http.Repos (Scenario.with_session Http.empty_body) []
  = (Upstream.Return (Http.Json 200 (JS.Arr (Scenario.numbered 0 100)) []),
     [Common.opts Scenario.env "gho_abc" "GET" "/user/repos" ∅ ∅])
  /\ length (Scenario.numbered 0 100) = 100%nat
  /\ length (List.concat Scenario.three_pages) = 237%nat.
Proof. repeat split; vm_compute; reflexivity. Qed.

(** ** Relaying upstream errors *)

Section Relay.
Import JS Upstream Http Common.

Variable env : Env.
Variable axios : Server.
Variable lt_coerced : Value -> Z -> bool.
Variable ToString : Value -> Error + string.
Variable Buffer_from : Value -> Error + string.

Local Abbreviation last_rejected := (Run.last_rejected axios).
Local Abbreviation faithful := (Run.faithful axios).
Local Abbreviation relays := (Run.relays axios).
Local Abbreviation stops := (Run.stops axios).

Lemma last_rejected_same (log : list Call) (e : Error) :
  ~ last_rejected log log e.
Proof.
  intros (before & c & Heq & Hlen & _).
  apply (f_equal length) in Heq. rewrite length_app in Heq. cbn in Heq. lia.
Qed.

Lemma last_rejected_one (log : list Call) (c : Call) (e : Error) :
  last_rejected log (log ++ [c])%list e -> axios log c = Rejected e.
Proof.
  intros (before & c' & Heq & _ & Hax).
  apply app_inj_tail in Heq as [-> ->]. exact Hax.
Qed.

Lemma last_rejected_later (log log1 new : list Call) (e : Error) :
  new <> [] ->
  last_rejected log (log1 ++ new)%list e ->
  last_rejected log1 (log1 ++ new)%list e.
Proof.
  intros Hnew (before & c & Heq & _ & Hax). exists before, c.
  split; [done|]. split; [|done].
  apply (f_equal length) in Heq. rewrite !length_app in Heq. cbn in Heq.
  destruct new; [done|]. cbn in Heq. lia.
Qed.

Lemma faithful_ret {A} (a : A) : faithful (ret a).
Proof.
  intros log. split; [exists []; cbn; by rewrite app_nil_r|].
  intros e H. by apply last_rejected_same in H.
Qed.

Lemma faithful_throw {A} (e0 : Error) : faithful (@throw A e0).
Proof.
  intros log. split; [exists []; cbn; by rewrite app_nil_r|].
  intros e H. by apply last_rejected_same in H.
Qed.

Lemma faithful_pending {A} : faithful (@pending A).
Proof.
  intros log. split; [exists []; cbn; by rewrite app_nil_r|].
  intros e H. by apply last_rejected_same in H.
Qed.

Lemma faithful_request (c : Call) : faithful (request axios c).
Proof.
  intros log. rewrite request_log. split; [by exists [c]|].
  intros e H. apply last_rejected_one in H.
  by rewrite (request_rejected _ _ _ _ H).
Qed.

Lemma faithful_bind {A B} (m : M A) (k : A -> M B) :
  faithful m -> (forall a, faithful (k a)) -> faithful (bind m k).
Proof.
  intros Hm Hk log. destruct (Hm log) as [[new1 Hlog1] Hrej1].
  unfold bind. destruct (m log) as [[a|e0|] log1] eqn:Hrun; cbn in Hlog1, Hrej1.
  - destruct (Hk a log1) as [[new2 Hlog2] Hrej2]. subst log1. split.
    + exists (new1 ++ new2)%list. by rewrite Hlog2, app_assoc.
    + intros e H. apply Hrej2. rewrite Hlog2 in H |- *.
      destruct new2 as [|c2 new2].
      * rewrite app_nil_r in H. by specialize (Hrej1 e H).
      * by apply (last_rejected_later log).
  - split; [by exists new1|]. intros e H. by injection (Hrej1 e H) as ->.
  - split; [by exists new1|]. intros e H. by specialize (Hrej1 e H).
Qed.

Lemma relays_ret (r : Res) : relays (ret r).
Proof.
  intros log. split; [exists []; cbn; by rewrite app_nil_r|].
  intros e H. by apply last_rejected_same in H.
Qed.

Lemma relays_try_catch (m : M Res) :
  faithful m -> relays (try_catch m (fun err => ret (relay err))).
Proof.
  intros Hm log. destruct (Hm log) as [Hlog Hrej].
  unfold try_catch. destruct (m log) as [[a|e0|] log1]; cbn in Hlog, Hrej |- *.
  - split; [done|]. intros e H. by specialize (Hrej e H).
  - split; [done|]. intros e H. by injection (Hrej e H) as ->.
  - split; [done|]. intros e H. by specialize (Hrej e H).
Qed.

Lemma faithful_attempt {A} (r : Error + A) : faithful (attempt r).
Proof. destruct r; [apply faithful_throw | apply faithful_ret]. Qed.

Lemma faithful_githubRequest (token : Value) (method path : string)
    (data params : gmap string Value) :
  faithful (githubRequest env axios ToString token method path data params).
Proof.
  apply faithful_bind; [apply faithful_attempt | intros t; apply faithful_request].
Qed.

Lemma faithful_destructured (k var : string) (v : Value) : faithful (destructured k var v).
Proof. destruct v; cbn; first [apply faithful_ret | apply faithful_throw]. Qed.

Lemma faithful_mark_pushed (v : Value) : faithful (Cookie.mark_pushed v).
Proof. destruct v; cbn; first [apply faithful_ret | apply faithful_throw]. Qed.

Lemma faithful_repos_loop (token : Value) (q : gmap string Value) (fuel : nat) :
  forall (acc : list Value) (page : Z),
    faithful (Cookie.repos_loop env axios lt_coerced ToString fuel token q acc page).
Proof.
  induction fuel as [|fuel IH]; intros acc page; cbn [Cookie.repos_loop].
  - apply faithful_pending.
  - apply faithful_bind; [apply faithful_githubRequest|]. intros repos.
    destruct (Cookie.shorter_than lt_coerced repos Cookie.per_page) as [[|]|].
    + apply faithful_ret.
    + apply IH.
    + apply faithful_throw.
Qed.

Lemma relays_forward (token : Value) (path : string) (q : gmap string Value) :
  relays (forward env axios ToString token path q).
Proof.
  apply relays_try_catch, faithful_bind; [apply faithful_githubRequest|].
  intros d. apply faithful_ret.
Qed.

(** The lookup always returns: after its one call when the path and the
    token have a text, and without a call when one of them has none. *)
Lemma lookup_sha_run (token : Value) (owner repo : string) (path branch : Value)
    (log : list Call) :
  exists v,
    (exists url t,
       contents_url ToString owner repo path = inr url
       /\ text_of ToString token = inr t
       /\ lookup_sha env axios ToString token owner repo path branch log
          = (Return v, (log ++ [opts env t "GET" url ∅ {[ "ref" := branch ]}])%list))
    \/ ((exists e, contents_url ToString owner repo path = inl e
                   \/ text_of ToString token = inl e)
        /\ lookup_sha env axios ToString token owner repo path branch log = (Return v, log)).
Proof.
  unfold lookup_sha, try_catch, githubRequest, bind, attempt.
  destruct (contents_url ToString owner repo path) as [e|url] eqn:Hurl; cbn.
  { exists Null. right. split; [exists e; by left | done]. }
  destruct (text_of ToString token) as [e|t] eqn:Ht; cbn.
  { exists Null. right. split; [exists e; by right | done]. }
  unfold request. destruct (axios log _) as [d|e].
  - destruct d; cbn; eexists; left; exists url, t; done.
  - exists Null. left. by exists url, t.
Qed.

Lemma relays_cookie_handler (fuel : nat) (r : Route) (token : Value) (req : Cookie.Req) :
  (forall owner repo, r <> SpecUpdate owner repo) ->
  relays (Cookie.handler env axios lt_coerced ToString Buffer_from fuel r token req).
Proof.
  intros Hr. destruct r; cbn [Cookie.handler]; try apply relays_forward.
  - apply relays_try_catch.
    repeat (apply faithful_bind;
            [first [apply faithful_githubRequest | apply faithful_destructured]|intros ?]).
    apply faithful_ret.
  - apply relays_try_catch, faithful_bind; [apply faithful_repos_loop|].
    intros items. apply faithful_ret.
  - by destruct (Hr owner repo).
  - apply relays_try_catch. cbv zeta.
    apply faithful_bind; [apply faithful_githubRequest|]. intros d.
    apply faithful_bind; [|intros d'; apply faithful_ret].
    destruct (truthy _); [apply faithful_mark_pushed | apply faithful_ret].
Qed.

Lemma relays_session_handler (r : Route) (user : Session.SafeUser) (req : Session.Req) :
  (forall owner repo, r <> SpecUpdate owner repo) ->
  relays (Session.handler env axios ToString Buffer_from r user req).
Proof.
  intros Hr. destruct r; cbn [Session.handler]; try apply relays_forward.
  - apply relays_ret.
  - by destruct (Hr owner repo).
  - apply relays_try_catch. cbv zeta.
    apply faithful_bind; [apply faithful_attempt|]. intros text.
    apply faithful_bind; [apply faithful_githubRequest|]. intros d.
    apply faithful_ret.
Qed.

Lemma app_cons_inside (l1 l2 k1 k2 : list Call) (x : Call) :
  (l1 ++ l2 = k1 ++ x :: k2)%list -> (length k1 < length l1)%nat ->
  exists t, l1 = (k1 ++ x :: t)%list.
Proof.
  revert k1. induction l1 as [|y l1 IH]; intros k1 Heq Hlen; [cbn in Hlen; lia|].
  destruct k1 as [|z k1]; cbn in Heq; injection Heq as -> Heq.
  - by exists l1.
  - destruct (IH k1 Heq) as [t ->]; [cbn in Hlen; lia|]. by exists t.
Qed.

Lemma stops_silent {A} (m : M A) :
  (forall log, snd (m log) = log) -> stops m.
Proof.
  intros Hm log before c after e Heq Hlen _. rewrite Hm in Heq.
  apply (f_equal length) in Heq. rewrite length_app in Heq. cbn in Heq. lia.
Qed.

Lemma stops_request (c : Call) : stops (request axios c).
Proof.
  intros log before c' after e Heq Hlen _. rewrite request_log in Heq.
  apply (f_equal length) in Heq. rewrite !length_app in Heq. cbn in Heq.
  destruct after; [done | cbn in Heq; lia].
Qed.

Lemma stops_bind {A B} (m : M A) (k : A -> M B) :
  faithful m -> stops m -> (forall a, faithful (k a)) -> (forall a, stops (k a)) ->
  stops (bind m k).
Proof.
  intros Hf Hm Hfk Hk log before c after e Heq Hlen Hax.
  destruct (Hf log) as [[new1 Hlog1] Hrej1]. specialize (Hm log).
  unfold bind in Heq. destruct (m log) as [[a|e0|] log1] eqn:Hrun; cbn in *.
  - destruct (Hfk a log1) as [[new2 Hlog2] _].
    destruct (Nat.lt_ge_cases (length before) (length log1)) as [Hin | Hout].
    + rewrite Hlog2 in Heq. destruct (app_cons_inside _ _ _ _ _ Heq Hin) as [t Ht].
      pose proof (Hm before c t e Ht Hlen Hax) as ->.
      assert (Return a = Throw e) as Habs; [|discriminate Habs].
      apply Hrej1. rewrite Ht. by exists before, c.
    + by apply (Hk a log1 before c after e).
  - by apply (Hm before c after e).
  - by apply (Hm before c after e).
Qed.

Lemma stops_try_catch (m : M Res) :
  stops m -> stops (try_catch m (fun err => ret (relay err))).
Proof.
  intros Hm log before c after e Heq. apply (Hm log before c after e).
  revert Heq. unfold try_catch. by destruct (m log) as [[a|e0|] log1].
Qed.

Lemma stops_attempt {A} (r : Error + A) : stops (attempt r).
Proof. apply stops_silent. intros log. by destruct r. Qed.

Lemma stops_githubRequest (token : Value) (method path : string)
    (data params : gmap string Value) :
  stops (githubRequest env axios ToString token method path data params).
Proof.
  apply stops_bind;
    [apply faithful_attempt | apply stops_attempt
    | intros t; apply faithful_request | intros t; apply stops_request].
Qed.

Lemma stops_repos_loop (token : Value) (q : gmap string Value) (fuel : nat) :
  forall (acc : list Value) (page : Z),
    stops (Cookie.repos_loop env axios lt_coerced ToString fuel token q acc page).
Proof.
  induction fuel as [|fuel IH]; intros acc page; cbn [Cookie.repos_loop].
  - by apply stops_silent.
  - apply stops_bind.
    + apply faithful_githubRequest.
    + apply stops_githubRequest.
    + intros repos.
      destruct (Cookie.shorter_than lt_coerced repos Cookie.per_page) as [[|]|];
        [apply faithful_ret | apply faithful_repos_loop | apply faithful_throw].
    + intros repos.
      destruct (Cookie.shorter_than lt_coerced repos Cookie.per_page) as [[|]|];
        [by apply stops_silent | apply IH | by apply stops_silent].
Qed.

Lemma stops_forward (token : Value) (path : string) (q : gmap string Value) :
  stops (forward env axios ToString token path q).
Proof.
  apply stops_try_catch, stops_bind.
  - apply faithful_githubRequest.
  - apply stops_githubRequest.
  - intros d. apply faithful_ret.
  - intros d. by apply stops_silent.
Qed.

(** The spec-update route apart, no route calls upstream again after a
    rejected call. *)
Lemma stops_cookie_handler (fuel : nat) (r : Route) (token : Value) (req : Cookie.Req) :
  (forall owner repo, r <> SpecUpdate owner repo) ->
  stops (Cookie.handler env axios lt_coerced ToString Buffer_from fuel r token req).
Proof.
  intros Hr. destruct r; cbn [Cookie.handler]; try apply stops_forward.
  - apply stops_try_catch, stops_bind;
      [apply faithful_githubRequest | apply stops_githubRequest | |].
    + intros me.
      repeat (apply faithful_bind; [apply faithful_destructured|intros ?]).
      apply faithful_ret.
    + intros me. apply stops_silent. intros log.
      unfold bind. by destruct me.
  - apply stops_try_catch, stops_bind;
      [apply faithful_repos_loop | apply stops_repos_loop | |].
    + intros items. apply faithful_ret.
    + intros items. by apply stops_silent.
  - by destruct (Hr owner repo).
  - apply stops_try_catch. cbv zeta. apply stops_bind;
      [apply faithful_githubRequest | apply stops_githubRequest | |].
    + intros d. apply faithful_bind; [|intros d'; apply faithful_ret].
      destruct (truthy _); [apply faithful_mark_pushed | apply faithful_ret].
    + intros d. apply stops_silent. intros log. unfold bind.
      destruct (truthy _); [|done]. by destruct d.
Qed.

Lemma stops_session_handler (r : Route) (user : Session.SafeUser) (req : Session.Req) :
  (forall owner repo, r <> SpecUpdate owner repo) ->
  stops (Session.handler env axios ToString Buffer_from r user req).
Proof.
  intros Hr. destruct r; cbn [Session.handler]; try apply stops_forward.
  - by apply stops_silent.
  - by destruct (Hr owner repo).
  - apply stops_try_catch. cbv zeta. apply stops_bind;
      [apply faithful_attempt | apply stops_attempt | |].
    + intros text. apply faithful_bind; [apply faithful_githubRequest|].
      intros d. apply faithful_ret.
    + intros text. apply stops_bind;
        [apply faithful_githubRequest | apply stops_githubRequest | |].
      * intros d. apply faithful_ret.
      * intros d. by apply stops_silent.
Qed.

(** The runs of the spec-update route on a truthy content: the lookup and
    the write; or the lookup alone, when the content cannot be encoded; or
    no call at all, when the path or the token has no text. *)
Lemma spec_update_run (token : Value) (owner repo : string) (b : Body) (log : list Call) :
  truthy (b_content b) = true ->
  let path := with_default (Str "spec.yaml") (b_path b) in
  (exists url t text sha,
     contents_url ToString owner repo path = inr url
     /\ text_of ToString token = inr t
     /\ base64_of Buffer_from (b_content b) = inr text
     /\ lookup_sha env axios ToString token owner repo path (b_branch b) log
        = (Return sha, (log ++ [opts env t "GET" url ∅ {[ "ref" := b_branch b ]}])%list)
     /\ spec_update env axios ToString Buffer_from token owner repo b log
        = (match axios (log ++ [opts env t "GET" url ∅ {[ "ref" := b_branch b ]}])%list
                   (opts env t "PUT" url (set_if "sha" sha (Run.spec_payload b text)) ∅) with
           | Resolved d => Return (Json 200 d [])
           | Rejected e => Return (relay e)
           end,
           (log ++ [opts env t "GET" url ∅ {[ "ref" := b_branch b ]};
                    opts env t "PUT" url (set_if "sha" sha (Run.spec_payload b text)) ∅])%list))
  \/ (exists url t e,
        contents_url ToString owner repo path = inr url
        /\ text_of ToString token = inr t
        /\ base64_of Buffer_from (b_content b) = inl e
        /\ spec_update env axios ToString Buffer_from token owner repo b log
           = (Return (relay e),
              (log ++ [opts env t "GET" url ∅ {[ "ref" := b_branch b ]}])%list))
  \/ (exists e,
        (exists e', contents_url ToString owner repo path = inl e'
                    \/ text_of ToString token = inl e')
        /\ spec_update env axios ToString Buffer_from token owner repo b log
           = (Return (relay e), log)).
Proof.
  intros Hc path.
  remember (spec_update env axios ToString Buffer_from token owner repo b log) as run eqn:Hdef.
  unfold spec_update, try_catch in Hdef. rewrite Hc in Hdef. cbn [negb] in Hdef.
  fold path in Hdef. unfold bind at 1 in Hdef.
  destruct (lookup_sha_run token owner repo path (b_branch b) log)
    as (sha & [(url & t & Hurl & Ht & Hrun) | (Hno & Hrun)]); rewrite Hrun in Hdef.
  - unfold bind, attempt in Hdef. rewrite Hurl in Hdef.
    destruct (base64_of Buffer_from (b_content b)) as [e|text] eqn:Hb; cbn in Hdef.
    + right. left. by exists url, t, e.
    + left. exists url, t, text, sha. repeat (split; [done|]).
      unfold githubRequest, bind, attempt in Hdef. rewrite Ht in Hdef.
      cbn in Hdef. unfold request in Hdef.
      fold (Run.spec_payload b text) in Hdef. rewrite Hdef.
      destruct (axios _ _); cbn; by rewrite <- app_assoc.
  - right. right. unfold bind, attempt in Hdef.
    destruct (base64_of Buffer_from (b_content b)) as [e|text]; cbn in Hdef.
    { exists e. by split. }
    destruct Hno as (e' & [Hurl | Ht]).
    + rewrite Hurl in Hdef. cbn in Hdef. exists e'. split; [|done]. exists e'. by left.
    + destruct (contents_url ToString owner repo path) as [e|url] eqn:Hurl; cbn in Hdef.
      * exists e. split; [|done]. exists e. by left.
      * unfold githubRequest, bind, attempt in Hdef. rewrite Ht in Hdef. cbn in Hdef.
        exists e'. split; [|done]. exists e'. by right.
Qed.

(** On the spec-update route the error of the write is relayed; so is that
    of whatever call was the last when the content is text, since the write
    then follows the lookup. *)
Lemma relays_spec_update (token : Value) (owner repo : string) (b : Body) (log : list Call)
    (e : Error) :
  last_rejected log (snd (spec_update env axios ToString Buffer_from token owner repo b log)) e ->
  (forall c, last (snd (spec_update env axios ToString Buffer_from token owner repo b log)) = Some
      c ->
             method c = "PUT" \/ exists content, b_content b = Str content) ->
  fst (spec_update env axios ToString Buffer_from token owner repo b log) = Return (relay e).
Proof.
  intros Hlast Hends.
  destruct (truthy (b_content b)) eqn:Hc; cycle 1.
  { revert Hlast. unfold spec_update, try_catch. rewrite Hc. cbn.
    intros H. by apply last_rejected_same in H. }
  destruct (spec_update_run token owner repo b log Hc)
    as [(url & t & text & sha & _ & _ & _ & _ & Hrun)
       | [(url & t & e0 & _ & _ & Hb & Hrun) | (e0 & _ & Hrun)]];
    rewrite Hrun in Hlast, Hends |- *; cbn [fst snd] in *.
  - destruct Hlast as (before & c & Heq & _ & Hax).
    change (log ++ [?a; ?b])%list with (log ++ [a] ++ [b])%list in Heq.
    rewrite app_assoc in Heq. apply app_inj_tail in Heq as [<- <-].
    by rewrite Hax.
  - destruct (Hends _ (last_snoc _ _)) as [Hput | (content & Htext)].
    + discriminate Hput.
    + rewrite Htext in Hb. discriminate Hb.
  - by apply last_rejected_same in Hlast.
Qed.

Lemma relay_response (e : Error) (S : Z) (B : Value) :
  response e = Some {| status := S; body := B |} -> S <> 0 -> truthy B = true ->
  relay e = Json S (Obj {[ "error" := B ]}) [].
Proof.
  intros Hr HS HB. unfold relay. rewrite Hr. cbn [status body]. rewrite HB.
  by rewrite (proj2 (Z.eqb_neq S 0) HS).
Qed.

Lemma relay_no_response (e : Error) :
  response e = None -> relay e = Json 500 (Obj {[ "error" := Str (message e) ]}) [].
Proof. intros Hr. unfold relay. by rewrite Hr. Qed.

End Relay.

Section RelayTheorem.
Import JS Upstream Http Common Run.

(** C4, as the code has it. On every protected route of both variants, when
    the upstream call that ended a request was rejected, the proxy answers
    with [relay] of that error: status S and [{error: B}] when upstream
    answered with a status S and a body B that is truthy, and status 500
    with [{error: message}] when there was no upstream response. The call
    that ends a request is its last one; on the spec-update route it is the
    write, which follows the lookup whenever the content is text: the
    errors of the lookup are caught and dropped. On every route but
    spec-update a rejected call is the last call of the request. *)
Theorem upstream_error_relayed env axios lt_coerced ToString Buffer_from fuel
    (store : gmap string Session.Sess)
    (r : Route) (creq : Cookie.Req) (sreq : Session.Req) (log : list Call) (e : Error) :
  (last_rejected axios log (snd (Cookie.serve env axios lt_coerced ToString Buffer_from fuel r
      creq log)) e ->
   (forall c, last (snd (Cookie.serve env axios lt_coerced ToString Buffer_from fuel r creq log))
       = Some c ->
              ends r (Cookie.req_body creq) c) ->
   fst (Cookie.serve env axios lt_coerced ToString Buffer_from fuel r creq log) = Return (relay e))
  /\ (last_rejected axios log (snd (Session.serve env axios ToString Buffer_from store r sreq
      log)) e ->
      (forall c, last (snd (Session.serve env axios ToString Buffer_from store r sreq log)) = Some
          c ->
                 ends r (Session.req_body sreq) c) ->
      fst (Session.serve env axios ToString Buffer_from store r sreq log) = Return (relay e))
  /\ (forall S B,
        response e = Some {| status := S; body := B |} -> S <> 0 -> truthy B = true ->
        relay e = Json S (Obj {[ "error" := B ]}) [])
  /\ (response e = None -> relay e = Json 500 (Obj {[ "error" := Str (message e) ]}) [])
  /\ ((forall owner repo, r <> SpecUpdate owner repo) ->
      forall before c after,
        axios before c = Rejected e -> (length log <= length before)%nat ->
        (snd (Cookie.serve env axios lt_coerced ToString Buffer_from fuel r creq log) = (before ++
            c :: after)%list
         -> after = [])
        /\ (snd (Session.serve env axios ToString Buffer_from store r sreq log) = (before ++ c ::
            after)%list
            -> after = [])).
Proof.
  split; [|split; [|split; [|split]]].
  - unfold Cookie.serve. destruct (Cookie.ensureAuthenticated creq) as [res|token].
    + intros Hl _. by apply (relays_ret axios res log).
    + intros Hl He.
      destruct r;
        try (apply (relays_cookie_handler env axios lt_coerced ToString Buffer_from
                      fuel _ token creq); done).
      by apply relays_spec_update.
  - unfold Session.serve. destruct (Session.ensureAuthenticated store sreq) as [res|user].
    + intros Hl _. by apply (relays_ret axios res log).
    + intros Hl He.
      destruct r;
        try (apply (relays_session_handler env axios ToString Buffer_from _ user sreq); done).
      by apply relays_spec_update.
  - apply relay_response.
  - apply relay_no_response.
  - intros Hr before c after Hax Hlen. split; intros Heq.
    + revert Heq. unfold Cookie.serve.
      destruct (Cookie.ensureAuthenticated creq) as [res|token]; intros Heq.
      * by apply (stops_silent axios (ret res) (fun _ => eq_refl) log before c after e).
      * by apply (stops_cookie_handler env axios lt_coerced ToString Buffer_from
                    fuel r token creq Hr log before c after e).
    + revert Heq. unfold Session.serve.
      destruct (Session.ensureAuthenticated store sreq) as [res|user]; intros Heq.
      * by apply (stops_silent axios (ret res) (fun _ => eq_refl) log before c after e).
      * by apply (stops_session_handler env axios ToString Buffer_from
                    r user sreq Hr log before c after e).
Qed.

End RelayTheorem.

(** The spec's example: an upstream 422 with [{message: "validation failed"}]
    comes back as 422 with that body under [error]. *)
Lemma upstream_error_relayed_witness :
  fst (Cookie.serve Scenario.env (Scenario.always (Upstream.Rejected Scenario.unprocessable))
         Scenario.lt_coerced Scenario.ToString Scenario.Buffer_from 0 (Http.Branches "octo" "demo")
         (Scenario.with_cookie Http.empty_body) [])
  = Upstream.Return
      (Http.Json 422
         (JS.Obj {[ "error" := JS.Obj {[ "message" := JS.Str "validation failed" ]} ]}) []).
Proof.
  destruct (upstream_error_relayed Scenario.env
              (Scenario.always (Upstream.Rejected Scenario.unprocessable))
              Scenario.lt_coerced Scenario.ToString Scenario.Buffer_from 0 Scenario.store
              (Http.Branches "octo" "demo")
              (Scenario.with_cookie Http.empty_body)
              (Scenario.with_session Http.empty_body) [] Scenario.unprocessable)
    as (Hcookie & _ & Hbody & _).
  rewrite Hcookie.
  - apply (f_equal Upstream.Return).
    apply Hbody; [reflexivity | discriminate | reflexivity].
  - exists [], (Common.opts Scenario.env "gho_abc" "GET" "/repos/octo/demo/branches" ∅ ∅).
    split; [vm_compute; reflexivity | split; [cbn; lia | reflexivity]].
  - intros c _. exact I.
Defined.

(** Two upstream errors that do not come back as they were: the 404 of the
    lookup of the spec-update route is dropped and the request ends 200 with
    the reply of the write; and a 404 with an empty body comes back with the
    local message in its place. *)
Lemma upstream_error_not_relayed :
  Cookie.serve Scenario.env Scenario.missing_file Scenario.lt_coerced Scenario.ToString
      Scenario.Buffer_from 0
    (Http.SpecUpdate "octo" "demo") (Scenario.with_cookie Scenario.hello) []
  = (Upstream.Return (Http.Json 200 Scenario.created []),
     [Common.opts Scenario.env "gho_abc" "GET" "/repos/octo/demo/contents/spec.yaml" ∅
        {[ "ref" := JS.Undefined ]};
      Common.opts Scenario.env "gho_abc" "PUT" "/repos/octo/demo/contents/spec.yaml"
        {[ "message" := JS.Str "Update spec via API"; "content" := JS.Str "aGVsbG8=" ]} ∅])
  /\ Scenario.missing_file []
       (Common.opts Scenario.env "gho_abc" "GET" "/repos/octo/demo/contents/spec.yaml" ∅
          {[ "ref" := JS.Undefined ]})
     = Upstream.Rejected Scenario.not_found
  /\ Cookie.serve Scenario.env (Scenario.always (Upstream.Rejected Scenario.bare_404))
       Scenario.lt_coerced Scenario.ToString Scenario.Buffer_from 0 (Http.Branches "octo" "demo")
       (Scenario.with_cookie Http.empty_body) []
     = (Upstream.Return
          (Http.Json 404
             (JS.Obj {[ "error" := JS.Str "Request failed with status code 404" ]}) []),
        [Common.opts Scenario.env "gho_abc" "GET" "/repos/octo/demo/branches" ∅ ∅]).
Proof. repeat split; vm_compute; reflexivity. Qed.

(** ** The write routes *)

Section Writes.
Import JS Upstream Http Common Run.

Variable env : Env.
Variable axios : Server.
Variable lt_coerced : Value -> Z -> bool.
Variable ToString : Value -> Error + string.
Variable Buffer_from : Value -> Error + string.

Lemma lookup_set_if_ne (k k' : string) (v : Value) (m : gmap string Value) :
  k <> k' -> set_if k v m !! k' = m !! k'.
Proof. intros H. unfold set_if. destruct (truthy v); [by rewrite lookup_insert_ne | done]. Qed.

Lemma lookup_set_if_truthy (k : string) (v : Value) (m : gmap string Value) :
  truthy v = true -> set_if k v m !! k = Some v.
Proof. intros H. unfold set_if. rewrite H. apply lookup_insert_eq. Qed.

Lemma set_if_falsy (k : string) (v : Value) (m : gmap string Value) :
  truthy v = false -> set_if k v m = m.
Proof. intros H. unfold set_if. by rewrite H. Qed.

Lemma put_payload_content (b : Body) (c : Value) :
  put_payload b c !! "content" = Some c.
Proof.
  unfold put_payload. rewrite !lookup_set_if_ne by done.
  by rewrite lookup_insert_ne, lookup_singleton_eq.
Qed.

Lemma spec_payload_content (b : Body) (text : string) :
  spec_payload b text !! "content" = Some (Str text).
Proof.
  unfold spec_payload. rewrite lookup_set_if_ne by done.
  by rewrite lookup_insert_ne, lookup_singleton_eq.
Qed.

Lemma spec_payload_sha (b : Body) (text : string) :
  spec_payload b text !! "sha" = None.
Proof.
  unfold spec_payload. rewrite lookup_set_if_ne by done.
  by rewrite lookup_insert_ne, lookup_singleton_ne.
Qed.

Lemma lookup_sha_resolved (token : Value) (owner repo : string) (path branch : Value)
    (url t : string) (log : list Call) (o : gmap string Value) :
  contents_url ToString owner repo path = inr url -> text_of ToString token = inr t ->
  axios log (opts env t "GET" url ∅ {[ "ref" := branch ]}) = Resolved (Obj o) ->
  lookup_sha env axios ToString token owner repo path branch log
  = (Return (get "sha" o), (log ++ [opts env t "GET" url ∅ {[ "ref" := branch ]}])%list).
Proof.
  intros Hurl Ht H. unfold lookup_sha, try_catch, githubRequest, bind, attempt.
  rewrite Hurl, Ht. cbn. by rewrite (request_resolved _ _ _ _ H).
Qed.

Lemma lookup_sha_rejected (token : Value) (owner repo : string) (path branch : Value)
    (url t : string) (log : list Call) (e : Error) :
  contents_url ToString owner repo path = inr url -> text_of ToString token = inr t ->
  axios log (opts env t "GET" url ∅ {[ "ref" := branch ]}) = Rejected e ->
  lookup_sha env axios ToString token owner repo path branch log
  = (Return Null, (log ++ [opts env t "GET" url ∅ {[ "ref" := branch ]}])%list).
Proof.
  intros Hurl Ht H. unfold lookup_sha, try_catch, githubRequest, bind, attempt.
  rewrite Hurl, Ht. cbn. by rewrite (request_rejected _ _ _ _ H).
Qed.

(** With a content that can be encoded, and a path and a token that have a
    text, the spec-update route makes the lookup and then the write,
    whatever the lookup gave. *)
Lemma spec_update_calls (token : Value) (owner repo : string) (b : Body)
    (url t text : string) (log : list Call) :
  truthy (b_content b) = true ->
  spec_url ToString owner repo b = inr url -> text_of ToString token = inr t ->
  base64_of Buffer_from (b_content b) = inr text ->
  exists sha,
    lookup_sha env axios ToString token owner repo
      (with_default (Str "spec.yaml") (b_path b)) (b_branch b) log
    = (Return sha, (log ++ [opts env t "GET" url ∅ {[ "ref" := b_branch b ]}])%list)
    /\ calls_made (spec_update env axios ToString Buffer_from token owner repo b) log
       = [opts env t "GET" url ∅ {[ "ref" := b_branch b ]};
          opts env t "PUT" url (set_if "sha" sha (spec_payload b text)) ∅].
Proof.
  intros Hc Hurl Ht Hb. unfold spec_url in Hurl.
  destruct (spec_update_run env axios ToString Buffer_from token owner repo b log Hc)
    as [(url' & t' & text' & sha & Hurl' & Ht' & Hb' & Hlookup & Hrun)
       | [(url' & t' & e0 & _ & _ & Hb' & _) | (e0 & (e' & [Hurl' | Ht']) & _)]];
    try congruence.
  assert (url' = url) as -> by congruence.
  assert (t' = t) as -> by congruence.
  assert (text' = text) as -> by congruence.
  exists sha. split; [exact Hlookup|].
  apply calls_made_app. by rewrite Hrun.
Qed.

Lemma spec_update_no_content (token : Value) (owner repo : string) (b : Body) (log : list Call) :
  truthy (b_content b) = false ->
  spec_update env axios ToString Buffer_from token owner repo b log
  = (Return (Json 400 (Obj {[ "error" := Str "content is required" ]}) []), log).
Proof. intros Hc. unfold spec_update, try_catch. by rewrite Hc. Qed.

(** Every write of the spec-update route carries the content as
    [Buffer.from] encoded it. *)
Lemma spec_update_put (token : Value) (owner repo : string) (b : Body) (log : list Call)
    (c : Call) :
  c ∈ calls_made (spec_update env axios ToString Buffer_from token owner repo b) log ->
  method c = "PUT" ->
  exists text,
    base64_of Buffer_from (b_content b) = inr text
    /\ data c !! "content" = Some (Str text).
Proof.
  intros Hin Hput.
  destruct (truthy (b_content b)) eqn:Hc; cycle 1.
  { rewrite (calls_made_app _ log []) in Hin; [by apply elem_of_nil in Hin|].
    by rewrite spec_update_no_content, app_nil_r. }
  destruct (spec_update_run env axios ToString Buffer_from token owner repo b log Hc)
    as [(url & t & text & sha & _ & _ & Hb & _ & Hrun)
       | [(url & t & e0 & _ & _ & _ & Hrun) | (e0 & _ & Hrun)]].
  - rewrite (calls_made_app _ log _ (f_equal snd Hrun)) in Hin.
    apply elem_of_cons in Hin as [-> | Hin]; [discriminate Hput|].
    apply list_elem_of_singleton in Hin as ->. exists text. split; [done|].
    cbn [data opts]. rewrite lookup_set_if_ne by done. apply spec_payload_content.
  - rewrite (calls_made_app _ log _ (f_equal snd Hrun)) in Hin.
    apply list_elem_of_singleton in Hin as ->. discriminate Hput.
  - rewrite (calls_made_app _ log []) in Hin; [by apply elem_of_nil in Hin|].
    by rewrite Hrun, app_nil_r.
Qed.

Lemma cookie_put_calls (token owner repo path : string) (req : Cookie.Req) (log : list Call) :
  calls_made (Cookie.put_contents env axios ToString (Str token) owner repo path req) log
  = [opts env token "PUT" ("/repos/" ++ owner ++ "/" ++ repo ++ "/contents/" ++ path)
       (put_payload (Cookie.req_body req)
          (with_default (Str "") (b_content (Cookie.req_body req)))) ∅].
Proof.
  apply calls_made_app.
  unfold Cookie.put_contents, try_catch, githubRequest, text_of, attempt, bind, ret, request.
  destruct (axios _ _) as [d|e]; [|done].
  destruct (truthy _); [|done]. by destruct d.
Qed.

Lemma session_put_calls (token owner repo path text : string) (req : Session.Req)
    (log : list Call) :
  base64_of Buffer_from (with_default (Str "") (b_content (Session.req_body req))) = inr text ->
  calls_made (Session.put_contents env axios ToString Buffer_from (Str token) owner repo path req)
      log
  = [opts env token "PUT" ("/repos/" ++ owner ++ "/" ++ repo ++ "/contents/" ++ path)
       (put_payload (Session.req_body req) (Str text)) ∅].
Proof.
  intros Hb. apply calls_made_app.
  unfold Session.put_contents, try_catch, githubRequest, text_of, attempt, bind.
  rewrite Hb. unfold ret, request. by destruct (axios _ _).
Qed.

(** A write of the session variant's file route carries the content as
    [Buffer.from] encoded it. *)
Lemma session_put_put (token owner repo path : string) (req : Session.Req)
    (log : list Call) (c : Call) :
  c ∈ calls_made (Session.put_contents env axios ToString Buffer_from (Str token) owner repo path
      req) log ->
  exists text,
    base64_of Buffer_from (with_default (Str "") (b_content (Session.req_body req))) = inr text
    /\ method c = "PUT" /\ data c !! "content" = Some (Str text).
Proof.
  destruct (base64_of Buffer_from (with_default (Str "") (b_content (Session.req_body req))))
    as [e|text] eqn:Hb.
  - rewrite (calls_made_app _ log []); [by intros ?%elem_of_nil|].
    unfold Session.put_contents, try_catch, bind, attempt. rewrite Hb. cbn.
    by rewrite app_nil_r.
  - rewrite (session_put_calls token owner repo path text req log Hb).
    intros ->%list_elem_of_singleton. exists text.
    split; [done|]. split; [done|]. apply put_payload_content.
Qed.

Lemma session_put_refused (token : Value) (owner repo path : string) (req : Session.Req)
    (log : list Call) (e : Error) :
  base64_of Buffer_from (with_default (Str "") (b_content (Session.req_body req))) = inl e ->
  Session.put_contents env axios ToString Buffer_from token owner repo path req log
  = (Return (relay e), log).
Proof.
  intros Hb. unfold Session.put_contents, try_catch, bind, attempt. by rewrite Hb.
Qed.

(** The calls of the spec-update route: none, the lookup, or the lookup and
    the write; both go to the one URL, with the one token. *)
Lemma spec_update_shape (token : Value) (owner repo : string) (b : Body) (log : list Call) :
  calls_made (spec_update env axios ToString Buffer_from token owner repo b) log = []
  \/ exists url t,
       spec_url ToString owner repo b = inr url /\ text_of ToString token = inr t
       /\ (calls_made (spec_update env axios ToString Buffer_from token owner repo b) log
           = [opts env t "GET" url ∅ {[ "ref" := b_branch b ]}]
           \/ exists text sha,
                base64_of Buffer_from (b_content b) = inr text
                /\ calls_made (spec_update env axios ToString Buffer_from token owner repo b) log
                   = [opts env t "GET" url ∅ {[ "ref" := b_branch b ]};
                      opts env t "PUT" url (set_if "sha" sha (spec_payload b text)) ∅]).
Proof.
  destruct (truthy (b_content b)) eqn:Hc; cycle 1.
  { left. apply calls_made_app. by rewrite spec_update_no_content, app_nil_r. }
  destruct (spec_update_run env axios ToString Buffer_from token owner repo b log Hc)
    as [(url & t & text & sha & Hurl & Ht & Hb & _ & Hrun)
       | [(url & t & e0 & Hurl & Ht & _ & Hrun) | (e0 & _ & Hrun)]].
  - right. exists url, t. repeat (split; [done|]). right. exists text, sha.
    split; [done|]. apply calls_made_app. by rewrite Hrun.
  - right. exists url, t. repeat (split; [done|]). left.
    apply calls_made_app. by rewrite Hrun.
  - left. apply calls_made_app. by rewrite Hrun, app_nil_r.
Qed.

(** The path of the spec-update calls, when the body names none or names
    a string without unpaired surrogates. *)
Lemma spec_url_text (owner repo : string) (b : Body) :
  (b_path b = Undefined ->
   spec_url ToString owner repo b = inr ("/repos/" ++ owner ++ "/" ++ repo ++
       "/contents/spec.yaml"))
  /\ (forall path,
        b_path b = Str path -> well_formed (bytes path) = true ->
        spec_url ToString owner repo b
        = inr ("/repos/" ++ owner ++ "/" ++ repo ++ "/contents/" ++ escaped path)).
Proof.
  unfold spec_url, contents_url, encoded, encodeURIComponent. split.
  - by intros ->.
  - intros path -> Hwf. cbn. by rewrite Hwf.
Qed.

End Writes.

Section WriteTheorems.
Import JS Upstream Http Common Run.

Variable env : Env.
Variable axios : Server.
Variable lt_coerced : Value -> Z -> bool.
Variable ToString : Value -> Error + string.
Variable Buffer_from : Value -> Error + string.

(** C7, as the code has it. A spec-update request whose content is a
    non-empty string, whose path can be encoded (the body names none, or a
    string without unpaired surrogates) and whose token has a text (every
    string is its own), makes the lookup and then the write, in every case.
    When the lookup succeeds and the file it returns has a sha S, the payload
    of the write has [sha] = S; when the lookup is rejected, with whatever
    error, the payload has no [sha] member and the write is made all the
    same. *)
Theorem spec_update_sha fuel (token : Value) (owner repo : string) (req : Cookie.Req)
    (content url tok : string) (log : list Call) :
  b_content (Cookie.req_body req) = Str content -> content <> "" ->
  spec_url ToString owner repo (Cookie.req_body req) = inr url ->
  text_of ToString token = inr tok ->
  let b := Cookie.req_body req in
  let lookup := opts env tok "GET" url ∅ {[ "ref" := b_branch b ]} in
  let run :=
    Cookie.handler env axios lt_coerced ToString Buffer_from fuel
      (SpecUpdate owner repo) token req in
  (forall o S,
     axios log lookup = Resolved (Obj o) -> o !! "sha" = Some S -> truthy S = true ->
     exists payload,
       calls_made run log = [lookup; opts env tok "PUT" url payload ∅]
       /\ payload !! "sha" = Some S)
  /\ (forall e,
        axios log lookup = Rejected e ->
        exists payload,
          calls_made run log = [lookup; opts env tok "PUT" url payload ∅]
          /\ payload !! "sha" = None)
  /\ (exists payload,
        calls_made run log = [lookup; opts env tok "PUT" url payload ∅]
        /\ payload !! "content" = Some (Str (to_base64 content)))
  /\ (b_path b = Undefined ->
      url = "/repos/" ++ owner ++ "/" ++ repo ++ "/contents/spec.yaml")
  /\ (forall path,
        b_path b = Str path -> well_formed (bytes path) = true ->
        url = "/repos/" ++ owner ++ "/" ++ repo ++ "/contents/" ++ escaped path).
Proof.
  intros Hc Hne Hurl Htok b lookup run. subst b lookup run. cbn [Cookie.handler].
  assert (Htruthy : truthy (b_content (Cookie.req_body req)) = true).
  { rewrite Hc. by apply truthy_text. }
  assert (Hb : base64_of Buffer_from (b_content (Cookie.req_body req)) = inr (to_base64 content)).
  { by rewrite Hc. }
  destruct (spec_update_calls env axios ToString Buffer_from token owner repo _
              url tok _ log Htruthy Hurl Htok Hb)
    as (sha & Hrun & Hcalls).
  pose proof Hurl as Hurl'. unfold spec_url in Hurl'.
  split; [|split; [|split; [|split]]]; cycle 2.
  { eexists. split; [exact Hcalls|].
    rewrite lookup_set_if_ne by done. apply spec_payload_content. }
  { intros Hp. destruct (spec_url_text ToString owner repo (Cookie.req_body req)) as [H _].
    specialize (H Hp). congruence. }
  { intros path Hp Hwf.
    destruct (spec_url_text ToString owner repo (Cookie.req_body req)) as [_ H].
    specialize (H path Hp Hwf). congruence. }
  - intros o S Hax Ho HS.
    rewrite (lookup_sha_resolved env axios ToString token owner repo _ _ url tok log o
               Hurl' Htok Hax) in Hrun.
    injection Hrun as <-. eexists. split; [exact Hcalls|].
    unfold get. rewrite Ho. cbn [default]. by apply lookup_set_if_truthy.
  - intros e Hax.
    rewrite (lookup_sha_rejected env axios ToString token owner repo _ _ url tok log e
               Hurl' Htok Hax) in Hrun.
    injection Hrun as <-. eexists. split; [exact Hcalls|].
    rewrite set_if_falsy by done. apply spec_payload_sha.
Qed.

(** C5, as the code has it. The content of the request body reaches the
    payload of the upstream write base64-encoded in the spec-update route of
    both variants and in the file write of the session variant: a text
    content as the base64 of its UTF-8 bytes, and any content as
    [Buffer.from] encoded it. The file write of the cookie variant puts the
    content into the payload as it came. The file write of the cookie
    variant makes its one upstream call whatever the body holds, that of
    the session variant whenever the content is text or absent. *)
Theorem write_content_encoding fuel (token : Value) (tok owner repo path : string)
    (creq : Cookie.Req) (user : Session.SafeUser) (sreq : Session.Req) (log : list Call) :
  (forall c,
     c ∈ calls_made
           (Cookie.handler env axios lt_coerced ToString Buffer_from fuel
              (SpecUpdate owner repo) token creq) log ->
     method c = "PUT" ->
     (forall content, b_content (Cookie.req_body creq) = Str content ->
        data c !! "content" = Some (Str (to_base64 content)))
     /\ exists text,
          base64_of Buffer_from (b_content (Cookie.req_body creq)) = inr text
          /\ data c !! "content" = Some (Str text))
  /\ (forall c,
        c ∈ calls_made (Session.handler env axios ToString Buffer_from (SpecUpdate owner repo)
            user sreq) log ->
        method c = "PUT" ->
        (forall content, b_content (Session.req_body sreq) = Str content ->
           data c !! "content" = Some (Str (to_base64 content)))
        /\ exists text,
             base64_of Buffer_from (b_content (Session.req_body sreq)) = inr text
             /\ data c !! "content" = Some (Str text))
  /\ (forall content,
        with_default (Str "") (b_content (Session.req_body sreq)) = Str content ->
        exists c,
          calls_made (Session.handler env axios ToString Buffer_from (PutContents owner repo path)
              user sreq) log = [c]
          /\ method c = "PUT"
          /\ data c !! "content" = Some (Str (to_base64 content)))
  /\ (forall c,
        c ∈ calls_made (Session.handler env axios ToString Buffer_from (PutContents owner repo
            path) user sreq) log ->
        exists text,
          base64_of Buffer_from (with_default (Str "") (b_content (Session.req_body sreq))) = inr
              text
          /\ method c = "PUT" /\ data c !! "content" = Some (Str text))
  /\ (exists c,
        calls_made (Cookie.handler env axios lt_coerced ToString Buffer_from fuel (PutContents
            owner repo path) (Str tok) creq) log = [c]
        /\ method c = "PUT"
        /\ data c !! "content" = Some (with_default (Str "") (b_content (Cookie.req_body creq)))).
Proof.
  assert (Hspec : forall tkn b c,
            c ∈ calls_made (spec_update env axios ToString Buffer_from tkn owner repo b) log ->
            method c = "PUT" ->
            (forall content, b_content b = Str content ->
               data c !! "content" = Some (Str (to_base64 content)))
            /\ exists text,
                 base64_of Buffer_from (b_content b) = inr text
                 /\ data c !! "content" = Some (Str text)).
  { intros tkn b c Hin Hput.
    destruct (spec_update_put env axios ToString Buffer_from tkn owner repo b log c
                Hin Hput) as (text & Hb & Hdata).
    split; [|by exists text].
    intros content Hc. rewrite Hc in Hb. injection Hb as <-. exact Hdata. }
  split; [|split; [|split; [|split]]].
  - intros c. apply Hspec.
  - intros c. apply Hspec.
  - intros content Hc. eexists. cbn [Session.handler].
    split; [apply (session_put_calls env axios ToString Buffer_from _ _ _ _ (to_base64 content));
            by rewrite Hc|].
    split; [reflexivity | apply put_payload_content].
  - intros c. cbn [Session.handler]. apply session_put_put.
  - eexists. cbn [Cookie.handler]. split; [apply cookie_put_calls|].
    split; [reflexivity | apply put_payload_content].
Qed.

(** C9, as the code has it. A spec-update request whose body has no content,
    or an empty one (or any other falsy one), is answered 400 with
    [{error: "content is required"}] and no upstream call, in both
    variants. A file write whose body has no content is not refused: the
    content defaults to the empty string and the one upstream write is made
    with it. *)
Theorem missing_content fuel (token : Value) (tok owner repo path : string)
    (creq : Cookie.Req) (user : Session.SafeUser) (sreq : Session.Req) (log : list Call) :
  (truthy (b_content (Cookie.req_body creq)) = false ->
   Cookie.handler env axios lt_coerced ToString Buffer_from fuel (SpecUpdate owner repo) token
     creq log
   = (Return (Json 400 (Obj {[ "error" := Str "content is required" ]}) []), log))
  /\ (truthy (b_content (Session.req_body sreq)) = false ->
      Session.handler env axios ToString Buffer_from (SpecUpdate owner repo) user sreq log
      = (Return (Json 400 (Obj {[ "error" := Str "content is required" ]}) []), log))
  /\ (b_content (Cookie.req_body creq) = Undefined ->
      exists c,
        calls_made (Cookie.handler env axios lt_coerced ToString Buffer_from fuel (PutContents
            owner repo path) (Str tok) creq) log = [c]
        /\ method c = "PUT" /\ data c !! "content" = Some (Str ""))
  /\ (b_content (Session.req_body sreq) = Undefined ->
      exists c,
        calls_made (Session.handler env axios ToString Buffer_from (PutContents owner repo path)
            user sreq) log = [c]
        /\ method c = "PUT" /\ data c !! "content" = Some (Str "")).
Proof.
  split; [|split; [|split]].
  - apply spec_update_no_content.
  - apply spec_update_no_content.
  - intros Hc. eexists. cbn [Cookie.handler]. split; [apply cookie_put_calls|].
    split; [reflexivity|]. rewrite Hc. apply put_payload_content.
  - intros Hc. eexists. cbn [Session.handler].
    split; [apply (session_put_calls env axios ToString Buffer_from _ _ _ _ (to_base64 ""));
            by rewrite Hc|].
    split; [reflexivity|]. apply put_payload_content.
Qed.

End WriteTheorems.

(** ** Login and logout *)

Section Credential.
Import JS Upstream Http Common.

Variable env : Env.
Variable axios : Server.
Variable toLowerCase : string -> string.
Variable lt_coerced : Value -> Z -> bool.
Variable ToString : Value -> Error + string.
Variable Buffer_from : Value -> Error + string.

(** C6, as the code has it. In the cookie variant logout answers 200 with
    [{message: "Logged out"}] and asks the browser to clear [gh_token]; it
    reads nothing of the request and the server holds no record of tokens,
    so a request that presents the old value after a logout is admitted as
    before and its handler runs with that value. *)
Theorem logout_clears_cookie_only (creq creq' : Cookie.Req) (r : Route) (v : Value) :
  Cookie.logout creq
  = Json 200 (Obj {[ "message" := Str "Logged out" ]}) [ClearCookie "gh_token"]
  /\ (Cookie.cookies creq' !! "gh_token" = Some v -> truthy v = true ->
      forall fuel,
        Cookie.ensureAuthenticated creq' = inr v
        /\ Cookie.serve env axios lt_coerced ToString Buffer_from fuel r creq'
           = Cookie.handler env axios lt_coerced ToString Buffer_from fuel r v creq').
Proof.
  split; [reflexivity|].
  intros Hc Hv fuel. split.
  - by apply cookie_guard_admits.
  - by apply cookie_serve_value.
Qed.

(** C8. In the callback of the OAuth flow the [gh_token] cookie is set, and
    in the session variant the store is written, only when the exchange
    granted a token and the verify callback let the identity through (the
    allow-list is empty or holds the login name); when the gate turns the
    identity away, the answer is a redirect to [/unauthorized.html] with no
    cookie, and the session store is left as it was. *)
Theorem credential_only_after_gate (L : list string) (sid : string) (x : Exchange)
    (store : gmap string Session.Sess) :
  let passed (allowed : list string) :=
    exists tok p,
      x = Granted tok p
      /\ (allowed = [] \/ isAllowed toLowerCase allowed p = true) in
  let refused (allowed : list string) :=
    exists tok p,
      x = Granted tok p
      /\ allowed <> [] /\ isAllowed toLowerCase allowed p = false in
  (sets_cookie "gh_token" (Cookie.callback env toLowerCase x) = true ->
   passed (Cookie.allowedUsers env))
  /\ (refused (Cookie.allowedUsers env) ->
      Cookie.callback env toLowerCase x = Redirect "/unauthorized.html" [])
  /\ (sets_cookie "gh_token" (fst (Session.callback env toLowerCase L sid x store)) = true
      \/ snd (Session.callback env toLowerCase L sid x store) <> store ->
      passed L)
  /\ (refused L ->
      Session.callback env toLowerCase L sid x store
      = (Redirect "/unauthorized.html" [], store)).
Proof.
  assert (Hgate : forall allowed tok p,
            verify toLowerCase allowed tok p
            = if bool_decide (allowed = []) || isAllowed toLowerCase allowed p
              then Some {| profile := p; token := tok |} else None)
    by apply verify_cases.
  assert (Hor : forall allowed p,
            bool_decide (allowed = []) || isAllowed toLowerCase allowed p = true ->
            allowed = [] \/ isAllowed toLowerCase allowed p = true).
  { intros allowed p H. apply orb_true_iff in H as [H | H]; [left | by right].
    by apply bool_decide_eq_true in H. }
  cbv zeta. split; [|split; [|split]].
  - destruct x as [err | | url | tok p]; cbn; try done.
    rewrite Hgate. destruct (_ || _) eqn:Hg; [|done].
    intros _. exists tok, p. split; [done|]. by apply Hor.
  - intros (tok & p & -> & Hne & Hno). cbn. rewrite Hgate, Hno.
    by rewrite bool_decide_eq_false_2.
  - destruct x as [err | | url | tok p]; cbn; try (intros [? | ?]; done).
    rewrite Hgate. destruct (_ || _) eqn:Hg; [|intros [? | ?]; done].
    intros _. exists tok, p. split; [done|]. by apply Hor.
  - intros (tok & p & -> & Hne & Hno). cbn. rewrite Hgate, Hno.
    by rewrite bool_decide_eq_false_2.
Qed.

End Credential.

(** ** The theorems at work *)

Lemma unauthorized_without_credential_witness :
  Cookie.serve Scenario.env (Scenario.always (Upstream.Resolved Scenario.octocat))
    Scenario.lt_coerced Scenario.ToString Scenario.Buffer_from 0 Http.Me (Scenario.no_cookie
        Http.empty_body) []
  = (Upstream.Return
       (Http.Json 401
          (JS.Obj {[ "error" := JS.Str "Unauthorized. Please log in via /auth/github" ]}) []),
     []).
Proof.
  apply (proj1 (unauthorized_without_credential Scenario.env
                  (Scenario.always (Upstream.Resolved Scenario.octocat)) Scenario.lt_coerced
                      Scenario.ToString Scenario.Buffer_from)).
  reflexivity.
Defined.

(** Any non-empty string passes for a token. *)
Lemma cookie_token_taken_as_is_witness :
  Cookie.serve Scenario.env (Scenario.always (Upstream.Resolved Scenario.octocat))
    Scenario.lt_coerced Scenario.ToString Scenario.Buffer_from 0 Http.Me
    {| Cookie.cookies := {[ "gh_token" := JS.Str "anything" ]}; Cookie.query := ∅;
       Cookie.req_body := Http.empty_body |}
  = Cookie.handler Scenario.env (Scenario.always (Upstream.Resolved Scenario.octocat))
      Scenario.lt_coerced Scenario.ToString Scenario.Buffer_from 0 Http.Me (JS.Str "anything")
      {| Cookie.cookies := {[ "gh_token" := JS.Str "anything" ]}; Cookie.query := ∅;
         Cookie.req_body := Http.empty_body |}.
Proof.
  apply (proj1 (proj2 (proj2 (cookie_token_taken_as_is Scenario.env
                  (Scenario.always (Upstream.Resolved Scenario.octocat))
                  Scenario.lt_coerced Scenario.ToString Scenario.Buffer_from
                  {| Cookie.cookies := {[ "gh_token" := JS.Str "anything" ]}; Cookie.query := ∅;
                     Cookie.req_body := Http.empty_body |} (JS.Str "anything"))))).
  - reflexivity.
  - reflexivity.
Defined.

(** A request that bears the cookie [gh_token=j:[1]] does not reach the
    handler with that string: the parser decoded it, the token attached is
    the array [[1]], and the call goes upstream with [token 1]. *)
Lemma cookie_token_decoded :
  Cookie.ensureAuthenticated Cases.json_cookie = inr (JS.Arr [JS.Num 1])
  /\ Cookie.serve Scenario.env (Scenario.always (Upstream.Resolved Scenario.octocat))
       Scenario.lt_coerced Scenario.ToString Scenario.Buffer_from 0 Http.Me Cases.json_cookie []
     = (Upstream.Return
          (Http.Json 200
             (JS.Obj {[ "id" := JS.Num 583231; "username" := JS.Str "octocat";
                        "displayName" := JS.Str "The Octocat";
                        "photos" := JS.Arr [JS.Obj {[ "value" := JS.Str
                            "https://avatars.example/u/583231" ]}] ]})
             []),
        [Common.opts Scenario.env "1" "GET" "/user" ∅ ∅])
  /\ Upstream.headers (Common.opts Scenario.env "1" "GET" "/user" ∅ ∅) !! "Authorization"
     = Some "token 1".
Proof. repeat split; vm_compute; reflexivity. Qed.

(** With the file present upstream, the write carries its sha. *)
Lemma spec_update_sha_witness :
  exists payload,
    Upstream.calls_made
      (Cookie.handler Scenario.env Scenario.existing_file Scenario.lt_coerced Scenario.ToString
          Scenario.Buffer_from 0
         (Http.SpecUpdate "octo" "demo") (JS.Str "gho_abc") (Scenario.with_cookie Scenario.hello))
             []
    = [Common.opts Scenario.env "gho_abc" "GET" "/repos/octo/demo/contents/spec.yaml" ∅
         {[ "ref" := JS.Undefined ]};
       Common.opts Scenario.env "gho_abc" "PUT" "/repos/octo/demo/contents/spec.yaml" payload ∅]
    /\ payload !! "sha" = Some (JS.Str "abc123").
Proof.
  apply (proj1 (spec_update_sha Scenario.env Scenario.existing_file Scenario.lt_coerced
                  Scenario.ToString Scenario.Buffer_from 0
                  (JS.Str "gho_abc") "octo" "demo" (Scenario.with_cookie Scenario.hello) "hello"
                  "/repos/octo/demo/contents/spec.yaml" "gho_abc" []
                  eq_refl ltac:(discriminate) eq_refl eq_refl)
           {[ "sha" := JS.Str "abc123"; "name" := JS.Str "spec.yaml" ]} (JS.Str "abc123")).
  - reflexivity.
  - reflexivity.
  - reflexivity.
Defined.

(** With the number 123 for content and no file upstream, the lookup fails
    and no write is attempted: [Buffer.from] refuses the number, and the
    request ends 500 after the one call. *)
Lemma spec_update_write_not_attempted :
  Cookie.serve Scenario.env Scenario.missing_file Scenario.lt_coerced
    Scenario.ToString Scenario.Buffer_from 0
    (Http.SpecUpdate "octo" "demo") (Scenario.with_cookie Cases.numeric) []
  = (Upstream.Return
       (Http.Json 500
          (JS.Obj {[ "error" :=
                       JS.Str ("The first argument must be of type string or an instance of "
                               ++ "Buffer, ArrayBuffer, or Array or an Array-like Object. "
                               ++ "Received type number (123)") ]}) []),
     [Common.opts Scenario.env "gho_abc" "GET" "/repos/octo/demo/contents/spec.yaml" ∅
        {[ "ref" := JS.Undefined ]}])
  /\ JS.truthy (Http.b_content Cases.numeric) = true
  /\ Scenario.missing_file []
       (Common.opts Scenario.env "gho_abc" "GET" "/repos/octo/demo/contents/spec.yaml" ∅
          {[ "ref" := JS.Undefined ]})
     = Upstream.Rejected Scenario.not_found.
Proof. repeat split; vm_compute; reflexivity. Qed.

(** With no file upstream, the lookup fails and the write goes out without sha. *)
Example spec_update_missing_file :
  Cookie.serve Scenario.env Scenario.missing_file Scenario.lt_coerced Scenario.ToString
      Scenario.Buffer_from 0
    (Http.SpecUpdate "octo" "demo") (Scenario.with_cookie Scenario.hello) []
  = (Upstream.Return (Http.Json 200 Scenario.created []),
     [Common.opts Scenario.env "gho_abc" "GET" "/repos/octo/demo/contents/spec.yaml" ∅
        {[ "ref" := JS.Undefined ]};
      Common.opts Scenario.env "gho_abc" "PUT" "/repos/octo/demo/contents/spec.yaml"
        {[ "message" := JS.Str "Update spec via API"; "content" := JS.Str "aGVsbG8=" ]} ∅]).
Proof. vm_compute. reflexivity. Qed.

(** The spec-update route sends [hello] as [aGVsbG8=]. *)
Lemma write_content_encoding_witness :
  Upstream.data
    (Common.opts Scenario.env "gho_abc" "PUT" "/repos/octo/demo/contents/spec.yaml"
       {[ "message" := JS.Str "Update spec via API"; "content" := JS.Str "aGVsbG8=" ]} ∅)
    !! "content"
  = Some (JS.Str "aGVsbG8=").
Proof.
  apply (proj1 (proj1 (write_content_encoding Scenario.env Scenario.missing_file
                         Scenario.lt_coerced Scenario.ToString Scenario.Buffer_from 0
                         (JS.Str "gho_abc") "gho_abc" "octo" "demo" "README.md"
                         (Scenario.with_cookie Scenario.hello)
                         Scenario.safe_user (Scenario.with_session Scenario.hello) [])
                  (Common.opts Scenario.env "gho_abc" "PUT" "/repos/octo/demo/contents/spec.yaml"
                     {[ "message" := JS.Str "Update spec via API";
                        "content" := JS.Str "aGVsbG8=" ]} ∅)
                  ltac:(vm_compute; apply list_elem_of_further, list_elem_of_here)
                  eq_refl)
           "hello").
  reflexivity.
Defined.

(** The file write of the cookie variant sends [hello] as [hello]. *)
Lemma cookie_put_not_encoded :
  Cookie.serve Scenario.env (Scenario.always (Upstream.Resolved Scenario.created))
    Scenario.lt_coerced Scenario.ToString Scenario.Buffer_from 0 (Http.PutContents "octo" "demo"
        "README.md")
    (Scenario.with_cookie Scenario.hello) []
  = (Upstream.Return (Http.Json 200 Scenario.created []),
     [Common.opts Scenario.env "gho_abc" "PUT" "/repos/octo/demo/contents/README.md"
        {[ "message" := JS.Str "Update via API"; "content" := JS.Str "hello" ]} ∅])
  /\ JS.to_base64 "hello" = "aGVsbG8=".
Proof. split; vm_compute; reflexivity. Qed.

(** A spec-update request without content is refused before any call. *)
Lemma missing_content_witness :
  Cookie.handler Scenario.env Scenario.existing_file Scenario.lt_coerced Scenario.ToString
      Scenario.Buffer_from 0
    (Http.SpecUpdate "octo" "demo") (JS.Str "gho_abc") (Scenario.with_cookie Http.empty_body) []
  = (Upstream.Return (Http.Json 400 (JS.Obj {[ "error" := JS.Str "content is required" ]}) []),
     []).
Proof.
  apply (proj1 (missing_content Scenario.env Scenario.existing_file Scenario.lt_coerced
                  Scenario.ToString Scenario.Buffer_from 0
                  (JS.Str "gho_abc") "gho_abc" "octo" "demo" "README.md"
                  (Scenario.with_cookie Http.empty_body)
                  Scenario.safe_user (Scenario.with_session Http.empty_body) [])).
  reflexivity.
Defined.

(** A file write without content is not refused, in either variant: the
    upstream call is made, with empty content, and its reply comes back 200. *)
Lemma put_without_content_forwarded :
  Cookie.serve Scenario.env (Scenario.always (Upstream.Resolved Scenario.created))
    Scenario.lt_coerced Scenario.ToString Scenario.Buffer_from 0 (Http.PutContents "octo" "demo"
        "README.md")
    (Scenario.with_cookie Http.empty_body) []
  = (Upstream.Return (Http.Json 200 Scenario.created []),
     [Common.opts Scenario.env "gho_abc" "PUT" "/repos/octo/demo/contents/README.md"
        {[ "message" := JS.Str "Update via API"; "content" := JS.Str "" ]} ∅])
  /\ Session.serve Scenario.env (Scenario.always (Upstream.Resolved Scenario.created))
       Scenario.ToString Scenario.Buffer_from
       Scenario.store (Http.PutContents "octo" "demo" "README.md")
       (Scenario.with_session Http.empty_body) []
     = (Upstream.Return (Http.Json 200 Scenario.created []),
        [Common.opts Scenario.env "gho_abc" "PUT" "/repos/octo/demo/contents/README.md"
           {[ "message" := JS.Str "Update via API"; "content" := JS.Str "" ]} ∅]).
Proof. split; vm_compute; reflexivity. Qed.

(** After a logout, a request with the old cookie reaches its handler. *)
Lemma logout_clears_cookie_only_witness :
  Cookie.ensureAuthenticated (Scenario.with_cookie Http.empty_body) = inr (JS.Str "gho_abc")
  /\ Cookie.serve Scenario.env (Scenario.always (Upstream.Resolved Scenario.octocat))
       Scenario.lt_coerced Scenario.ToString Scenario.Buffer_from 0 Http.Me
       (Scenario.with_cookie Http.empty_body)
     = Cookie.handler Scenario.env (Scenario.always (Upstream.Resolved Scenario.octocat))
         Scenario.lt_coerced Scenario.ToString Scenario.Buffer_from 0 Http.Me
         (JS.Str "gho_abc") (Scenario.with_cookie Http.empty_body).
Proof.
  apply (proj2 (logout_clears_cookie_only Scenario.env
                  (Scenario.always (Upstream.Resolved Scenario.octocat))
                  Scenario.lt_coerced Scenario.ToString Scenario.Buffer_from
                  (Scenario.with_cookie Http.empty_body) (Scenario.with_cookie Http.empty_body)
                  Http.Me (JS.Str "gho_abc"))).
  - reflexivity.
  - reflexivity.
Defined.

(** After a logout of the cookie variant, a request with the old cookie is
    served: the call goes upstream with the old token and its reply comes
    back 200. *)
Lemma cookie_survives_logout :
  Cookie.logout (Scenario.with_cookie Http.empty_body)
  = Http.Json 200 (JS.Obj {[ "message" := JS.Str "Logged out" ]}) [Http.ClearCookie "gh_token"]
  /\ Cookie.serve Scenario.env (Scenario.always (Upstream.Resolved Scenario.octocat))
       Scenario.lt_coerced Scenario.ToString Scenario.Buffer_from 0 Http.Me (Scenario.with_cookie
           Http.empty_body) []
     = (Upstream.Return
          (Http.Json 200
             (JS.Obj {[ "id" := JS.Num 583231; "username" := JS.Str "octocat";
                        "displayName" := JS.Str "The Octocat";
                        "photos" := JS.Arr [JS.Obj {[ "value" := JS.Str
                            "https://avatars.example/u/583231" ]}] ]})
             []),
        [Common.opts Scenario.env "gho_abc" "GET" "/user" ∅ ∅]).
Proof. split; vm_compute; reflexivity. Qed.

(** An identity off the list is sent to the unauthorized page, with no cookie. *)
Lemma credential_only_after_gate_witness :
  Cookie.callback Scenario.env JS.ascii_toLowerCase (Http.Granted "gho_xyz" Scenario.mallory)
  = Http.Redirect "/unauthorized.html" [].
Proof.
  apply (proj1 (proj2 (credential_only_after_gate Scenario.env JS.ascii_toLowerCase
                         ["alice"] "sid-2" (Http.Granted "gho_xyz" Scenario.mallory)
                         Scenario.store))).
  exists "gho_xyz", Scenario.mallory. split; [reflexivity|].
  split; [discriminate | reflexivity].
Defined.

(** An identity on the list gets the cookie; in the session variant, the session. *)
Example callback_admits_alice :
  Cookie.callback Scenario.env_alice JS.ascii_toLowerCase (Http.Granted "gho_abc" Scenario.alice)
  = Http.Redirect "/" [Http.token_cookie Scenario.env_alice "gho_abc"]
  /\ Session.req_user
       (snd (Session.callback Scenario.env_alice JS.ascii_toLowerCase ["ALICE"; "bob"] "sid-1"
               (Http.Granted "gho_abc" Scenario.alice) ∅))
       (Scenario.with_session Http.empty_body)
     = Some {| Session.s_id := JS.Num 7; Session.s_username := JS.Str "alice";
               Session.s_displayName := JS.Str "Alice A."; Session.s_photos := JS.Undefined;
               Session.s_token := "gho_abc" |}.
Proof. split; vm_compute; reflexivity. Qed.

(** * Further properties of the routes *)

(** ** What goes upstream *)

Section Adds.
Import JS Upstream Http Common Calls.

Variable env : Env.
Variable axios : Server.
Variable lt_coerced : Value -> Z -> bool.
Variable ToString : Value -> Error + string.
Variable Buffer_from : Value -> Error + string.

Lemma adds_silent {A} (P : Call -> Prop) (m : M A) :
  (forall log, snd (m log) = log) -> adds P m.
Proof. intros H log. exists []. by rewrite H, app_nil_r. Qed.

Lemma adds_request (P : Call -> Prop) (c : Call) : P c -> adds P (request axios c).
Proof. intros H log. exists [c]. rewrite request_log. by repeat constructor. Qed.

Lemma adds_bind {A B} (P : Call -> Prop) (m : M A) (k : A -> M B) :
  adds P m -> (forall a, adds P (k a)) -> adds P (bind m k).
Proof.
  intros Hm Hk log. destruct (Hm log) as (new1 & Hlog1 & HP1).
  unfold bind. destruct (m log) as [[a|e|] log1]; cbn in Hlog1; subst log1.
  - destruct (Hk a (log ++ new1)%list) as (new2 & Hlog2 & HP2).
    exists (new1 ++ new2)%list. rewrite Hlog2, app_assoc. split; [done|].
    by apply Forall_app.
  - by exists new1.
  - by exists new1.
Qed.

Lemma adds_try_catch {A} (P : Call -> Prop) (m : M A) (h : Error -> M A) :
  adds P m -> (forall e, adds P (h e)) -> adds P (try_catch m h).
Proof.
  intros Hm Hh log. destruct (Hm log) as (new1 & Hlog1 & HP1).
  unfold try_catch. destruct (m log) as [[a|e|] log1]; cbn in Hlog1; subst log1.
  - by exists new1.
  - destruct (Hh e (log ++ new1)%list) as (new2 & Hlog2 & HP2).
    exists (new1 ++ new2)%list. rewrite Hlog2, app_assoc. split; [done|].
    by apply Forall_app.
  - by exists new1.
Qed.

Lemma adds_calls_made {A} (P : Call -> Prop) (m : M A) (log : list Call) (c : Call) :
  adds P m -> c ∈ calls_made m log -> P c.
Proof.
  intros Hm Hin. destruct (Hm log) as (new & Hlog & HP).
  rewrite (calls_made_app m log new Hlog) in Hin.
  by apply (proj1 (Forall_forall P new) HP c).
Qed.

Lemma adds_ret {A} (P : Call -> Prop) (a : A) : adds P (ret a).
Proof. by apply adds_silent. Qed.

Lemma adds_throw {A} (P : Call -> Prop) (e : Error) : adds P (@throw A e).
Proof. by apply adds_silent. Qed.

Lemma adds_destructured (P : Call -> Prop) (k var : string) (v : Value) :
  adds P (destructured k var v).
Proof. apply adds_silent. intros log. by destruct v. Qed.

Lemma adds_member (P : Call -> Prop) (k : string) (v : Value) : adds P (member k v).
Proof. apply adds_silent. intros log. by destruct v. Qed.

Lemma adds_mark_pushed (P : Call -> Prop) (v : Value) : adds P (Cookie.mark_pushed v).
Proof. apply adds_silent. intros log. by destruct v. Qed.

Lemma adds_attempt {A} (P : Call -> Prop) (r : Error + A) : adds P (attempt r).
Proof. apply adds_silent. intros log. by destruct r. Qed.

Lemma adds_githubRequest (P : Call -> Prop) (token : Value) (method path : string)
    (data params : gmap string Value) :
  (forall t, text_of ToString token = inr t -> P (opts env t method path data params)) ->
  adds P (githubRequest env axios ToString token method path data params).
Proof.
  intros HP. unfold githubRequest.
  destruct (text_of ToString token) as [e|t]; cbn [attempt].
  - by apply adds_silent.
  - intros log. destruct (adds_request P _ (HP t eq_refl) log) as (new & Hlog & Hnew).
    by exists new.
Qed.

Lemma adds_repos_loop (P : Call -> Prop) (token : Value) (q : gmap string Value) :
  (forall t page, text_of ToString token = inr t ->
     P (opts env t "GET" "/user/repos" ∅ (Cookie.page_params q page))) ->
  forall (fuel : nat) (acc : list Value) (page : Z),
    adds P (Cookie.repos_loop env axios lt_coerced ToString fuel token q acc page).
Proof.
  intros HP fuel. induction fuel as [|fuel IH]; intros acc page; cbn [Cookie.repos_loop].
  - by apply adds_silent.
  - apply adds_bind; [apply adds_githubRequest; intros t Ht; by apply HP|]. intros repos.
    destruct (Cookie.shorter_than lt_coerced repos Cookie.per_page) as [[|]|];
      [apply adds_ret | apply IH | apply adds_throw].
Qed.

Lemma adds_forward (P : Call -> Prop) (token : Value) (path : string) (q : gmap string Value) :
  (forall t, text_of ToString token = inr t -> P (opts env t "GET" path ∅ q)) ->
  adds P (forward env axios ToString token path q).
Proof.
  intros HP. apply adds_try_catch; [|intros e; apply adds_ret].
  apply adds_bind; [|intros d; apply adds_ret].
  by apply adds_githubRequest.
Qed.

Lemma adds_spec_update (P : Call -> Prop) (token : Value) (owner repo : string) (b : Body) :
  (forall t method path data params,
     text_of ToString token = inr t -> P (opts env t method path data params)) ->
  adds P (spec_update env axios ToString Buffer_from token owner repo b).
Proof.
  intros HP. apply adds_try_catch; [|intros e; apply adds_ret]. cbv zeta.
  destruct (negb _); [apply adds_ret|].
  apply adds_bind.
  - apply adds_try_catch; [|intros e; apply adds_ret].
    apply adds_bind; [apply adds_attempt|]. intros url.
    apply adds_bind; [|intros d; apply adds_member].
    apply adds_githubRequest. intros t Ht. by apply HP.
  - intros sha. apply adds_bind; [apply adds_attempt|]. intros text.
    apply adds_bind; [apply adds_attempt|]. intros url.
    apply adds_bind; [|intros d; apply adds_ret].
    apply adds_githubRequest. intros t Ht. by apply HP.
Qed.

(** Each handler of the cookie variant adds only calls that [P] admits,
    when [P] admits the calls the source writes for the route. *)
Lemma adds_cookie_handler (P : Call -> Prop) (fuel : nat) (r : Route) (token : Value)
    (req : Cookie.Req) :
  (forall t method path data params,
     text_of ToString token = inr t ->
     (read_route r = true -> method = "GET" /\ data = ∅) ->
     P (opts env t method path data params)) ->
  adds P (Cookie.handler env axios lt_coerced ToString Buffer_from fuel r token req).
Proof.
  intros HP.
  assert (Hfwd : forall path q, read_route r = true ->
            adds P (forward env axios ToString token path q)).
  { intros path q Hr. apply adds_forward. intros t Ht. by apply HP. }
  destruct r; cbn [Cookie.handler]; try (by apply Hfwd).
  - apply adds_try_catch; [|intros e; apply adds_ret].
    apply adds_bind; [apply adds_githubRequest; intros t Ht; by apply HP|]. intros me.
    repeat (apply adds_bind; [apply adds_destructured|intros ?]). apply adds_ret.
  - apply adds_try_catch; [|intros e; apply adds_ret].
    apply adds_bind; [|intros items; apply adds_ret].
    apply adds_repos_loop. intros t page Ht. by apply HP.
  - apply adds_spec_update. intros t method path data params Ht. by apply HP.
  - apply adds_try_catch; [|intros e; apply adds_ret]. cbv zeta.
    apply adds_bind; [apply adds_githubRequest; intros t Ht; by apply HP|]. intros d.
    apply adds_bind; [|intros d'; apply adds_ret].
    destruct (truthy _); [apply adds_mark_pushed | apply adds_ret].
Qed.

Lemma adds_session_handler (P : Call -> Prop) (r : Route) (user : Session.SafeUser)
    (req : Session.Req) :
  (forall method path data params,
     (read_route r = true -> method = "GET" /\ data = ∅) ->
     P (opts env (Session.s_token user) method path data params)) ->
  adds P (Session.handler env axios ToString Buffer_from r user req).
Proof.
  intros HP.
  assert (Hfwd : forall path q, read_route r = true ->
            adds P (forward env axios ToString (Str (Session.s_token user)) path q)).
  { intros path q Hr. apply adds_forward. intros t [= <-]. by apply HP. }
  destruct r; cbn [Session.handler]; try (by apply Hfwd).
  - apply adds_ret.
  - apply adds_spec_update. intros t method path data params [= <-]. by apply HP.
  - apply adds_try_catch; [|intros e; apply adds_ret]. cbv zeta.
    apply adds_bind; [apply adds_attempt|]. intros text.
    apply adds_bind; [|intros d; apply adds_ret].
    apply adds_githubRequest. intros t [= <-]. by apply HP.
Qed.

Lemma adds_cookie_serve (P : Call -> Prop) (fuel : nat) (r : Route) (req : Cookie.Req) :
  (forall v t method path data params,
     Cookie.cookies req !! "gh_token" = Some v -> truthy v = true ->
     text_of ToString v = inr t ->
     (read_route r = true -> method = "GET" /\ data = ∅) ->
     P (opts env t method path data params)) ->
  adds P (Cookie.serve env axios lt_coerced ToString Buffer_from fuel r req).
Proof.
  intros HP. unfold Cookie.serve.
  destruct (Cookie.ensureAuthenticated req) as [res|token] eqn:Hg; [apply adds_ret|].
  apply cookie_guard_admits in Hg as [Hc Hne].
  apply adds_cookie_handler. intros. by apply (HP token).
Qed.

Lemma adds_session_serve (P : Call -> Prop) (store : gmap string Session.Sess)
    (r : Route) (req : Session.Req) :
  (forall user method path data params,
     Session.req_user store req = Some user -> Session.s_token user <> "" ->
     (read_route r = true -> method = "GET" /\ data = ∅) ->
     P (opts env (Session.s_token user) method path data params)) ->
  adds P (Session.serve env axios ToString Buffer_from store r req).
Proof.
  intros HP. unfold Session.serve, Session.ensureAuthenticated.
  destruct (Session.req_user store req) as [user|] eqn:Hu; [|apply adds_ret].
  destruct (nonempty (Session.s_token user)) eqn:Hne; [|apply adds_ret].
  apply nonempty_true in Hne.
  apply adds_session_handler. intros. by apply HP.
Qed.

End Adds.

Section Upstreamward.
Import JS Upstream Http Common Calls.

Variable env : Env.
Variable axios : Server.
Variable lt_coerced : Value -> Z -> bool.
Variable ToString : Value -> Error + string.
Variable Buffer_from : Value -> Error + string.

Lemma opts_headers (token method path : string) (data params : gmap string Value) :
  headers (opts env token method path data params) !! "Authorization"
  = Some ("token " ++ token)
  /\ headers (opts env token method path data params) !! "User-Agent"
     = Some (or_string (APP_NAME env) "github-server")
  /\ headers (opts env token method path data params) !! "Accept"
     = Some "application/vnd.github.v3+json".
Proof. cbn [opts headers]. by repeat split. Qed.


(** X2. The routes registered with [app.get] (me, repos, branches, both
    contents routes, commits, trees) only ever send [GET] upstream, with an
    empty request body: reading through the proxy never writes. *)
Theorem read_routes_only_get fuel (store : gmap string Session.Sess) (r : Route)
    (creq : Cookie.Req) (sreq : Session.Req) (log : list Call) (c : Call) :
  read_route r = true ->
  (c ∈ calls_made (Cookie.serve env axios lt_coerced ToString Buffer_from fuel r creq) log ->
   method c = "GET" /\ data c = ∅)
  /\ (c ∈ calls_made (Session.serve env axios ToString Buffer_from store r sreq) log ->
      method c = "GET" /\ data c = ∅).
Proof.
  intros Hr. split; intros Hin; pattern c.
  - eapply adds_calls_made; [|exact Hin]. apply adds_cookie_serve.
    intros v t method path data params _ _ _ H. by destruct (H Hr) as [-> ->].
  - eapply adds_calls_made; [|exact Hin]. apply adds_session_serve.
    intros user method path data params _ _ H. by destruct (H Hr) as [-> ->].
Qed.

Lemma relay_is_json (e : Error) : is_json (relay e).
Proof. unfold relay, is_json. eauto. Qed.

Lemma settles_ret {A} (Q : A -> Prop) (a : A) : Q a -> settles Q (ret a).
Proof. by intros H log. Qed.

Lemma settles_attempt {A} (r : Error + A) : settles (fun _ => True) (attempt r).
Proof. intros log. by destruct r. Qed.

Lemma settles_request (c : Call) : settles (fun _ => True) (request axios c).
Proof. intros log. unfold request. by destruct (axios log c). Qed.

Lemma settles_bind {A B} (Q : B -> Prop) (m : M A) (k : A -> M B) :
  settles (fun _ => True) m -> (forall a, settles Q (k a)) -> settles Q (bind m k).
Proof.
  intros Hm Hk log. specialize (Hm log). unfold bind.
  destruct (m log) as [[a|e|] log1]; cbn in Hm |- *; [apply Hk | done | done].
Qed.

Lemma settles_try_catch {A} (Q : A -> Prop) (m : M A) (h : Error -> M A) :
  settles Q m -> (forall e, settles Q (h e)) -> settles Q (try_catch m h).
Proof.
  intros Hm Hh log. specialize (Hm log). unfold try_catch.
  destruct (m log) as [[a|e|] log1]; cbn in Hm |- *; [done | apply Hh | done].
Qed.

Lemma settles_githubRequest (token : Value) (method path : string)
    (data params : gmap string Value) :
  settles (fun _ => True) (githubRequest env axios ToString token method path data params).
Proof.
  apply settles_bind; [apply settles_attempt | intros t; apply settles_request].
Qed.

Lemma settles_destructured (k var : string) (v : Value) :
  settles (fun _ => True) (destructured k var v).
Proof. intros log. by destruct v. Qed.

Lemma settles_member (k : string) (v : Value) : settles (fun _ => True) (member k v).
Proof. intros log. by destruct v. Qed.

Lemma settles_mark_pushed (v : Value) : settles (fun _ => True) (Cookie.mark_pushed v).
Proof. intros log. by destruct v. Qed.

(** A route that ends in the common [catch] block answers with JSON as
    soon as its body is never left waiting. *)
Lemma caught_answers (m : M Res) (log : list Call) :
  settles is_json m ->
  is_json_answer (fst (try_catch m (fun err => ret (relay err)) log)).
Proof.
  intros Hm. specialize (Hm log). unfold try_catch, is_json_answer.
  destruct (m log) as [[a|e|] log1]; cbn in Hm |- *.
  - destruct Hm as (status & body & ->). eauto.
  - destruct (relay_is_json e) as (status & body & ->). eauto.
  - done.
Qed.

Lemma forward_answers (token : Value) (path : string) (q : gmap string Value)
    (log : list Call) :
  is_json_answer (fst (forward env axios ToString token path q log)).
Proof.
  apply caught_answers, settles_bind; [apply settles_githubRequest|].
  intros d. apply settles_ret. unfold is_json. eauto.
Qed.

Lemma spec_update_answers (token : Value) (owner repo : string) (b : Body) (log : list Call) :
  is_json_answer (fst (spec_update env axios ToString Buffer_from token owner repo b log)).
Proof.
  apply caught_answers. cbv zeta.
  destruct (negb _); [apply settles_ret; unfold is_json, content_required; eauto|].
  apply settles_bind.
  { apply settles_try_catch; [|intros e; by apply settles_ret].
    apply settles_bind; [apply settles_attempt|]. intros url.
    apply settles_bind; [apply settles_githubRequest | intros d; apply settles_member]. }
  intros sha. apply settles_bind; [apply settles_attempt|]. intros text.
  apply settles_bind; [apply settles_attempt|]. intros url.
  apply settles_bind; [apply settles_githubRequest|].
  intros d. apply settles_ret. unfold is_json. eauto.
Qed.

Lemma cookie_handler_answers (fuel : nat) (r : Route) (token : Value) (req : Cookie.Req)
    (log : list Call) :
  is_json_answer (fst (Cookie.handler env axios lt_coerced ToString Buffer_from fuel r token req
      log))
  \/ (r = Repos
      /\ fst (Cookie.handler env axios lt_coerced ToString Buffer_from fuel r token req log) =
          Pending).
Proof.
  destruct r; cbn [Cookie.handler];
    try (left; apply forward_answers); try (left; apply spec_update_answers).
  - left. apply caught_answers.
    apply settles_bind; [apply settles_githubRequest|]. intros me.
    repeat (apply settles_bind; [apply settles_destructured|intros ?]).
    apply settles_ret. unfold is_json. eauto.
  - unfold Cookie.repos, try_catch, bind, is_json_answer.
    destruct (Cookie.repos_loop _ _ _ _ _ _ _ _ _ _) as [[items|e|] log']; cbn.
    + left. eauto.
    + left. destruct (relay_is_json e) as (status & body & ->). eauto.
    + by right.
  - left. apply caught_answers. cbv zeta.
    apply settles_bind; [apply settles_githubRequest|]. intros d.
    apply settles_bind.
    + destruct (truthy _); [apply settles_mark_pushed | by apply settles_ret].
    + intros d'. apply settles_ret. unfold is_json. eauto.
Qed.

Lemma session_handler_answers (r : Route) (user : Session.SafeUser) (req : Session.Req)
    (log : list Call) :
  is_json_answer (fst (Session.handler env axios ToString Buffer_from r user req log)).
Proof.
  destruct r; cbn [Session.handler];
    try apply forward_answers; try apply spec_update_answers.
  - unfold is_json_answer, is_json. cbn. eauto.
  - apply caught_answers. cbv zeta.
    apply settles_bind; [apply settles_attempt|]. intros text.
    apply settles_bind; [apply settles_githubRequest|].
    intros d. apply settles_ret. unfold is_json. eauto.
Qed.

(** X3. Whatever upstream does (a reply of any shape, an error of any
    kind), and whatever the request holds (a token or a path without a
    text, a content that cannot be encoded), no exception leaves a protected
    route: every request is answered with a JSON response, without redirect
    and without touching a cookie. The one exception is the
    list-repositories loop of the cookie variant, which may still be
    waiting for a page when its rounds are spent. *)
Theorem routes_always_answer fuel (store : gmap string Session.Sess) (r : Route)
    (creq : Cookie.Req) (sreq : Session.Req) (log : list Call) :
  ((exists status body,
      fst (Cookie.serve env axios lt_coerced ToString Buffer_from fuel r creq log)
      = Return (Json status body []))
   \/ (r = Repos
       /\ fst (Cookie.serve env axios lt_coerced ToString Buffer_from fuel r creq log) = Pending))
  /\ (exists status body,
        fst (Session.serve env axios ToString Buffer_from store r sreq log) = Return (Json status
            body [])).
Proof.
  split.
  - unfold Cookie.serve, Cookie.ensureAuthenticated.
    destruct (negb _); [left; cbn; unfold unauthorized; eauto|].
    apply cookie_handler_answers.
  - unfold Session.serve, Session.ensureAuthenticated.
    destruct (Session.req_user store sreq) as [user|]; [|cbn; unfold unauthorized; eauto].
    destruct (nonempty _); [|cbn; unfold unauthorized; eauto].
    apply session_handler_answers.
Qed.

End Upstreamward.

(** ** The list-repositories loop, whatever upstream answers *)

Section Pages.
Import JS Upstream Http Common Run Calls.

Variable env : Env.
Variable axios : Server.
Variable lt_coerced : Value -> Z -> bool.
Variable ToString : Value -> Error + string.
Variable Buffer_from : Value -> Error + string.

Lemma page_calls_1 (token : string) (q : gmap string Value) (page : Z) :
  page_calls env token q page 1
  = [opts env token "GET" "/user/repos" ∅ (Cookie.page_params q page)].
Proof. by rewrite page_calls_S. Qed.

Lemma page_calls_lookup (token : string) (q : gmap string Value) (first : Z) (n i : nat)
    (c : Call) :
  page_calls env token q first n !! i = Some c ->
  (i < n)%nat
  /\ c = opts env token "GET" "/user/repos" ∅ (Cookie.page_params q (first + Z.of_nat i)).
Proof.
  unfold page_calls. rewrite list_lookup_fmap. intros H.
  destruct (seq 0 n !! i) as [k|] eqn:Hk; [|done].
  apply lookup_seq in Hk as [-> Hlt]. cbn in H. injection H as <-. by split.
Qed.

Lemma page_params_lookup (q : gmap string Value) (page : Z) :
  Cookie.page_params q page !! "page" = Some (Num page)
  /\ Cookie.page_params q page !! "per_page" = Some (Num 100)
  /\ (forall key, key <> "page" -> key <> "per_page" ->
        Cookie.page_params q page !! key = q !! key).
Proof.
  unfold Cookie.page_params. split; [apply lookup_insert_eq|]. split.
  - by rewrite lookup_insert_ne, lookup_insert_eq.
  - intros key H1 H2. by rewrite !lookup_insert_ne.
Qed.

(** The loop asks for successive pages and for nothing else. *)
Lemma repos_loop_calls (token : string) (q : gmap string Value) (fuel : nat) :
  forall (acc : list Value) (page : Z) (log : list Call),
    exists n,
      (n <= fuel)%nat
      /\ snd (Cookie.repos_loop env axios lt_coerced ToString fuel (Str token) q acc page log)
         = (log ++ page_calls env token q page n)%list.
Proof.
  induction fuel as [|fuel IH]; intros acc page log.
  - exists 0%nat. split; [done|]. cbn. by rewrite app_nil_r.
  - cbn [Cookie.repos_loop]. unfold githubRequest, text_of, attempt, bind, ret, request.
    destruct (axios _ _) as [d|e].
    + destruct (Cookie.shorter_than lt_coerced d Cookie.per_page) as [[|]|].
      * exists 1%nat. split; [lia|]. by rewrite page_calls_1.
      * destruct (IH (Cookie.concat acc d) (page + 1)
                    (log ++ [opts env token "GET" "/user/repos" ∅
                               (Cookie.page_params q page)])%list)
          as (n & Hn & Hlog).
        exists (S n). split; [lia|].
        rewrite Hlog, page_calls_S, <- app_assoc. done.
      * exists 1%nat. split; [lia|]. by rewrite page_calls_1.
    + exists 1%nat. split; [lia|]. by rewrite page_calls_1.
Qed.

(** On full pages the loop goes on for as long as it is given rounds. *)
Lemma repos_loop_waits (token : string) (q : gmap string Value) :
  (forall log c, exists items, axios log c = Resolved (Arr items) /\ full items) ->
  forall (fuel : nat) (acc : list Value) (page : Z) (log : list Call),
    Cookie.repos_loop env axios lt_coerced ToString fuel (Str token) q acc page log
    = (Pending, (log ++ page_calls env token q page fuel)%list).
Proof.
  intros Hax fuel. induction fuel as [|fuel IH]; intros acc page log.
  - cbn. by rewrite app_nil_r.
  - cbn [Cookie.repos_loop]. unfold githubRequest, text_of, attempt, bind, ret.
    destruct (Hax log (opts env token "GET" "/user/repos" ∅ (Cookie.page_params q page)))
      as (items & Hres & Hfull).
    rewrite (request_resolved _ _ _ _ Hres), (shorter_than_full _ _ Hfull), IH.
    by rewrite page_calls_S, <- app_assoc.
Qed.

(** X4. In the cookie variant, whatever upstream answers (pages of any
    shape, errors), the calls of the list-repositories route are the pages
    1, 2, 3, ... in order, one per round of the loop: the i-th call is a
    [GET] of [/user/repos] whose [page] is i and whose [per_page] is 100,
    also when the request's own query names a [page] or a [per_page]; every
    other parameter of the query is passed on unchanged with each page. *)
Theorem repos_calls_are_pages fuel (req : Cookie.Req) (tok : string) (log : list Call) :
  Cookie.cookies req !! "gh_token" = Some (Str tok) -> tok <> "" ->
  (length (calls_made (Cookie.serve env axios lt_coerced ToString Buffer_from fuel Repos req) log)
      <= fuel)%nat
  /\ forall (i : nat) (c : Call),
       calls_made (Cookie.serve env axios lt_coerced ToString Buffer_from fuel Repos req) log !! i
           = Some c ->
       method c = "GET"
       /\ url c = "https://api.github.com/user/repos"
       /\ params c !! "page" = Some (Num (1 + Z.of_nat i))
       /\ params c !! "per_page" = Some (Num 100)
       /\ (forall key, key <> "page" -> key <> "per_page" ->
             params c !! key = Cookie.query req !! key).
Proof.
  intros Hc Hne.
  rewrite (cookie_serve_admitted env axios lt_coerced ToString Buffer_from req tok fuel Repos Hc
      Hne).
  cbn [Cookie.handler].
  destruct (repos_loop_calls tok (Cookie.query req) fuel [] 1 log) as (n & Hn & Hlog).
  assert (Hcalls : calls_made (Cookie.repos env axios lt_coerced ToString fuel (Str tok) req) log
                   = page_calls env tok (Cookie.query req) 1 n).
  { apply calls_made_app. unfold Cookie.repos, try_catch, bind.
    destruct (Cookie.repos_loop _ _ _ _ _ _ _ _ _ _) as [[items|e|] log']; cbn in *; done. }
  rewrite Hcalls. split.
  - unfold page_calls. by rewrite length_map, length_seq.
  - intros i c Hi. apply page_calls_lookup in Hi as [_ ->].
    cbn [method url params opts].
    destruct (page_params_lookup (Cookie.query req) (1 + Z.of_nat i)) as (H1 & H2 & H3).
    by repeat split.
Qed.

(** X5. In the cookie variant the list-repositories loop has no bound of its
    own: on an upstream that answers every page with 100 items or more, the
    route is still waiting after any number of rounds, having made one call
    per round. It ends only on a page with fewer than 100 items or on an
    error. *)
Theorem repos_waits_on_full_pages (req : Cookie.Req) (tok : string) (log : list Call) :
  Cookie.cookies req !! "gh_token" = Some (Str tok) -> tok <> "" ->
  (forall log c, exists items, axios log c = Resolved (Arr items) /\ full items) ->
  forall fuel,
    fst (Cookie.serve env axios lt_coerced ToString Buffer_from fuel Repos req log) = Pending
    /\ length (calls_made (Cookie.serve env axios lt_coerced ToString Buffer_from fuel Repos req)
        log) = fuel.
Proof.
  intros Hc Hne Hax fuel.
  rewrite (cookie_serve_admitted env axios lt_coerced ToString Buffer_from req tok fuel Repos Hc
      Hne).
  cbn [Cookie.handler].
  pose proof (repos_loop_waits tok (Cookie.query req) Hax fuel [] 1 log) as Hrun.
  split.
  - unfold Cookie.repos, try_catch, bind. by rewrite Hrun.
  - rewrite (calls_made_app _ log (page_calls env tok (Cookie.query req) 1 fuel)).
    + unfold page_calls. by rewrite length_map, length_seq.
    + unfold Cookie.repos, try_catch, bind. by rewrite Hrun.
Qed.

End Pages.

(** ** The forwarding routes and the cost of a request *)

Section Forwarding.
Import JS Upstream Http Common Run Calls.

Variable env : Env.
Variable axios : Server.
Variable lt_coerced : Value -> Z -> bool.
Variable ToString : Value -> Error + string.
Variable Buffer_from : Value -> Error + string.

Lemma forward_run (token path : string) (q : gmap string Value) (log : list Call) :
  snd (forward env axios ToString (Str token) path q log)
  = (log ++ [opts env token "GET" path ∅ q])%list
  /\ (forall d, axios log (opts env token "GET" path ∅ q) = Resolved d ->
        fst (forward env axios ToString (Str token) path q log) = Return (Json 200 d [])).
Proof.
  unfold forward, try_catch, githubRequest, text_of, attempt, bind, ret, request.
  destruct (axios _ _) as [d|e]; cbn; split; try done. by intros ? [= ->].
Qed.

(** X6. The routes for branches, contents (root and path), commits and
    trees are pure pass-through in both variants: an authenticated request
    costs exactly one upstream [GET], with an empty body and with the
    query of the request as its parameters, unchanged; and when upstream
    answers 2xx with data d, the proxy answers 200 with d, untouched. *)
Theorem forwarding_contract fuel (store : gmap string Session.Sess) (r : Route)
    (creq : Cookie.Req) (sreq : Session.Req) (tok : string) (user : Session.SafeUser)
    (log : list Call) :
  forwarding r = true ->
  (Cookie.cookies creq !! "gh_token" = Some (Str tok) -> tok <> "" ->
   exists c,
     calls_made (Cookie.serve env axios lt_coerced ToString Buffer_from fuel r creq) log = [c]
     /\ method c = "GET" /\ data c = ∅ /\ params c = Cookie.query creq
     /\ (forall d, axios log c = Resolved d ->
           fst (Cookie.serve env axios lt_coerced ToString Buffer_from fuel r creq log) = Return
               (Json 200 d [])))
  /\ (Session.req_user store sreq = Some user -> Session.s_token user <> "" ->
      exists c,
        calls_made (Session.serve env axios ToString Buffer_from store r sreq) log = [c]
        /\ method c = "GET" /\ data c = ∅ /\ params c = Session.query sreq
        /\ (forall d, axios log c = Resolved d ->
              fst (Session.serve env axios ToString Buffer_from store r sreq log) = Return (Json
                  200 d []))).
Proof.
  intros Hr. split.
  - intros Hc Hne.
    rewrite (cookie_serve_admitted env axios lt_coerced ToString Buffer_from creq tok fuel r Hc
        Hne).
    destruct r; try discriminate Hr; cbn [Cookie.handler];
      (eexists; split; [apply calls_made_app, forward_run|];
       repeat split; apply forward_run).
  - intros Hu Hne. unfold Session.serve, Session.ensureAuthenticated.
    rewrite Hu. apply nonempty_true in Hne. rewrite Hne.
    destruct r; try discriminate Hr; cbn [Session.handler];
      (eexists; split; [apply calls_made_app, forward_run|];
       repeat split; apply forward_run).
Qed.

Lemma at_most_silent {A} (m : M A) : (forall log, snd (m log) = log) -> at_most 0 m.
Proof. intros H log. exists []. by rewrite H, app_nil_r. Qed.

Lemma at_most_request (c : Call) : at_most 1 (request axios c).
Proof. intros log. exists [c]. by rewrite request_log. Qed.

Lemma at_most_more {A} (n n' : nat) (m : M A) : (n <= n')%nat -> at_most n m -> at_most n' m.
Proof. intros Hle Hm log. destruct (Hm log) as (new & Hlog & Hlen). exists new. split; [done |
    lia]. Qed.

Lemma at_most_bind {A B} (a b : nat) (m : M A) (k : A -> M B) :
  at_most a m -> (forall x, at_most b (k x)) -> at_most (a + b) (bind m k).
Proof.
  intros Hm Hk log. destruct (Hm log) as (new1 & Hlog1 & Hlen1).
  unfold bind. destruct (m log) as [[x|e|] log1]; cbn in Hlog1; subst log1.
  - destruct (Hk x (log ++ new1)%list) as (new2 & Hlog2 & Hlen2).
    exists (new1 ++ new2)%list. rewrite Hlog2, app_assoc, length_app. split; [done | lia].
  - exists new1. split; [done | lia].
  - exists new1. split; [done | lia].
Qed.

Lemma at_most_try_catch {A} (a : nat) (m : M A) (h : Error -> M A) :
  at_most a m -> (forall e log, snd (h e log) = log) -> at_most a (try_catch m h).
Proof.
  intros Hm Hh log. destruct (Hm log) as (new & Hlog & Hlen).
  unfold try_catch. destruct (m log) as [[x|e|] log1]; cbn in Hlog; subst log1.
  - by exists new.
  - exists new. by rewrite Hh.
  - by exists new.
Qed.

Lemma at_most_attempt {A} (r : Error + A) : at_most 0 (attempt r).
Proof. apply at_most_silent. intros log. by destruct r. Qed.

Lemma at_most_githubRequest (token : Value) (method path : string)
    (data params : gmap string Value) :
  at_most 1 (githubRequest env axios ToString token method path data params).
Proof.
  apply (at_most_bind 0 1); [apply at_most_attempt | intros t; apply at_most_request].
Qed.

Lemma at_most_calls {A} (n : nat) (m : M A) (log : list Call) :
  at_most n m -> (length (calls_made m log) <= n)%nat.
Proof.
  intros Hm. destruct (Hm log) as (new & Hlog & Hlen).
  by rewrite (calls_made_app m log new Hlog).
Qed.

Lemma forward_at_most (token : Value) (path : string) (q : gmap string Value) :
  at_most 1 (forward env axios ToString token path q).
Proof.
  apply at_most_try_catch; [|done].
  apply (at_most_bind 1 0); [apply at_most_githubRequest|].
  intros d. by apply at_most_silent.
Qed.

Lemma spec_update_at_most (token : Value) (owner repo : string) (b : Body) :
  at_most 2 (spec_update env axios ToString Buffer_from token owner repo b).
Proof.
  apply at_most_try_catch; [|done]. cbv zeta.
  destruct (negb _); [apply (at_most_more 0); [lia | by apply at_most_silent]|].
  apply (at_most_bind 1 1).
  - apply at_most_try_catch; [|done].
    apply (at_most_bind 0 1); [apply at_most_attempt|]. intros url.
    apply (at_most_bind 1 0); [apply at_most_githubRequest|].
    intros d. apply at_most_silent. intros log. by destruct d.
  - intros sha. apply (at_most_bind 0 1); [apply at_most_attempt|]. intros text.
    apply (at_most_bind 0 1); [apply at_most_attempt|]. intros url.
    apply (at_most_bind 1 0); [apply at_most_githubRequest|].
    intros d. by apply at_most_silent.
Qed.

(** X7. A request costs at most two upstream calls, whatever upstream
    answers and whatever the request holds: on every route of the session
    variant, and on every route of the cookie variant but list-repositories
    (whose cost is one call per page). *)
Theorem request_costs_two_calls fuel (store : gmap string Session.Sess) (r : Route)
    (creq : Cookie.Req) (sreq : Session.Req) (log : list Call) :
  (r <> Repos ->
   (length (calls_made (Cookie.serve env axios lt_coerced ToString Buffer_from fuel r creq) log)
       <= 2)%nat)
  /\ (length (calls_made (Session.serve env axios ToString Buffer_from store r sreq) log) <= 2)%nat.
Proof.
  split.
  - intros Hr. apply at_most_calls. unfold Cookie.serve.
    destruct (Cookie.ensureAuthenticated creq) as [res|token].
    { apply (at_most_more 0); [lia | by apply at_most_silent]. }
    destruct r; cbn [Cookie.handler]; try done;
      try (apply (at_most_more 1); [lia | apply forward_at_most]);
      try apply spec_update_at_most.
    + apply (at_most_more 1); [lia|]. apply at_most_try_catch; [|done].
      apply (at_most_bind 1 0); [apply at_most_githubRequest|]. intros me.
      apply at_most_silent. intros log'. unfold bind. by destruct me.
    + apply (at_most_more 1); [lia|]. apply at_most_try_catch; [|done]. cbv zeta.
      apply (at_most_bind 1 0); [apply at_most_githubRequest|]. intros d.
      apply at_most_silent. intros log'. unfold bind.
      destruct (truthy _); [|done]. by destruct d.
  - apply at_most_calls. unfold Session.serve.
    destruct (Session.ensureAuthenticated store sreq) as [res|user].
    { apply (at_most_more 0); [lia | by apply at_most_silent]. }
    destruct r; cbn [Session.handler];
      try (apply (at_most_more 1); [lia | apply forward_at_most]);
      try apply spec_update_at_most.
    + apply (at_most_more 0); [lia | by apply at_most_silent].
    + apply (at_most_more 1); [lia|]. apply at_most_try_catch; [|done]. cbv zeta.
      apply (at_most_bind 0 1); [apply at_most_attempt|]. intros text.
      apply (at_most_bind 1 0); [apply at_most_githubRequest|]. intros d.
      by apply at_most_silent.
Qed.

End Forwarding.

(** ** The profile route *)

Section Profile.
Import JS Upstream Http Common Run Calls.

Variable env : Env.
Variable axios : Server.
Variable lt_coerced : Value -> Z -> bool.
Variable ToString : Value -> Error + string.
Variable Buffer_from : Value -> Error + string.

(** X8. [GET /api/me] of the cookie variant answers with four members made
    from the upstream profile and with nothing else of it: [id], [username]
    (the upstream [login]), [displayName] (the upstream [name]) and [photos]
    (one entry holding the upstream [avatar_url]); a member the reply lacks,
    or a reply that is no object, gives [undefined] there. A [null] reply is
    answered 500 with the message of the engine's error. *)
Theorem me_answer_shape fuel (req : Cookie.Req) (tok : string) (log : list Call) (d : Value) :
  Cookie.cookies req !! "gh_token" = Some (Str tok) -> tok <> "" ->
  axios log (opts env tok "GET" "/user" ∅ ∅) = Resolved d ->
  (d <> Null -> d <> Undefined ->
   exists body,
     fst (Cookie.serve env axios lt_coerced ToString Buffer_from fuel Me req log) = Return (Json
         200 (Obj body) [])
     /\ body !! "id" = Some (field "id" d)
     /\ body !! "username" = Some (field "login" d)
     /\ body !! "displayName" = Some (field "name" d)
     /\ body !! "photos" = Some (Arr [Obj {[ "value" := field "avatar_url" d ]}])
     /\ (forall k, k <> "id" -> k <> "username" -> k <> "displayName" -> k <> "photos" ->
           body !! k = None))
  /\ (d = Null ->
      exists msg,
        fst (Cookie.serve env axios lt_coerced ToString Buffer_from fuel Me req log)
        = Return (Json 500 (Obj {[ "error" := Str msg ]}) [])).
Proof.
  intros Hc Hne Hax.
  rewrite (cookie_serve_admitted env axios lt_coerced ToString Buffer_from req tok fuel Me Hc Hne).
  cbn [Cookie.handler]. unfold Cookie.me, try_catch, githubRequest, text_of, attempt, bind, ret.
  rewrite (request_resolved _ _ _ _ Hax). split.
  - intros Hnull Hundef.
    destruct d; try done; cbn;
      (eexists; split; [reflexivity|]; repeat split;
       intros k H1 H2 H3 H4; by rewrite !lookup_insert_ne, lookup_singleton_ne).
  - intros ->. cbn. eauto.
Qed.

End Profile.

(** ** From login to later requests *)

Section LoginThenUse.
Import JS Upstream Http Common Run Calls.

Variable env : Env.
Variable axios : Server.
Variable toLowerCase : string -> string.
Variable lt_coerced : Value -> Z -> bool.
Variable ToString : Value -> Error + string.
Variable Buffer_from : Value -> Error + string.

Lemma verify_passed (L : list string) (tok : string) (p : Profile) :
  L = [] \/ isAllowed toLowerCase L p = true ->
  verify toLowerCase L tok p = Some {| profile := p; token := tok |}.
Proof.
  intros H. rewrite verify_cases.
  destruct H as [-> | ->]; [done | by rewrite orb_true_r].
Qed.

Lemma req_user_after_login (L : list string) (sid tok : string) (p : Profile)
    (store : gmap string Session.Sess) (req : Session.Req) :
  L = [] \/ isAllowed toLowerCase L p = true ->
  Session.session_id req = Some sid ->
  Session.req_user (snd (Session.callback env toLowerCase L sid (Granted tok p) store)) req
  = Some (Session.serializeUser {| profile := p; token := tok |}).
Proof.
  intros Hgate Hsid. cbn [Session.callback]. rewrite (verify_passed L tok p Hgate).
  cbn [snd]. unfold Session.req_user, Session.logIn. rewrite Hsid.
  by rewrite lookup_insert_eq.
Qed.

(** The name kept in the session is the name the gate looked at. *)
Lemma session_username (user : User) :
  login_name (profile user) <> "" ->
  Session.s_username (Session.serializeUser user) = Str (login_name (profile user)).
Proof.
  destruct user as [[i u l d ph] tok]. cbn. unfold login_name, or_string, or_else. cbn.
  destruct u as [u|]; cbn;
    [destruct (nonempty u) eqn:Hu; unfold nonempty in Hu; cbn; rewrite ?Hu; [done|]|];
    (destruct l as [l|]; cbn;
       [destruct (nonempty l) eqn:Hl; unfold nonempty in Hl; cbn; rewrite ?Hl; [done|]|];
       (destruct d as [d|]; cbn;
          [destruct (nonempty d) eqn:Hd; unfold nonempty in Hd; cbn; rewrite ?Hd; done
          |done])).
Qed.

(** X9. Login and use compose in the session variant. After a callback
    that passed the gate with a non-empty access token, a request that names
    the session of the login is admitted; [GET /api/me] answers it from the
    session alone, with the [id], [displayName] and [photos] of the profile
    and the name the gate looked at as [username], without an upstream call
    and without the token; and every upstream call made for such a request,
    on any route, carries the access token granted at login. *)
Theorem session_login_round_trip (L : list string) (sid tok : string) (p : Profile)
    (store : gmap string Session.Sess) (req : Session.Req) (log : list Call) :
  L = [] \/ isAllowed toLowerCase L p = true ->
  tok <> "" -> Session.session_id req = Some sid ->
  let store' := snd (Session.callback env toLowerCase L sid (Granted tok p) store) in
  (exists body,
     Session.serve env axios ToString Buffer_from store' Me req log = (Return (Json 200 (Obj body)
         []), log)
     /\ body !! "id" = Some (id p)
     /\ body !! "displayName" = Some (Session.text (displayName p))
     /\ body !! "photos" = Some (photos p)
     /\ (login_name p <> "" -> body !! "username" = Some (Str (login_name p)))
     /\ body !! "token" = None)
  /\ (forall r c,
        c ∈ calls_made (Session.serve env axios ToString Buffer_from store' r req) log ->
        headers c !! "Authorization" = Some ("token " ++ tok)).
Proof.
  intros Hgate Hne Hsid store'. subst store'.
  pose proof (req_user_after_login L sid tok p store req Hgate Hsid) as Hu.
  split.
  - unfold Session.serve, Session.ensureAuthenticated. rewrite Hu.
    cbn [Session.s_token Session.serializeUser token].
    apply nonempty_true in Hne. rewrite Hne. cbn [Session.handler Session.me].
    eexists. split; [reflexivity|].
    split; [by rewrite lookup_insert_eq|].
    split; [rewrite !lookup_insert_ne by done; by rewrite lookup_insert_eq|].
    split; [rewrite !lookup_insert_ne by done; by rewrite lookup_singleton_eq|].
    split; [|rewrite !lookup_insert_ne by done; by rewrite lookup_singleton_ne].
    intros Hname. rewrite lookup_insert_ne, lookup_insert_eq by done.
    f_equal. by apply (session_username {| profile := p; token := tok |}).
  - intros r c Hin. pattern c. eapply adds_calls_made; [|exact Hin].
    apply adds_session_serve.
    intros user method path data params Huser _ _.
    rewrite Hu in Huser. injection Huser as <-. apply opts_headers.
Qed.

(** X11. Login and use compose in the cookie variant. Whatever the callback
    queues on the response is one [gh_token] cookie that holds the access
    token just granted, is http-only, same-site lax, lives one day, and is
    secure exactly when [NODE_ENV] is [production]; it never clears a cookie
    and never sets another. A request that presents that value gets its
    upstream calls made with that access token. *)
Theorem cookie_login_round_trip (x : Exchange) (op : CookieOp) (req : Cookie.Req)
    (fuel : nat) (r : Route) (log : list Call) :
  op ∈ cookies_of (Cookie.callback env toLowerCase x) ->
  exists tok p,
    x = Granted tok p
    /\ cookies_of (Cookie.callback env toLowerCase x) = [op]
    /\ op = SetCookie "gh_token" tok
              {| httpOnly := true;
                 secure := bool_decide (NODE_ENV env = Some "production");
                 sameSite := "lax"; maxAge := 86400000 |}
    /\ (Cookie.cookies req !! "gh_token" = Some (Str tok) ->
        forall c,
          c ∈ calls_made (Cookie.serve env axios lt_coerced ToString Buffer_from fuel r req) log ->
          headers c !! "Authorization" = Some ("token " ++ tok)).
Proof.
  assert (Hprod : production env = bool_decide (NODE_ENV env = Some "production")).
  { unfold production. destruct (NODE_ENV env) as [v|]; [|done].
    destruct (String.eqb_spec v "production") as [-> | Hne].
    - by rewrite bool_decide_eq_true_2.
    - rewrite bool_decide_eq_false_2; [done | congruence]. }
  destruct x as [err | | u | tok p]; cbn; try (intros H; by apply elem_of_nil in H).
  destruct (verify toLowerCase (Cookie.allowedUsers env) tok p) as [user|] eqn:Hv;
    cbn; [|intros H; by apply elem_of_nil in H].
  rewrite verify_cases in Hv. destruct (_ || _); [|done]. injection Hv as <-.
  cbn [token]. intros Hin. apply list_elem_of_singleton in Hin as ->.
  exists tok, p. repeat split.
  - unfold token_cookie. by rewrite Hprod.
  - intros Hc c Hin. pattern c. eapply adds_calls_made; [|exact Hin].
    apply adds_cookie_serve. intros v t method path data params Hc' _ Ht _.
    rewrite Hc in Hc'. injection Hc' as <-. injection Ht as <-. apply opts_headers.
Qed.

End LoginThenUse.

(** ** When the gate is off *)

Section BlankList.
Import JS Upstream Http Common Run Calls.

Variable env : Env.
Variable toLowerCase : string -> string.

Lemma filter_nonempty_nil (l : list string) :
  List.filter nonempty l = [] <-> forallb (fun s => negb (nonempty s)) l = true.
Proof.
  induction l as [|s l IH]; [done|]. cbn.
  destruct (nonempty s); cbn; [split; discriminate | exact IH].
Qed.

Lemma parse_allowed_nil (s : string) : parse_allowed s = [] <-> blank s = true.
Proof.
  unfold parse_allowed, blank. rewrite filter_nonempty_nil.
  induction (split_comma s) as [|piece l IH]; [done|]. cbn.
  rewrite !andb_true_iff. by rewrite IH.
Qed.

(** X12. The gate is off exactly when the configured list has no name in
    it: an [ALLOWED_USERS] that is empty, or made of commas and white space
    only, parses to the empty list, and then every identity the provider
    grants is logged in, in both variants (as is the case in the cookie
    variant when the variable is not set at all). A value with one
    non-blank piece parses to a non-empty list. *)
Theorem blank_list_admits_everyone (s : string) (tok sid : string) (U : Profile)
    (store : gmap string Session.Sess) :
  (blank s = true <-> parse_allowed s = [])
  /\ (blank s = true ->
      ALLOWED_USERS env = Some s \/ (ALLOWED_USERS env = None /\ s = "") ->
      Cookie.callback env toLowerCase (Granted tok U) = Redirect "/" [token_cookie env tok])
  /\ (blank s = true ->
      ALLOWED_USERS env = Some s ->
      exists L,
        Session.allowedUsers env = Some L
        /\ Session.callback env toLowerCase L sid (Granted tok U) store
           = (Redirect "/" [token_cookie env tok],
              Session.logIn sid {| profile := U; token := tok |} store)).
Proof.
  split; [by rewrite parse_allowed_nil|]. split.
  - intros Hb Henv.
    assert (Cookie.allowedUsers env = []) as HL.
    { unfold Cookie.allowedUsers.
      destruct Henv as [-> | [-> ->]]; cbn [default]; by apply parse_allowed_nil. }
    cbn [Cookie.callback]. by rewrite HL.
  - intros Hb Henv. exists []. unfold Session.allowedUsers. rewrite Henv.
    by rewrite (proj2 (parse_allowed_nil s) Hb).
Qed.

End BlankList.

(** ** What a write sends *)

Section Payloads.
Import JS Upstream Http Common Run Calls.

Variable env : Env.
Variable axios : Server.
Variable lt_coerced : Value -> Z -> bool.
Variable ToString : Value -> Error + string.
Variable Buffer_from : Value -> Error + string.

Lemma set_if_keys (k : string) (v : Value) (m : gmap string Value) (k' : string) :
  set_if k v m !! k' <> None -> k' = k \/ m !! k' <> None.
Proof.
  unfold set_if. destruct (truthy v); [|by right].
  destruct (decide (k = k')) as [-> | Hne]; [by left|].
  rewrite lookup_insert_ne by done. by right.
Qed.

Lemma base_keys (message content : Value) (k : string) :
  ({[ "message" := message; "content" := content ]} : gmap string Value) !! k <> None ->
  k = "message" \/ k = "content".
Proof.
  destruct (decide ("message" = k)) as [<- | H1]; [by left|].
  destruct (decide ("content" = k)) as [<- | H2]; [by right|].
  by rewrite lookup_insert_ne, lookup_singleton_ne.
Qed.

Lemma put_payload_keys (b : Body) (content : Value) (k : string) :
  put_payload b content !! k <> None ->
  k = "message" \/ k = "content" \/ k = "branch" \/ k = "sha" \/ k = "committer".
Proof.
  unfold put_payload. intros H.
  apply set_if_keys in H as [-> | H]; [tauto|].
  apply set_if_keys in H as [-> | H]; [tauto|].
  apply set_if_keys in H as [-> | H]; [tauto|].
  apply base_keys in H. tauto.
Qed.

Lemma put_payload_message (b : Body) (content : Value) :
  put_payload b content !! "message" = Some (with_default (Str "Update via API") (b_message b)).
Proof.
  unfold put_payload. rewrite !lookup_set_if_ne by done. apply lookup_insert_eq.
Qed.

Lemma spec_payload_keys (b : Body) (content : string) (sha : Value) (k : string) :
  set_if "sha" sha (spec_payload b content) !! k <> None ->
  k = "message" \/ k = "content" \/ k = "branch" \/ k = "sha".
Proof.
  unfold spec_payload. intros H.
  apply set_if_keys in H as [-> | H]; [tauto|].
  apply set_if_keys in H as [-> | H]; [tauto|].
  apply base_keys in H. tauto.
Qed.

(** The body of a spec-update request, as far as the route reads it. *)
Lemma spec_update_reads (token : Value) (owner repo : string) (b b' : Body) :
  b_path b = b_path b' -> b_content b = b_content b' ->
  b_message b = b_message b' -> b_branch b = b_branch b' ->
  spec_update env axios ToString Buffer_from token owner repo b = spec_update env axios ToString
      Buffer_from token owner repo b'.
Proof. unfold spec_update. by intros -> -> -> ->. Qed.

(** X13. A write sends upstream only what the route picks from the body.
    The payload of the file write has [message] (the default [Update via
    API] when the body has none) and [content], and [branch], [sha] and
    [committer] when the body has them truthy; nothing else, so never
    [push] or [path]. The payload of the spec-update write has only
    [message], [content], [branch] and [sha]; the [sha], [committer] and
    [push] of the request body play no role in that route, whose behaviour
    is the same on two bodies that agree on [path], [content], [message]
    and [branch]. *)
Theorem write_payload_members fuel (tok owner repo path : string) (creq creq' : Cookie.Req)
    (user : Session.SafeUser) (sreq : Session.Req) (log : list Call) (c : Call) (k : string) :
  (c ∈ calls_made (Cookie.handler env axios lt_coerced ToString Buffer_from fuel (PutContents
      owner repo path) (Str tok) creq) log ->
   (data c !! k <> None ->
    k = "message" \/ k = "content" \/ k = "branch" \/ k = "sha" \/ k = "committer")
   /\ data c !! "message"
      = Some (with_default (Str "Update via API") (b_message (Cookie.req_body creq))))
  /\ (c ∈ calls_made (Session.handler env axios ToString Buffer_from (PutContents owner repo path)
      user sreq) log ->
      (data c !! k <> None ->
       k = "message" \/ k = "content" \/ k = "branch" \/ k = "sha" \/ k = "committer")
      /\ data c !! "message"
         = Some (with_default (Str "Update via API") (b_message (Session.req_body sreq))))
  /\ (c ∈ calls_made (Cookie.handler env axios lt_coerced ToString Buffer_from fuel (SpecUpdate
      owner repo) (Str tok) creq) log ->
      data c !! k <> None ->
      k = "message" \/ k = "content" \/ k = "branch" \/ k = "sha")
  /\ (b_path (Cookie.req_body creq) = b_path (Cookie.req_body creq') ->
      b_content (Cookie.req_body creq) = b_content (Cookie.req_body creq') ->
      b_message (Cookie.req_body creq) = b_message (Cookie.req_body creq') ->
      b_branch (Cookie.req_body creq) = b_branch (Cookie.req_body creq') ->
      Cookie.handler env axios lt_coerced ToString Buffer_from fuel (SpecUpdate owner repo) (Str
          tok) creq
      = Cookie.handler env axios lt_coerced ToString Buffer_from fuel (SpecUpdate owner repo) (Str
          tok) creq').
Proof.
  split; [|split; [|split]].
  - cbn [Cookie.handler]. rewrite cookie_put_calls. intros Hin.
    apply list_elem_of_singleton in Hin as ->. cbn [data opts].
    split; [apply put_payload_keys | apply put_payload_message].
  - cbn [Session.handler].
    destruct (base64_of Buffer_from
                (with_default (Str "") (b_content (Session.req_body sreq)))) as [e|text] eqn:Hb.
    + rewrite (calls_made_app _ log []); [by intros ?%elem_of_nil|].
      by rewrite (session_put_refused env axios ToString Buffer_from _ _ _ _ _ _ e Hb), app_nil_r.
    + rewrite (session_put_calls env axios ToString Buffer_from _ _ _ _ text _ _ Hb).
      intros Hin. apply list_elem_of_singleton in Hin as ->. cbn [data opts].
      split; [apply put_payload_keys | apply put_payload_message].
  - cbn [Cookie.handler]. intros Hin.
    destruct (spec_update_shape env axios ToString Buffer_from (Str tok) owner repo
                (Cookie.req_body creq) log)
      as [Hcalls | (url & t & _ & _ & [Hcalls | (text & sha & _ & Hcalls)])];
      rewrite Hcalls in Hin.
    + by apply elem_of_nil in Hin.
    + apply list_elem_of_singleton in Hin as ->. cbn [data opts]. by rewrite lookup_empty.
    + apply elem_of_cons in Hin as [-> | Hin].
      { cbn [data opts]. by rewrite lookup_empty. }
      apply list_elem_of_singleton in Hin as ->. cbn [data opts].
      apply spec_payload_keys.
  - cbn [Cookie.handler]. apply spec_update_reads.
Qed.

Lemma put_payload_reads (b b' : Body) (content : Value) :
  b_message b = b_message b' -> b_branch b = b_branch b' -> b_sha b = b_sha b' ->
  b_committer b = b_committer b' ->
  put_payload b content = put_payload b' content.
Proof. unfold put_payload. by intros -> -> -> ->. Qed.

(** X14. The [push] flag of the file write of the cookie variant changes
    nothing upstream: two requests that differ only in [push] make the same
    single call. What it changes is the answer: with a truthy [push], when
    the write succeeded with an object, the proxy adds (or replaces) the
    member [push] of that object with its own note of success, and passes
    the other members on. *)
Theorem push_flag_is_local fuel (tok owner repo path : string) (req req' : Cookie.Req)
    (log : list Call) (o : gmap string Value) :
  (b_content (Cookie.req_body req) = b_content (Cookie.req_body req') ->
   b_message (Cookie.req_body req) = b_message (Cookie.req_body req') ->
   b_branch (Cookie.req_body req) = b_branch (Cookie.req_body req') ->
   b_sha (Cookie.req_body req) = b_sha (Cookie.req_body req') ->
   b_committer (Cookie.req_body req) = b_committer (Cookie.req_body req') ->
   calls_made (Cookie.handler env axios lt_coerced ToString Buffer_from fuel (PutContents owner
       repo path) (Str tok) req) log
   = calls_made (Cookie.handler env axios lt_coerced ToString Buffer_from fuel (PutContents owner
       repo path) (Str tok) req') log)
  /\ (truthy (b_push (Cookie.req_body req)) = true ->
      axios log (opts env tok "PUT" ("/repos/" ++ owner ++ "/" ++ repo ++ "/contents/" ++ path)
                   (put_payload (Cookie.req_body req)
                      (with_default (Str "") (b_content (Cookie.req_body req)))) ∅)
      = Resolved (Obj o) ->
      fst (Cookie.handler env axios lt_coerced ToString Buffer_from fuel (PutContents owner repo
          path) (Str tok) req log)
      = Return (Json 200 (Obj (<[ "push" := push_note ]> o)) []))
  /\ (truthy (b_push (Cookie.req_body req)) = false ->
      axios log (opts env tok "PUT" ("/repos/" ++ owner ++ "/" ++ repo ++ "/contents/" ++ path)
                   (put_payload (Cookie.req_body req)
                      (with_default (Str "") (b_content (Cookie.req_body req)))) ∅)
      = Resolved (Obj o) ->
      fst (Cookie.handler env axios lt_coerced ToString Buffer_from fuel (PutContents owner repo
          path) (Str tok) req log)
      = Return (Json 200 (Obj o) [])).
Proof.
  split; [|split].
  - intros Hc Hm Hb Hs Hco. cbn [Cookie.handler]. rewrite !cookie_put_calls.
    by rewrite Hc, (put_payload_reads _ _ _ Hm Hb Hs Hco).
  - intros Hpush Hax. cbn [Cookie.handler].
    unfold Cookie.put_contents, try_catch, githubRequest, text_of, attempt, bind, ret.
    rewrite (request_resolved _ _ _ _ Hax).
    assert (truthy (with_default (Bool false) (b_push (Cookie.req_body req))) = true) as ->.
    { by destruct (b_push (Cookie.req_body req)). }
    reflexivity.
  - intros Hpush Hax. cbn [Cookie.handler].
    unfold Cookie.put_contents, try_catch, githubRequest, text_of, attempt, bind, ret.
    rewrite (request_resolved _ _ _ _ Hax).
    assert (truthy (with_default (Bool false) (b_push (Cookie.req_body req))) = false) as ->.
    { by destruct (b_push (Cookie.req_body req)). }
    reflexivity.
Qed.

End Payloads.

(** ** The path of the spec file *)

Section SpecPath.
Import JS Upstream Http Common Run Calls.

Variable env : Env.
Variable axios : Server.
Variable lt_coerced : Value -> Z -> bool.
Variable ToString : Value -> Error + string.
Variable Buffer_from : Value -> Error + string.

Lemma all_chars_forall (p : ascii -> bool) (s : string) :
  all_chars p s = true <-> forall c, c ∈ list_ascii_of_string s -> p c = true.
Proof.
  induction s as [|a s IH]; cbn.
  - split; [intros _ c H; by apply elem_of_nil in H | done].
  - rewrite andb_true_iff, IH. split.
    + intros [Ha Hs] c Hc. apply elem_of_cons in Hc as [-> | Hc]; auto.
    + intros H. split; [apply H; left | intros c Hc; apply H; by right].
Qed.

(** What [encodeURIComponent] writes for one character is safe. *)
Lemma encoded_char_safe (c : ascii) :
  (if unreserved (code c) then url_safe c
   else url_safe (hex_digit (Z.shiftr (code c) 4))
        && url_safe (hex_digit (Z.land (code c) 15))) = true.
Proof. destruct c as [[] [] [] [] [] [] [] []]; vm_compute; reflexivity. Qed.

Lemma escaped_safe (s : string) : all_chars url_safe (escaped s) = true.
Proof.
  induction s as [|c s IH]; [done|]. cbn [escaped].
  pose proof (encoded_char_safe c) as Hc.
  destruct (unreserved (code c)) eqn:Hu; cbn [all_chars].
  - by rewrite Hc, IH.
  - apply andb_true_iff in Hc as [-> ->]. by rewrite IH.
Qed.

Lemma escaped_unreserved (s : string) :
  all_chars (fun c => unreserved (code c)) s = true -> escaped s = s.
Proof.
  induction s as [|c s IH]; [done|]. cbn. intros H.
  apply andb_true_iff in H as [-> H]. by rewrite IH.
Qed.

Lemma unreserved_not_surrogate (a b : Z) : unreserved a = true -> surrogate a b = false.
Proof.
  unfold surrogate. destruct (Z.eqb_spec a 237) as [-> | Hne]; [|done].
  vm_compute. discriminate.
Qed.

(** A string of unreserved characters holds no surrogate. *)
Lemma unreserved_well_formed (s : string) :
  all_chars (fun c => unreserved (code c)) s = true -> well_formed (bytes s) = true.
Proof.
  unfold bytes. induction s as [|c s IH]; [done|]. cbn [all_chars]. intros H.
  apply andb_true_iff in H as [Hc Hs]. specialize (IH Hs).
  destruct s as [|c' s]; [done|].
  change (negb (surrogate (code c) (code c'))
          && well_formed (map code (list_ascii_of_string (String c' s))) = true).
  by rewrite (unreserved_not_surrogate _ _ Hc), IH.
Qed.

Lemma encodeURIComponent_unreserved (s : string) :
  all_chars (fun c => unreserved (code c)) s = true -> encodeURIComponent s = Some s.
Proof.
  intros H. unfold encodeURIComponent.
  by rewrite (unreserved_well_formed s H), (escaped_unreserved s H).
Qed.

(** X15. The spec-update route sends both of its calls, the lookup and the
    write, to one and the same URL,
    [/repos/:owner/:repo/contents/] followed by the [path] of the body
    ([spec.yaml] when it has none) as a single encoded component, whatever
    the token and the body are: the path has a text, that text can be
    encoded (it holds no unpaired surrogate), and the last part of the URL
    is its encoding. It is made of unreserved characters and percent signs
    only, so it has no slash, question mark, hash, ampersand or space; a
    path of unreserved characters is sent as it is. *)
Theorem spec_path_is_one_component fuel (token : Value) (owner repo : string)
    (req : Cookie.Req) (log : list Call) (c : Call) :
  c ∈ calls_made (Cookie.handler env axios lt_coerced ToString Buffer_from fuel (SpecUpdate owner
      repo) token req) log ->
  exists path component,
    text_of ToString (with_default (Str "spec.yaml") (b_path (Cookie.req_body req))) = inr path
    /\ encodeURIComponent path = Some component
    /\ url c = "https://api.github.com/repos/" ++ owner ++ "/" ++ repo ++ "/contents/" ++ component
    /\ (forall ch, ch ∈ list_ascii_of_string component ->
          ch <> "/"%char /\ ch <> "?"%char /\ ch <> "#"%char /\ ch <> "&"%char
          /\ ch <> " "%char)
    /\ (b_path (Cookie.req_body req) = Undefined -> component = "spec.yaml")
    /\ (forall p, b_path (Cookie.req_body req) = Str p ->
          all_chars (fun ch => unreserved (code ch)) p = true -> component = p).
Proof.
  cbn [Cookie.handler]. intros Hin.
  destruct (spec_update_shape env axios ToString Buffer_from token owner repo
              (Cookie.req_body req) log)
    as [Hcalls | (url' & t & Hurl & _ & Hcalls)].
  { rewrite Hcalls in Hin. by apply elem_of_nil in Hin. }
  unfold spec_url, contents_url, encoded in Hurl.
  destruct (text_of ToString _) as [e|path] eqn:Hpath; [done|].
  destruct (encodeURIComponent path) as [component|] eqn:Henc; [|done].
  injection Hurl as <-.
  exists path, component. split; [done|]. split; [done|].
  split; [|split; [|split]].
  - destruct Hcalls as [Hcalls | (text & sha & _ & Hcalls)]; rewrite Hcalls in Hin.
    + by apply list_elem_of_singleton in Hin as ->.
    + apply elem_of_cons in Hin as [-> | Hin]; [reflexivity|].
      by apply list_elem_of_singleton in Hin as ->.
  - intros ch Hch. unfold encodeURIComponent in Henc.
    destruct (well_formed _); [|done]. injection Henc as <-.
    pose proof (proj1 (all_chars_forall url_safe _) (escaped_safe _) ch Hch) as Hs.
    repeat split; intros ->; discriminate Hs.
  - intros Hp. rewrite Hp in Hpath. cbn in Hpath. injection Hpath as <-.
    by injection Henc as <-.
  - intros p Hp Hall. rewrite Hp in Hpath. cbn in Hpath. injection Hpath as <-.
    rewrite (encodeURIComponent_unreserved p Hall) in Henc. by injection Henc.
Qed.

End SpecPath.

(** ** The names of the allow-list *)

Section Names.
Import JS Upstream Http Common Run Calls.

Lemma char_code (c : ascii) : char (code c) = c.
Proof. unfold char, code. by rewrite N2Z.id, ascii_N_embedding. Qed.

Lemma of_bytes_codes (la : list ascii) : of_bytes (map code la) = string_of_list_ascii la.
Proof.
  unfold of_bytes. rewrite map_map. f_equal.
  rewrite <- (map_id la) at 2. apply map_ext, char_code.
Qed.

Lemma bytes_of_chars (la : list ascii) : bytes (string_of_list_ascii la) = map code la.
Proof. unfold bytes. by rewrite list_ascii_of_string_of_list_ascii. Qed.

Lemma strip_drop (measure : list Z -> nat) (fuel : nat) :
  forall l, exists k, strip measure fuel l = drop k l.
Proof.
  induction fuel as [|fuel IH]; intros l; [by exists 0%nat|]. cbn.
  destruct (measure l) as [|n]; [by exists 0%nat|].
  destruct (IH (drop (S n) l)) as [k ->]. exists (S n + k)%nat. by rewrite drop_drop.
Qed.

Lemma strip_done (measure : list Z -> nat) :
  measure [] = 0%nat ->
  forall fuel l, (length l <= fuel)%nat -> measure (strip measure fuel l) = 0%nat.
Proof.
  intros Hnil fuel. induction fuel as [|fuel IH]; intros l Hlen.
  - destruct l; [done | cbn in Hlen; lia].
  - cbn. destruct (measure l) as [|n] eqn:Hm; [done|].
    apply IH. destruct l as [|a l]; [congruence|].
    rewrite length_drop. cbn in Hlen |- *. lia.
Qed.

Lemma strip_fixed (measure : list Z -> nat) (fuel : nat) (l : list Z) :
  measure l = 0%nat -> strip measure fuel l = l.
Proof. intros H. destruct fuel; cbn; [done | by rewrite H]. Qed.

Lemma ws_prefix_take (l : list Z) (j : nat) :
  ws_prefix l = 0%nat -> ws_prefix (take j l) = 0%nat.
Proof.
  destruct l as [|a [|b [|c l]]]; destruct j as [|[|[|j]]]; cbn; try done;
    destruct (ws1 a); try done; destruct (ws2 a b); try done;
    destruct (ws3 a b c); done.
Qed.

(** The bytes [trim] keeps are a run of the bytes it was given, with no
    white space left at either end. *)
Lemma trim_run (s : string) :
  exists k j,
    trim s = string_of_list_ascii (take j (drop k (list_ascii_of_string s)))
    /\ ws_prefix (bytes (trim s)) = 0%nat
    /\ ws_suffix (rev (bytes (trim s))) = 0%nat.
Proof.
  unfold trim. cbv zeta.
  destruct (strip_drop ws_prefix (length (bytes s)) (bytes s)) as [k Hk].
  pose proof (strip_done ws_prefix eq_refl (length (bytes s)) (bytes s) (le_n _)) as Hp.
  rewrite Hk in Hp |- *.
  destruct (strip_drop ws_suffix (length (drop k (bytes s))) (rev (drop k (bytes s))))
    as [k' Hk'].
  pose proof (strip_done ws_suffix eq_refl (length (drop k (bytes s)))
                (rev (drop k (bytes s)))) as Hs.
  rewrite length_rev in Hs. specialize (Hs (le_n _)).
  rewrite Hk' in Hs |- *.
  assert (Hrun : rev (drop k' (rev (drop k (bytes s))))
                 = map code (take (length (drop k (bytes s)) - k')
                               (drop k (list_ascii_of_string s)))).
  { change (drop k' (rev (drop k (bytes s)))) with (skipn k' (rev (drop k (bytes s)))).
    rewrite skipn_rev, rev_involutive. unfold bytes.
    change (@firstn Z) with (@take Z). change (@skipn Z) with (@drop Z).
    by rewrite <- fmap_drop, <- fmap_take. }
  exists k, (length (drop k (bytes s)) - k')%nat.
  rewrite Hrun, of_bytes_codes, bytes_of_chars. split; [done|]. split.
  - rewrite <- Hrun.
    change (drop k' (rev (drop k (bytes s)))) with (skipn k' (rev (drop k (bytes s)))).
    rewrite skipn_rev, rev_involutive. by apply ws_prefix_take.
  - rewrite <- Hrun, rev_involutive. exact Hs.
Qed.

Lemma trim_idempotent (s : string) : trim (trim s) = trim s.
Proof.
  destruct (trim_run s) as (k & j & Heq & Hp & Hs).
  unfold trim at 1. cbv zeta.
  rewrite (strip_fixed ws_prefix _ _ Hp), (strip_fixed ws_suffix _ _ Hs), rev_involutive.
  rewrite Heq at 1. rewrite bytes_of_chars, of_bytes_codes. by rewrite <- Heq.
Qed.

Lemma split_comma_no_comma (s piece : string) (c : ascii) :
  piece ∈ split_comma s -> c ∈ list_ascii_of_string piece -> c <> ","%char.
Proof.
  revert piece. induction s as [|a s IH]; intros piece Hin Hc; cbn in Hin.
  - apply list_elem_of_singleton in Hin as ->. by apply elem_of_nil in Hc.
  - destruct (Ascii.eqb_spec a ",") as [-> | Ha].
    + apply elem_of_cons in Hin as [-> | Hin]; [by apply elem_of_nil in Hc | eauto].
    + destruct (split_comma s) as [|p ps] eqn:Hsp.
      * apply list_elem_of_singleton in Hin as ->. cbn in Hc.
        apply list_elem_of_singleton in Hc as ->. done.
      * apply elem_of_cons in Hin as [-> | Hin].
        -- cbn in Hc. apply elem_of_cons in Hc as [-> | Hc]; [done|].
           apply (IH p); [left | done].
        -- apply (IH piece); [by right | done].
Qed.

(** X17. Every name of a parsed allow-list is clean: it is not empty, it
    has no white space at its start or end (trimming it again changes
    nothing) and it holds no comma; so [" Alice , bob,"] configures exactly
    the names [Alice] and [bob]. *)
Theorem allowed_names_are_clean (s u : string) :
  u ∈ parse_allowed s ->
  u <> ""
  /\ trim u = u
  /\ ws_prefix (bytes u) = 0%nat
  /\ ws_suffix (rev (bytes u)) = 0%nat
  /\ (forall c, c ∈ list_ascii_of_string u -> c <> ","%char).
Proof.
  intros Hu. apply parse_allowed_member in Hu as (Hne & piece & Hin & ->).
  destruct (trim_run piece) as (k & j & Heq & Hp & Hs).
  split; [done|]. split; [apply trim_idempotent|]. split; [done|]. split; [done|].
  intros c Hc. rewrite Heq, list_ascii_of_string_of_list_ascii in Hc.
  apply (split_comma_no_comma s piece c Hin).
  apply elem_of_take in Hc as (i & Hc & _). rewrite lookup_drop in Hc.
  by apply list_elem_of_lookup_2 in Hc.
Qed.

End Names.

Example parse_allowed_padded : Common.parse_allowed " Alice , bob," = ["Alice"; "bob"].
Proof. reflexivity. Qed.

(** ** The further properties at work *)


Lemma read_routes_only_get_witness :
  Upstream.method (Common.opts Scenario.env "gho_abc" "GET" "/repos/octo/demo/commits" ∅ ∅)
  = "GET"
  /\ Upstream.data (Common.opts Scenario.env "gho_abc" "GET" "/repos/octo/demo/commits" ∅ ∅)
     = ∅.
Proof.
  apply (proj1 (read_routes_only_get Scenario.env
                  (Scenario.always (Upstream.Rejected Scenario.not_found)) Scenario.lt_coerced
                      Scenario.ToString Scenario.Buffer_from
                  0 Scenario.store (Http.Commits "octo" "demo")
                  (Scenario.with_cookie Http.empty_body)
                  (Scenario.with_session Http.empty_body) []
                  (Common.opts Scenario.env "gho_abc" "GET" "/repos/octo/demo/commits" ∅ ∅)
                  eq_refl)).
  vm_compute. apply list_elem_of_here.
Defined.

(** A request that asks for five per page is still served by hundreds. *)
Lemma repos_calls_are_pages_witness :
  (length (Upstream.calls_made
             (Cookie.serve Scenario.env (Scenario.paged Scenario.three_pages)
                Scenario.lt_coerced Scenario.ToString Scenario.Buffer_from 7 Http.Repos
                    Cases.with_query) []) <= 7)%nat
  /\ forall (i : nat) (c : Upstream.Call),
       Upstream.calls_made
         (Cookie.serve Scenario.env (Scenario.paged Scenario.three_pages)
            Scenario.lt_coerced Scenario.ToString Scenario.Buffer_from 7 Http.Repos
                Cases.with_query) [] !! i = Some c ->
       Upstream.method c = "GET"
       /\ Upstream.url c = "https://api.github.com/user/repos"
       /\ Upstream.params c !! "page" = Some (JS.Num (1 + Z.of_nat i))
       /\ Upstream.params c !! "per_page" = Some (JS.Num 100)
       /\ (forall key, key <> "page" -> key <> "per_page" ->
             Upstream.params c !! key = Cookie.query Cases.with_query !! key).
Proof.
  apply (repos_calls_are_pages Scenario.env (Scenario.paged Scenario.three_pages)
           Scenario.lt_coerced Scenario.ToString Scenario.Buffer_from 7 Cases.with_query "gho_abc"
               []).
  - reflexivity.
  - discriminate.
Defined.

Lemma repos_waits_on_full_pages_witness :
  fst (Cookie.serve Scenario.env Cases.endless Scenario.lt_coerced Scenario.ToString
      Scenario.Buffer_from 25 Http.Repos
         (Scenario.with_cookie Http.empty_body) [])
  = Upstream.Pending
  /\ length (Upstream.calls_made
               (Cookie.serve Scenario.env Cases.endless Scenario.lt_coerced Scenario.ToString
                   Scenario.Buffer_from 25 Http.Repos
                  (Scenario.with_cookie Http.empty_body)) [])
     = 25%nat.
Proof.
  apply (repos_waits_on_full_pages Scenario.env Cases.endless Scenario.lt_coerced
      Scenario.ToString Scenario.Buffer_from
           (Scenario.with_cookie Http.empty_body) "gho_abc" []).
  - reflexivity.
  - discriminate.
  - intros log c. exists (Scenario.numbered 0 100). split; [reflexivity|].
    unfold Run.full. vm_compute. lia.
Defined.

Lemma forwarding_contract_witness :
  exists c,
    Upstream.calls_made
      (Cookie.serve Scenario.env (Scenario.always (Upstream.Resolved Scenario.created))
         Scenario.lt_coerced Scenario.ToString Scenario.Buffer_from 0 (Http.Tree "octo" "demo"
             "c0ffee") Cases.with_query) []
    = [c]
    /\ Upstream.method c = "GET" /\ Upstream.data c = ∅
    /\ Upstream.params c = Cookie.query Cases.with_query
    /\ (forall d,
          Scenario.always (Upstream.Resolved Scenario.created) [] c = Upstream.Resolved d ->
          fst (Cookie.serve Scenario.env (Scenario.always (Upstream.Resolved Scenario.created))
                 Scenario.lt_coerced Scenario.ToString Scenario.Buffer_from 0 (Http.Tree "octo"
                     "demo" "c0ffee") Cases.with_query [])
          = Upstream.Return (Http.Json 200 d [])).
Proof.
  apply (proj1 (forwarding_contract Scenario.env
                  (Scenario.always (Upstream.Resolved Scenario.created)) Scenario.lt_coerced
                      Scenario.ToString Scenario.Buffer_from
                  0 Scenario.store (Http.Tree "octo" "demo" "c0ffee") Cases.with_query
                  (Scenario.with_session Http.empty_body) "gho_abc" Scenario.safe_user []
                  eq_refl)).
  - reflexivity.
  - discriminate.
Defined.

Lemma request_costs_two_calls_witness :
  (length (Upstream.calls_made
             (Cookie.serve Scenario.env Scenario.missing_file Scenario.lt_coerced
                 Scenario.ToString Scenario.Buffer_from 0
                (Http.SpecUpdate "octo" "demo") (Scenario.with_cookie Scenario.hello)) [])
   <= 2)%nat.
Proof.
  apply (proj1 (request_costs_two_calls Scenario.env Scenario.missing_file
                  Scenario.lt_coerced Scenario.ToString Scenario.Buffer_from 0 Scenario.store
                      (Http.SpecUpdate "octo" "demo")
                  (Scenario.with_cookie Scenario.hello)
                  (Scenario.with_session Scenario.hello) [])).
  discriminate.
Defined.

Lemma me_answer_shape_witness :
  exists body,
    fst (Cookie.serve Scenario.env (Scenario.always (Upstream.Resolved Scenario.octocat))
           Scenario.lt_coerced Scenario.ToString Scenario.Buffer_from 0 Http.Me
               (Scenario.with_cookie Http.empty_body) [])
    = Upstream.Return (Http.Json 200 (JS.Obj body) [])
    /\ body !! "id" = Some (Calls.field "id" Scenario.octocat)
    /\ body !! "username" = Some (Calls.field "login" Scenario.octocat)
    /\ body !! "displayName" = Some (Calls.field "name" Scenario.octocat)
    /\ body !! "photos"
       = Some (JS.Arr [JS.Obj {[ "value" := Calls.field "avatar_url" Scenario.octocat ]}])
    /\ (forall k, k <> "id" -> k <> "username" -> k <> "displayName" -> k <> "photos" ->
          body !! k = None).
Proof.
  apply (proj1 (me_answer_shape Scenario.env
                  (Scenario.always (Upstream.Resolved Scenario.octocat)) Scenario.lt_coerced
                      Scenario.ToString Scenario.Buffer_from
                  0 (Scenario.with_cookie Http.empty_body) "gho_abc" [] Scenario.octocat
                  eq_refl ltac:(discriminate) eq_refl)).
  - discriminate.
  - discriminate.
Defined.

Lemma session_login_round_trip_witness :
  (exists body,
     Session.serve Scenario.env_alice (Scenario.always (Upstream.Resolved Scenario.octocat))
       Scenario.ToString Scenario.Buffer_from
       (snd (Session.callback Scenario.env_alice JS.ascii_toLowerCase ["ALICE"; "bob"] "sid-1"
               (Http.Granted "gho_abc" Scenario.alice) ∅))
       Http.Me (Scenario.with_session Http.empty_body) []
     = (Upstream.Return (Http.Json 200 (JS.Obj body) []), [])
     /\ body !! "id" = Some (Http.id Scenario.alice)
     /\ body !! "displayName" = Some (Session.text (Http.displayName Scenario.alice))
     /\ body !! "photos" = Some (Http.photos Scenario.alice)
     /\ (Http.login_name Scenario.alice <> "" ->
         body !! "username" = Some (JS.Str (Http.login_name Scenario.alice)))
     /\ body !! "token" = None)
  /\ (forall r c,
        c ∈ Upstream.calls_made
              (Session.serve Scenario.env_alice
                 (Scenario.always (Upstream.Resolved Scenario.octocat))
                 Scenario.ToString Scenario.Buffer_from
                 (snd (Session.callback Scenario.env_alice JS.ascii_toLowerCase
                         ["ALICE"; "bob"] "sid-1" (Http.Granted "gho_abc" Scenario.alice) ∅))
                 r (Scenario.with_session Http.empty_body)) [] ->
        Upstream.headers c !! "Authorization" = Some ("token " ++ "gho_abc")).
Proof.
  apply (session_login_round_trip Scenario.env_alice
           (Scenario.always (Upstream.Resolved Scenario.octocat)) JS.ascii_toLowerCase
           Scenario.ToString Scenario.Buffer_from
           ["ALICE"; "bob"] "sid-1" "gho_abc" Scenario.alice ∅
           (Scenario.with_session Http.empty_body) []).
  - right. reflexivity.
  - discriminate.
  - reflexivity.
Defined.

Lemma cookie_login_round_trip_witness :
  exists tok p,
    Http.Granted "gho_abc" Scenario.alice = Http.Granted tok p
    /\ Http.cookies_of
         (Cookie.callback Scenario.env_alice JS.ascii_toLowerCase
            (Http.Granted "gho_abc" Scenario.alice))
       = [Http.token_cookie Scenario.env_alice "gho_abc"]
    /\ Http.token_cookie Scenario.env_alice "gho_abc"
       = Http.SetCookie "gh_token" tok
           {| Http.httpOnly := true;
              Http.secure := bool_decide (Http.NODE_ENV Scenario.env_alice = Some "production");
              Http.sameSite := "lax"; Http.maxAge := 86400000 |}
    /\ (Cookie.cookies (Scenario.with_cookie Http.empty_body) !! "gh_token" = Some (JS.Str tok) ->
        forall c,
          c ∈ Upstream.calls_made
                (Cookie.serve Scenario.env_alice
                   (Scenario.always (Upstream.Resolved Scenario.octocat)) Scenario.lt_coerced
                       Scenario.ToString Scenario.Buffer_from
                   0 Http.Me (Scenario.with_cookie Http.empty_body)) [] ->
          Upstream.headers c !! "Authorization" = Some ("token " ++ tok)).
Proof.
  apply (cookie_login_round_trip Scenario.env_alice
           (Scenario.always (Upstream.Resolved Scenario.octocat)) JS.ascii_toLowerCase
           Scenario.lt_coerced Scenario.ToString Scenario.Buffer_from (Http.Granted "gho_abc"
               Scenario.alice)
           (Http.token_cookie Scenario.env_alice "gho_abc")
           (Scenario.with_cookie Http.empty_body) 0 Http.Me []).
  vm_compute. apply list_elem_of_here.
Defined.

(** With [ALLOWED_USERS=" , ,"] an identity off every list is logged in. *)
Lemma blank_list_admits_everyone_witness :
  Cookie.callback Cases.env_blank JS.ascii_toLowerCase (Http.Granted "gho_xyz" Scenario.mallory)
  = Http.Redirect "/" [Http.token_cookie Cases.env_blank "gho_xyz"].
Proof.
  apply (proj1 (proj2 (blank_list_admits_everyone Cases.env_blank JS.ascii_toLowerCase
                         " , ," "gho_xyz" "sid-1" Scenario.mallory ∅))).
  - reflexivity.
  - left. reflexivity.
Defined.

Lemma write_payload_members_witness :
  (Upstream.data
     (Common.opts Scenario.env "gho_abc" "PUT" "/repos/octo/demo/contents/README.md"
        {[ "message" := JS.Str "Update via API"; "content" := JS.Str "hello" ]} ∅) !! "push"
   <> None ->
   "push" = "message" \/ "push" = "content" \/ "push" = "branch" \/ "push" = "sha"
   \/ "push" = "committer")
  /\ Upstream.data
       (Common.opts Scenario.env "gho_abc" "PUT" "/repos/octo/demo/contents/README.md"
          {[ "message" := JS.Str "Update via API"; "content" := JS.Str "hello" ]} ∅)
     !! "message"
     = Some (JS.with_default (JS.Str "Update via API")
               (Http.b_message (Cookie.req_body (Scenario.with_cookie Cases.pushed)))).
Proof.
  apply (proj1 (write_payload_members Scenario.env
                  (Scenario.always (Upstream.Resolved Scenario.created)) Scenario.lt_coerced
                      Scenario.ToString Scenario.Buffer_from
                  0 "gho_abc" "octo" "demo" "README.md" (Scenario.with_cookie Cases.pushed)
                  (Scenario.with_cookie Cases.pushed) Scenario.safe_user
                  (Scenario.with_session Cases.pushed) []
                  (Common.opts Scenario.env "gho_abc" "PUT" "/repos/octo/demo/contents/README.md"
                     {[ "message" := JS.Str "Update via API"; "content" := JS.Str "hello" ]} ∅)
                  "push")).
  vm_compute. apply list_elem_of_here.
Defined.

Lemma push_flag_is_local_witness :
  fst (Cookie.handler Scenario.env (Scenario.always (Upstream.Resolved Scenario.created))
         Scenario.lt_coerced Scenario.ToString Scenario.Buffer_from 0 (Http.PutContents "octo"
             "demo" "README.md") (JS.Str "gho_abc")
         (Scenario.with_cookie Cases.pushed) [])
  = Upstream.Return
      (Http.Json 200
         (JS.Obj (<[ "push" := Calls.push_note ]>
                    {[ "commit" := JS.Obj {[ "sha" := JS.Str "c0ffee" ]} ]})) []).
Proof.
  apply (proj1 (proj2 (push_flag_is_local Scenario.env
                         (Scenario.always (Upstream.Resolved Scenario.created))
                         Scenario.lt_coerced Scenario.ToString Scenario.Buffer_from 0 "gho_abc"
                             "octo" "demo" "README.md"
                         (Scenario.with_cookie Cases.pushed) (Scenario.with_cookie Cases.pushed)
                         [] {[ "commit" := JS.Obj {[ "sha" := JS.Str "c0ffee" ]} ]}))).
  - reflexivity.
  - reflexivity.
Defined.

(** The path [docs/spec v1.yaml] goes out as [docs%2Fspec%20v1.yaml]. *)
Lemma spec_path_is_one_component_witness :
  exists path component,
    Common.text_of Scenario.ToString
      (JS.with_default (JS.Str "spec.yaml")
         (Http.b_path (Cookie.req_body (Scenario.with_cookie Cases.nested)))) = inr path
    /\ JS.encodeURIComponent path = Some component
    /\ Upstream.url
         (Common.opts Scenario.env "gho_abc" "GET"
            "/repos/octo/demo/contents/docs%2Fspec%20v1.yaml" ∅ {[ "ref" := JS.Str "main" ]})
       = "https://api.github.com/repos/" ++ "octo" ++ "/" ++ "demo" ++ "/contents/" ++ component
    /\ (forall ch, ch ∈ list_ascii_of_string component ->
          ch <> "/"%char /\ ch <> "?"%char /\ ch <> "#"%char /\ ch <> "&"%char
          /\ ch <> " "%char)
    /\ (Http.b_path (Cookie.req_body (Scenario.with_cookie Cases.nested)) = JS.Undefined ->
        component = "spec.yaml")
    /\ (forall p,
          Http.b_path (Cookie.req_body (Scenario.with_cookie Cases.nested)) = JS.Str p ->
          Calls.all_chars (fun ch => JS.unreserved (JS.code ch)) p = true ->
          component = p).
Proof.
  apply (spec_path_is_one_component Scenario.env Scenario.existing_file Scenario.lt_coerced
           Scenario.ToString Scenario.Buffer_from 0
           (JS.Str "gho_abc") "octo" "demo" (Scenario.with_cookie Cases.nested) []
           (Common.opts Scenario.env "gho_abc" "GET"
              "/repos/octo/demo/contents/docs%2Fspec%20v1.yaml" ∅ {[ "ref" := JS.Str "main" ]})).
  vm_compute. apply list_elem_of_here.
Defined.

Lemma allowed_names_are_clean_witness :
  "Alice" <> ""
  /\ JS.trim "Alice" = "Alice"
  /\ JS.ws_prefix (JS.bytes "Alice") = 0%nat
  /\ JS.ws_suffix (rev (JS.bytes "Alice")) = 0%nat
  /\ (forall c, c ∈ list_ascii_of_string "Alice" -> c <> ","%char).
Proof.
  apply (allowed_names_are_clean " Alice , bob," "Alice").
  vm_compute. apply list_elem_of_here.
Defined.

(** ** More on errors, the lookup, and pages *)

Section Edges.
Import JS Upstream Http Common Run Calls.

Variable env : Env.
Variable axios : Server.
Variable lt_coerced : Value -> Z -> bool.
Variable ToString : Value -> Error + string.
Variable Buffer_from : Value -> Error + string.

(** X19. An upstream error whose body is falsy (an empty body, [null],
    [false], 0) does not come back with that body: on every protected route
    of both variants, when the call that ended the request (its last call;
    on the spec-update route the write, which follows the lookup whenever
    the content is text) was rejected with such a response, the proxy
    answers with the upstream status and puts the local message of the
    error under [error]. *)
Theorem falsy_error_body_replaced fuel (store : gmap string Session.Sess) (r : Route)
    (creq : Cookie.Req) (sreq : Session.Req) (log : list Call) (e : Error) (S : Z) (B : Value) :
  response e = Some {| status := S; body := B |} -> S <> 0 -> truthy B = false ->
  (last_rejected axios log (snd (Cookie.serve env axios lt_coerced ToString Buffer_from fuel r
      creq log)) e ->
   (forall c, last (snd (Cookie.serve env axios lt_coerced ToString Buffer_from fuel r creq log))
       = Some c ->
              ends r (Cookie.req_body creq) c) ->
   fst (Cookie.serve env axios lt_coerced ToString Buffer_from fuel r creq log)
   = Return (Json S (Obj {[ "error" := Str (message e) ]}) []))
  /\ (last_rejected axios log (snd (Session.serve env axios ToString Buffer_from store r sreq
      log)) e ->
      (forall c, last (snd (Session.serve env axios ToString Buffer_from store r sreq log)) = Some
          c ->
                 ends r (Session.req_body sreq) c) ->
      fst (Session.serve env axios ToString Buffer_from store r sreq log)
      = Return (Json S (Obj {[ "error" := Str (message e) ]}) [])).
Proof.
  intros Hr HS HB.
  assert (Hrelay : relay e = Json S (Obj {[ "error" := Str (message e) ]}) []).
  { unfold relay. rewrite Hr. cbn [status body]. rewrite HB.
    by rewrite (proj2 (Z.eqb_neq S 0) HS). }
  rewrite <- Hrelay. split.
  - unfold Cookie.serve. destruct (Cookie.ensureAuthenticated creq) as [res|token].
    + intros Hl _. by apply (relays_ret axios res log).
    + intros Hl He.
      destruct r;
        try (apply (relays_cookie_handler env axios lt_coerced ToString Buffer_from
                      fuel _ token creq); done).
      by apply relays_spec_update.
  - unfold Session.serve. destruct (Session.ensureAuthenticated store sreq) as [res|user].
    + intros Hl _. by apply (relays_ret axios res log).
    + intros Hl He.
      destruct r;
        try (apply (relays_session_handler env axios ToString Buffer_from _ user sreq); done).
      by apply relays_spec_update.
Qed.



(** The loop on full pages followed by a rejected call. *)
Lemma repos_loop_rejected (token : string) (q : gmap string Value) (e : Error) :
  forall (pages : list (list Value)) (fuel : nat) (acc : list Value) (page : Z)
         (log : list Call),
    Forall full pages ->
    (forall k p, pages !! k = Some p ->
       axios (log ++ page_calls env token q page k)%list
             (opts env token "GET" "/user/repos" ∅
                (Cookie.page_params q (page + Z.of_nat k)))
       = Resolved (Arr p)) ->
    axios (log ++ page_calls env token q page (length pages))%list
          (opts env token "GET" "/user/repos" ∅
             (Cookie.page_params q (page + Z.of_nat (length pages))))
    = Rejected e ->
    (length pages < fuel)%nat ->
    Cookie.repos_loop env axios lt_coerced ToString fuel (Str token) q acc page log
    = (Throw e, (log ++ page_calls env token q page (S (length pages)))%list).
Proof.
  intros pages.
  induction pages as [|p pages IH]; intros fuel acc page log Hfull Hax Hrej Hfuel.
  - destruct fuel as [|fuel]; [cbn in Hfuel; lia|].
    cbn [Cookie.repos_loop]. unfold githubRequest, text_of, attempt, bind, ret.
    cbn in Hrej. rewrite app_nil_r, Z.add_0_r in Hrej.
    by rewrite (request_rejected _ _ _ _ Hrej), page_calls_S.
  - destruct fuel as [|fuel]; [cbn in Hfuel; lia|].
    cbn [Cookie.repos_loop]. unfold githubRequest, text_of, attempt, bind, ret.
    pose proof (Hax 0%nat p eq_refl) as H0. cbn in H0.
    rewrite app_nil_r, Z.add_0_r in H0.
    rewrite (request_resolved _ _ _ _ H0).
    inversion Hfull as [|? ? Hp Hrest]; subst.
    rewrite (shorter_than_full _ _ Hp).
    rewrite (IH fuel _ (page + 1) _ Hrest).
    + cbn [length]. rewrite (page_calls_S env token q page (S (length pages))).
      by rewrite <- !app_assoc.
    + intros k p' Hk. specialize (Hax (S k) p' Hk).
      rewrite page_calls_S in Hax. rewrite <- app_assoc. cbn [app].
      replace (page + 1 + Z.of_nat k) with (page + Z.of_nat (S k)) by lia.
      exact Hax.
    + cbn [length] in Hrej. rewrite page_calls_S in Hrej.
      rewrite <- app_assoc. cbn [app].
      replace (page + 1 + Z.of_nat (length pages))
        with (page + Z.of_nat (S (length pages))) by lia.
      exact Hrej.
    + cbn in Hfuel. lia.
Qed.

(** X21. The list-repositories route of the cookie variant returns all
    pages or none: when upstream serves some full pages and then rejects
    the call for the next one, the items already received are dropped and
    the proxy answers with the relayed error alone, after one call per page
    asked for. *)
Theorem repos_error_discards_pages fuel (req : Cookie.Req) (tok : string) (log : list Call)
    (pages : list (list Value)) (e : Error) :
  Cookie.cookies req !! "gh_token" = Some (Str tok) -> tok <> "" ->
  Forall full pages ->
  (forall k p, pages !! k = Some p ->
     axios (log ++ page_calls env tok (Cookie.query req) 1 k)%list
           (opts env tok "GET" "/user/repos" ∅
              (Cookie.page_params (Cookie.query req) (1 + Z.of_nat k)))
     = Resolved (Arr p)) ->
  axios (log ++ page_calls env tok (Cookie.query req) 1 (length pages))%list
        (opts env tok "GET" "/user/repos" ∅
           (Cookie.page_params (Cookie.query req) (1 + Z.of_nat (length pages))))
  = Rejected e ->
  (length pages < fuel)%nat ->
  Cookie.serve env axios lt_coerced ToString Buffer_from fuel Repos req log
  = (Return (relay e),
     (log ++ page_calls env tok (Cookie.query req) 1 (S (length pages)))%list).
Proof.
  intros Hc Hne Hfull Hax Hrej Hfuel.
  rewrite (cookie_serve_admitted env axios lt_coerced ToString Buffer_from req tok fuel Repos Hc
      Hne).
  cbn [Cookie.handler]. unfold Cookie.repos, try_catch, bind.
  by rewrite (repos_loop_rejected tok (Cookie.query req) e pages fuel [] 1 log
                Hfull Hax Hrej Hfuel).
Qed.

End Edges.

Lemma falsy_error_body_replaced_witness :
  fst (Cookie.serve Scenario.env (Scenario.always (Upstream.Rejected Scenario.bare_404))
         Scenario.lt_coerced Scenario.ToString Scenario.Buffer_from 0 (Http.Commits "octo" "demo")
         (Scenario.with_cookie Http.empty_body) [])
  = Upstream.Return
      (Http.Json 404
         (JS.Obj {[ "error" := JS.Str (Upstream.message Scenario.bare_404) ]}) []).
Proof.
  apply (proj1 (falsy_error_body_replaced Scenario.env
                  (Scenario.always (Upstream.Rejected Scenario.bare_404)) Scenario.lt_coerced
                      Scenario.ToString Scenario.Buffer_from
                  0 Scenario.store (Http.Commits "octo" "demo")
                  (Scenario.with_cookie Http.empty_body)
                  (Scenario.with_session Http.empty_body) [] Scenario.bare_404 404 (JS.Str "")
                  eq_refl ltac:(discriminate) eq_refl)).
  - exists [], (Common.opts Scenario.env "gho_abc" "GET" "/repos/octo/demo/commits" ∅ ∅).
    split; [vm_compute; reflexivity | split; [cbn; lia | reflexivity]].
  - intros c _. exact I.
Defined.


(** A full first page, then a 404: the answer is the 404 alone. *)
Lemma repos_error_discards_pages_witness :
  Cookie.serve Scenario.env Cases.fails_after_first Scenario.lt_coerced Scenario.ToString
      Scenario.Buffer_from 5 Http.Repos
    (Scenario.with_cookie Http.empty_body) []
  = (Upstream.Return (Http.relay Scenario.not_found),
     ([] ++ Run.page_calls Scenario.env "gho_abc" ∅ 1 2)%list).
Proof.
  apply (repos_error_discards_pages Scenario.env Cases.fails_after_first Scenario.lt_coerced
      Scenario.ToString Scenario.Buffer_from
           5 (Scenario.with_cookie Http.empty_body) "gho_abc" []
           [Scenario.numbered 0 100] Scenario.not_found).
  - reflexivity.
  - discriminate.
  - repeat constructor; unfold Run.full; vm_compute; lia.
  - intros [|k] p [= <-]. vm_compute. reflexivity.
  - vm_compute. reflexivity.
  - cbn. lia.
Defined.
